(** * gossdp: a shallow embedding of [ssdp.go]

    The development follows the layout of the Go source: first the parts
    of the Go runtime and standard library that the program calls
    (string indexing and slicing, [strings.Split], [strings.ToLower],
    [strconv.ParseInt], [fmt.Sprintf "%d"], the regular expression
    [cacheControlAge], [http.Header.Get]), then the [Ssdp] engine state
    and its methods, then the properties.

    Go's [int] is taken to be 64 bits wide ([IntSize = 64]). *)

From Stdlib Require Import ZArith Lia Ascii String.
From stdpp Require Import base option list strings gmap fin_maps.

Local Open Scope string_scope.
Local Open Scope Z_scope.

(** ** Go strings: bytes, indexing, slicing *)

Module GoString.

Definition len (s : string) : Z := Z.of_nat (String.length s).

(** [s[i]]: a run-time panic ([None]) when [i] is out of range. *)
Definition index (s : string) (i : Z) : option ascii :=
  if (0 <=? i) && (i <? len s) then String.get (Z.to_nat i) s else None.

(** [s[lo:hi]]: a run-time panic ([None]) unless [0 <= lo <= hi <= len s]. *)
Definition slice (s : string) (lo hi : Z) : option string :=
  if (0 <=? lo) && (lo <=? hi) && (hi <=? len s)
  then Some (String.substring (Z.to_nat lo) (Z.to_nat (hi - lo)) s)
  else None.

Definition quote : ascii := ascii_of_nat 34.
Definition colon : ascii := ":"%char.
Definition newline : ascii := ascii_of_nat 10.

Definition is_digit (c : ascii) : bool :=
  let n := N_of_ascii c in ((48 <=? n) && (n <=? 57))%N.

Definition digit_val (c : ascii) : Z := Z.of_N (N_of_ascii c) - 48.

Definition digit_char (d : Z) : ascii := ascii_of_N (Z.to_N (48 + d)).

Definition is_upper (c : ascii) : bool :=
  let n := N_of_ascii c in ((65 <=? n) && (n <=? 90))%N.

Definition is_lower (c : ascii) : bool :=
  let n := N_of_ascii c in ((97 <=? n) && (n <=? 122))%N.

Definition to_lower (c : ascii) : ascii :=
  if is_upper c then ascii_of_N (N_of_ascii c + 32) else c.

Definition to_upper (c : ascii) : ascii :=
  if is_lower c then ascii_of_N (N_of_ascii c - 32) else c.

(** The test [strings.ToLower] makes first: is every byte below
    [utf8.RuneSelf]? *)
Fixpoint isASCII (s : string) : bool :=
  match s with
  | EmptyString => true
  | String c s' => (N_of_ascii c <? 128)%N && isASCII s'
  end.

(** What [strings.ToLower] does to a string of ASCII bytes: the letters
    [A] to [Z] are lowered byte by byte, the other bytes are kept. *)
Fixpoint lower_ASCII (s : string) : string :=
  match s with
  | EmptyString => EmptyString
  | String c s' => String (to_lower c) (lower_ASCII s')
  end.

(** [strings.HasPrefix] *)
Fixpoint HasPrefix (s p : string) {struct p} : bool :=
  match p, s with
  | EmptyString, _ => true
  | String _ _, EmptyString => false
  | String a p', String b s' => Ascii.eqb a b && HasPrefix s' p'
  end.

(** [s[n:]] for [n] up to the length of [s]. *)
Fixpoint skip (n : nat) (s : string) : string :=
  match n, s with
  | O, _ => s
  | S _, EmptyString => EmptyString
  | S n', String _ s' => skip n' s'
  end.

(** [strings.Split s sep] for a one-byte separator: the pieces between
    the separators, one more than there are separators. *)
Fixpoint Split (s : string) (sep : ascii) : list string :=
  match s with
  | EmptyString => [EmptyString]
  | String c s' =>
      if Ascii.eqb c sep then EmptyString :: Split s' sep
      else match Split s' sep with
           | [] => [String c EmptyString]
           | p :: ps => String c p :: ps
           end
  end.

(** [strings.Join] with a one-byte separator. *)
Fixpoint Join (ps : list string) (sep : ascii) : string :=
  match ps with
  | [] => EmptyString
  | [p] => p
  | p :: ps' => p +:+ String sep (Join ps' sep)
  end.

Fixpoint contains_byte (c : ascii) (s : string) : bool :=
  match s with
  | EmptyString => false
  | String a s' => Ascii.eqb a c || contains_byte c s'
  end.

(** The last byte of the non-empty string [String c s], as
    [st[len(st)-1]] reads it. *)
Fixpoint last_byte (c : ascii) (s : string) : ascii :=
  match s with
  | EmptyString => c
  | String d s' => last_byte d s'
  end.

Fixpoint all_digits (s : string) : bool :=
  match s with
  | EmptyString => true
  | String c s' => is_digit c && all_digits s'
  end.

Definition starts_with_digit (s : string) : bool :=
  match s with
  | EmptyString => false
  | String c _ => is_digit c
  end.

End GoString.

(** ** [strconv]: [ParseInt(s, 10, 0)] and the [%d] verb *)

Module strconv.
Import GoString.

Inductive NumError := ErrSyntax | ErrRange.

(** [strconv.IntSize], the width of [int]: the build modelled is a 64-bit
    one.  (On a 32-bit build it is 32, and [ParseInt(s, 10, 0)] keeps its
    results within 32 bits.) *)
Definition IntSize : Z := 64.
Definition maxUint64 : Z := 2 ^ 64 - 1.

(** The digit loop of [ParseUint] in base 10: [n] is the accumulator,
    a [uint64]. *)
Fixpoint ParseUint_loop (bitSize : Z) (s : string) (n : Z) : Z * option NumError :=
  match s with
  | EmptyString => (n, None)
  | String d s' =>
      if is_digit d then
        let v := digit_val d in
        let cutoff := maxUint64 / 10 + 1 in
        let maxVal := 2 ^ bitSize - 1 in
        if cutoff <=? n then (maxUint64, Some ErrRange)
        else
          let n10 := (n * 10) mod 2 ^ 64 in
          let n1 := (n10 + v) mod 2 ^ 64 in
          if (n1 <? n10) || (maxVal <? n1) then (maxUint64, Some ErrRange)
          else ParseUint_loop bitSize s' n1
      else (0, Some ErrSyntax)
  end.

Definition ParseUint (s : string) (bitSize : Z) : Z * option NumError :=
  let bitSize := if bitSize =? 0 then IntSize else bitSize in
  match s with
  | EmptyString => (0, Some ErrSyntax)
  | _ => ParseUint_loop bitSize s 0
  end.

(** [strconv.ParseInt(s, 10, bitSize)] *)
Definition ParseInt (s : string) (bitSize : Z) : Z * option NumError :=
  let bitSize := if bitSize =? 0 then IntSize else bitSize in
  match s with
  | EmptyString => (0, Some ErrSyntax)
  | String c rest =>
      let neg := Ascii.eqb c "-" in
      let s1 := if Ascii.eqb c "+" || neg then rest else s in
      match ParseUint s1 bitSize with
      | (_, Some ErrSyntax) => (0, Some ErrSyntax)
      | (un, _) =>
          let cutoff := 2 ^ (bitSize - 1) in
          if negb neg && (cutoff <=? un) then (cutoff - 1, Some ErrRange)
          else if neg && (cutoff <? un) then (- cutoff, Some ErrRange)
          else (if neg then - un else un, None)
      end
  end.

(** The decimal digits of a natural number, most significant first. *)
Fixpoint itoa_aux (fuel : nat) (n : Z) (acc : string) : string :=
  match fuel with
  | O => String (digit_char (n mod 10)) acc
  | S fuel' =>
      if n <? 10 then String (digit_char n) acc
      else itoa_aux fuel' (n / 10) (String (digit_char (n mod 10)) acc)
  end.

Definition utoa (n : Z) : string := itoa_aux (Z.to_nat (Z.log2 n)) n EmptyString.

(** [fmt.Sprintf("%d", n)] *)
Definition Itoa (n : Z) : string :=
  if n <? 0 then String "-" (utoa (- n)) else utoa n.

(** The number a string of decimal digits denotes, leading zeros
    allowed; [a] is the value of the digits read so far. *)
Fixpoint decimal_from (a : Z) (ds : string) : Z :=
  match ds with
  | EmptyString => a
  | String c ds' => decimal_from (a * 10 + digit_val c) ds'
  end.

Definition decimal (ds : string) : Z := decimal_from 0 ds.

End strconv.

(** ** [regexp]: the compiled pattern [cacheControlAge]

    [regexp.MustCompile(`.*max-age=([0-9]+).*`)], matched the way Go's
    engine does: the leftmost match, a greedy [.*] that gives bytes back
    only when the rest of the pattern cannot match otherwise, and [.]
    matching every byte but a newline. *)

Module regexp.
Import GoString.

(** [[0-9]+], greedy: the longest run of digits and what follows it. *)
Fixpoint span_digits (s : string) : string * string :=
  match s with
  | EmptyString => (EmptyString, EmptyString)
  | String c s' =>
      if is_digit c
      then let '(ds, rest) := span_digits s' in (String c ds, rest)
      else (EmptyString, s)
  end.

(** The final [.*]: everything up to the next newline. *)
Fixpoint line_rest (s : string) : string :=
  match s with
  | EmptyString => EmptyString
  | String c s' => if Ascii.eqb c newline then EmptyString else String c (line_rest s')
  end.

(** [max-age=([0-9]+).*] anchored at the head of [s]: the text matched
    and the capture group. *)
Definition literal_at (s : string) : option (string * string) :=
  if HasPrefix s "max-age=" then
    let '(ds, rest) := span_digits (skip 8 s) in
    match ds with
    | EmptyString => None
    | _ => Some ("max-age=" +:+ ds +:+ line_rest rest, ds)
    end
  else None.

(** The whole pattern anchored at the head of [s]: the leading [.*]
    first tries to take one more byte. *)
Fixpoint match_at (s : string) : option (string * string) :=
  match s with
  | EmptyString => literal_at s
  | String c s' =>
      if Ascii.eqb c newline then literal_at s
      else match match_at s' with
           | Some (w, g) => Some (String c w, g)
           | None => literal_at s
           end
  end.

(** The leftmost position at which the pattern matches. *)
Fixpoint find (s : string) : option (string * string) :=
  match match_at s with
  | Some r => Some r
  | None => match s with
            | EmptyString => None
            | String _ s' => find s'
            end
  end.

(** [cacheControlAge.FindStringSubmatch(s)]: [nil] or the match followed
    by the capture group. *)
Definition FindStringSubmatch (s : string) : list string :=
  match find s with
  | Some (w, g) => [w; g]
  | None => []
  end.

(** Does [max-age=<digit>] occur somewhere in [s]? *)
Fixpoint occurs (s : string) : bool :=
  match literal_at s with
  | Some _ => true
  | None => match s with
            | EmptyString => false
            | String _ s' => occurs s'
            end
  end.

End regexp.

(** ** [net/http]: headers, requests, responses *)

Module http.
Import GoString.

Fixpoint canon (upper : bool) (s : string) : string :=
  match s with
  | EmptyString => EmptyString
  | String c s' =>
      String (if upper then to_upper c else to_lower c) (canon (Ascii.eqb c "-") s')
  end.

(** [textproto.CanonicalMIMEHeaderKey] on keys made of letters and
    hyphens, which are the only ones the program passes. *)
Definition CanonicalHeaderKey (k : string) : string := canon true k.

(** [http.Header] is a [map[string][]string] keyed by canonical names. *)
Definition Header := gmap string (list string).

(** [h.Get(key)]: the first value stored under the canonical form of
    [key], or the empty string. *)
Definition Get (h : Header) (key : string) : string :=
  match h !! CanonicalHeaderKey key with
  | Some (v :: _) => v
  | _ => EmptyString
  end.

Record Request := mkRequest {
  Method : string;
  URLPath : string;
  ReqHeader : Header
}.

Record Response := mkResponse {
  Status : string;
  RespHeader : Header
}.

End http.

(** ** The engine: data *)

Import GoString.

(** Pointers to advertisements and to timers are positions in the stores
    of the engine state; a resolved address is kept as its text. *)
Abbreviation ptr := nat (only parsing).
Abbreviation timer_ref := nat (only parsing).
Abbreviation UDPAddr := string (only parsing).

Inductive error :=
| errors_New (msg : string)
| AddrError (addr : string).

(** [AdvertisableServer]; the timers are [nil] until [AdvertiseServer]
    has started them. *)
Record AdvertisableServer := mkAds {
  ServiceType : string;
  DeviceUuid : string;
  Location : string;
  MaxAge : Z;
  usn : string;
  lastTimer : option timer_ref;
  last3sTimer : option timer_ref
}.

Definition zeroAds : AdvertisableServer :=
  mkAds EmptyString EmptyString EmptyString 0 EmptyString None None.

Definition set_usn (u : string) (a : AdvertisableServer) : AdvertisableServer :=
  mkAds (ServiceType a) (DeviceUuid a) (Location a) (MaxAge a) u (lastTimer a) (last3sTimer a).
Definition set_lastTimer (t : option timer_ref) (a : AdvertisableServer) : AdvertisableServer :=
  mkAds (ServiceType a) (DeviceUuid a) (Location a) (MaxAge a) (usn a) t (last3sTimer a).
Definition set_last3sTimer (t : option timer_ref) (a : AdvertisableServer) : AdvertisableServer :=
  mkAds (ServiceType a) (DeviceUuid a) (Location a) (MaxAge a) (usn a) (lastTimer a) t.

(** A [time.Timer] made by [time.AfterFunc]: whose advertisement it
    announces, its first delay, the age added on every reset, and whether
    it is still scheduled. *)
Record Timer := mkTimer {
  t_ads : ptr;
  t_d : Z;
  t_age : Z;
  t_active : bool
}.

Definition timer_stopped (t : Timer) : Timer :=
  mkTimer (t_ads t) (t_d t) (t_age t) false.

Record writeMessage := mkWrite {
  message : option string;
  to : option UDPAddr;
  shouldExit : bool
}.

Record AliveMessage := mkAlive {
  alive_SearchType : string;
  alive_DeviceId : string;
  alive_Usn : string;
  alive_Location : string;
  alive_MaxAge : Z;
  alive_Server : string;
  alive_RawRequest : http.Request
}.

Record ByeMessage := mkBye {
  bye_SearchType : string;
  bye_DeviceId : string;
  bye_Usn : string;
  bye_RawRequest : http.Request
}.

Record ResponseMessage := mkResponseMessage {
  resp_MaxAge : Z;
  resp_SearchType : string;
  resp_DeviceId : string;
  resp_Usn : string;
  resp_Location : string;
  resp_Server : string;
  resp_RawResponse : http.Response
}.

(** The calls made on an [SsdpListener]. *)
Inductive Event :=
| NotifyAlive (m : AliveMessage)
| NotifyBye (m : ByeMessage)
| Response (m : ResponseMessage).

(** [Ssdp].  The two registry maps hold pointers into [heap]; [timers] is
    the store of the timers created so far; [listener] is [None] for a nil
    listener and otherwise the calls it has received, oldest first;
    [writeChannel] is the sequence of messages sent on the channel;
    [socket] tells whether [socket] and [rawSocket] are non-nil. *)
Record Ssdp := mkSsdp {
  advertisableServers : gmap string (list ptr);
  deviceIdToServer : gmap string ptr;
  heap : list AdvertisableServer;
  timers : list Timer;
  socket : bool;
  listener : option (list Event);
  listenSearchTargets : gmap string bool;
  writeChannel : list writeMessage;
  isRunning : bool
}.

Definition set_advertisableServers (m : gmap string (list ptr)) (s : Ssdp) : Ssdp :=
  mkSsdp m (deviceIdToServer s) (heap s) (timers s) (socket s) (listener s)
         (listenSearchTargets s) (writeChannel s) (isRunning s).
Definition set_deviceIdToServer (m : gmap string ptr) (s : Ssdp) : Ssdp :=
  mkSsdp (advertisableServers s) m (heap s) (timers s) (socket s) (listener s)
         (listenSearchTargets s) (writeChannel s) (isRunning s).
Definition set_heap (h : list AdvertisableServer) (s : Ssdp) : Ssdp :=
  mkSsdp (advertisableServers s) (deviceIdToServer s) h (timers s) (socket s) (listener s)
         (listenSearchTargets s) (writeChannel s) (isRunning s).
Definition set_timers (t : list Timer) (s : Ssdp) : Ssdp :=
  mkSsdp (advertisableServers s) (deviceIdToServer s) (heap s) t (socket s) (listener s)
         (listenSearchTargets s) (writeChannel s) (isRunning s).
Definition set_socket (b : bool) (s : Ssdp) : Ssdp :=
  mkSsdp (advertisableServers s) (deviceIdToServer s) (heap s) (timers s) b (listener s)
         (listenSearchTargets s) (writeChannel s) (isRunning s).
Definition set_listener (l : option (list Event)) (s : Ssdp) : Ssdp :=
  mkSsdp (advertisableServers s) (deviceIdToServer s) (heap s) (timers s) (socket s) l
         (listenSearchTargets s) (writeChannel s) (isRunning s).
Definition set_listenSearchTargets (m : gmap string bool) (s : Ssdp) : Ssdp :=
  mkSsdp (advertisableServers s) (deviceIdToServer s) (heap s) (timers s) (socket s) (listener s)
         m (writeChannel s) (isRunning s).
Definition set_writeChannel (w : list writeMessage) (s : Ssdp) : Ssdp :=
  mkSsdp (advertisableServers s) (deviceIdToServer s) (heap s) (timers s) (socket s) (listener s)
         (listenSearchTargets s) w (isRunning s).
Definition set_isRunning (b : bool) (s : Ssdp) : Ssdp :=
  mkSsdp (advertisableServers s) (deviceIdToServer s) (heap s) (timers s) (socket s) (listener s)
         (listenSearchTargets s) (writeChannel s) b.

(** [*p]: every pointer kept in the registry was made by [&ads] in
    [AdvertiseServer], so the lookup succeeds ([wf_live] and
    [wf_bucket_live] below, which hold of every engine by [run_engine_wf]). *)
Definition deref (s : Ssdp) (p : ptr) : AdvertisableServer :=
  default zeroAds (heap s !! p).

(** Assignment through a pointer. *)
Definition store (p : ptr) (f : AdvertisableServer → AdvertisableServer) (s : Ssdp) : Ssdp :=
  set_heap (alter f p (heap s)) s.

(** [s.writeChannel <- m] *)
Definition send (m : writeMessage) (s : Ssdp) : Ssdp :=
  set_writeChannel (writeChannel s ++ [m])%list s.

(** [t.Stop()]; a nil timer does not occur on a registered advertisement
    ([wf_timers] below). *)
Definition Timer_Stop (t : option timer_ref) (s : Ssdp) : Ssdp :=
  match t with
  | Some r => set_timers (alter timer_stopped r (timers s)) s
  | None => s
  end.

(** A call on the listener. *)
Definition deliver (e : Event) (s : Ssdp) : Ssdp :=
  match listener s with
  | Some calls => set_listener (Some (calls ++ [e])%list) s
  | None => s
  end.

Definition Second : Z := 1000000000.

(** Go's [int64] arithmetic wraps around. *)
Definition wrap64 (z : Z) : Z := (z + 2 ^ 63) mod 2 ^ 64 - 2 ^ 63.

(** [time.Sleep(d)] pauses for [d], or not at all when [d <= 0]. *)
Definition Sleep_time (d : Z) : Z := Z.max 0 d.

Definition CRLF : string := String (ascii_of_nat 13) (String (ascii_of_nat 10) EmptyString).

Definition multicastHostPort : string := "239.255.255.250:1900".

(** What the program takes from its environment: the operating-system
    name in [serverName], the clock read for the [DATE] header, address
    resolution, the HTTP parsers, the order in which [range] visits a
    map, which Go leaves unspecified, and the Unicode case tables:
    [unicode_ToLower s] is [strings.Map(unicode.ToLower, s)], which
    [strings.ToLower] returns for a string that holds a byte above 127. *)
Class Env := mkEnv {
  GOOS : string;
  now_RFC1123 : string;
  ResolveUDPAddr : string → option UDPAddr;
  ReadRequest : string → option http.Request;
  ReadResponse : string → option http.Response;
  range_order : ∀ A : Type, list A → list A;
  unicode_ToLower : string → string
}.

(** [range] visits every entry once, and the literal multicast address
    resolves. *)
Definition env_ok (E : Env) : Prop :=
  (∀ (A : Type) (l : list A), range_order A l ≡ₚ l) ∧
  is_Some (ResolveUDPAddr multicastHostPort).

(** ** The engine: methods *)

Section Engine.

Context {E : Env}.

(** [for k, v := range m] *)
Definition range_map {V : Type} (m : gmap string V) : list (string * V) :=
  range_order _ (map_to_list m).

Definition serverName : string := GOOS +:+ "/0.0 UPnP/1.0 gossdp/0.1".

Definition createSsdpHeader (head : string) (vars : gmap string string)
    (isResponse : bool) : string :=
  let first := if isResponse then "HTTP/1.1 " +:+ head +:+ CRLF
               else head +:+ " * HTTP/1.1" +:+ CRLF in
  foldl (λ buf kv, buf +:+ fst kv +:+ ": " +:+ snd kv +:+ CRLF) first (range_map vars)
    +:+ CRLF.

Definition advertiseTimer (ads : ptr) (d : Z) (age : Z) (s : Ssdp) : timer_ref * Ssdp :=
  (length (timers s), set_timers (timers s ++ [mkTimer ads d age true])%list s).

Definition AdvertiseServer (ads : AdvertisableServer) (s : Ssdp) : Ssdp :=
  if negb (isRunning s) then s
  else
    let adsPointer : ptr := length (heap s) in
    let s := set_heap (heap s ++ [ads])%list s in
    let s := store adsPointer
               (set_usn ("uuid:" +:+ DeviceUuid ads +:+ "::" +:+ ServiceType ads)) s in
    let svc := ServiceType (deref s adsPointer) in
    let s := match advertisableServers s !! svc with
             | Some v =>
                 set_advertisableServers
                   (<[svc := (v ++ [adsPointer])%list]> (advertisableServers s)) s
             | None =>
                 set_advertisableServers
                   (<[svc := [adsPointer]]> (advertisableServers s)) s
             end in
    let s := set_deviceIdToServer
               (<[DeviceUuid (deref s adsPointer) := adsPointer]> (deviceIdToServer s)) s in
    let '(t1, s) := advertiseTimer adsPointer (1 * Second) (MaxAge (deref s adsPointer)) s in
    let s := store adsPointer (set_lastTimer (Some t1)) s in
    let '(t3, s) := advertiseTimer adsPointer (3 * Second) (MaxAge (deref s adsPointer)) s in
    store adsPointer (set_last3sTimer (Some t3)) s.

(** The index of the first element of [group] with the given device
    UUID: the [for i := range group] loop of [RemoveServer]. *)
Fixpoint group_index (s : Ssdp) (uuid : string) (group : list ptr) : option nat :=
  match group with
  | [] => None
  | q :: group' =>
      if String.eqb (DeviceUuid (deref s q)) uuid then Some O
      else S <$> group_index s uuid group'
  end.

Definition RemoveServer (deviceUuid : string) (s : Ssdp) : Ssdp :=
  if negb (isRunning s) then s
  else
    match deviceIdToServer s !! deviceUuid with
    | None => s
    | Some ads =>
        let s := Timer_Stop (lastTimer (deref s ads)) s in
        let s := Timer_Stop (last3sTimer (deref s ads)) s in
        let s := set_deviceIdToServer (delete deviceUuid (deviceIdToServer s)) s in
        match advertisableServers s !! ServiceType (deref s ads) with
        | None => s
        | Some group =>
            if (length group =? 1)%nat then
              set_advertisableServers
                (delete (ServiceType (deref s ads)) (advertisableServers s)) s
            else
              match group_index s (DeviceUuid (deref s ads)) group with
              | Some i =>
                  let newGroup := (take i group ++ drop (S i) group)%list in
                  set_advertisableServers
                    (<[ServiceType (deref s ads) := newGroup]> (advertisableServers s)) s
              | None => s
              end
        end
    end.

(** [NewSsdpWithLogger] when [createSocket] succeeds; [l] tells whether
    a listener was given. *)
Definition NewSsdp (l : bool) : Ssdp :=
  mkSsdp ∅ ∅ [] [] true (if l then Some [] else None) ∅ [] true.

(** Lines 415-423 of [notify]. *)
Definition notify_deviceId (usn : string) : string :=
  if (0 <? len usn) then
    let parts := Split usn colon in
    if (2 <? length parts)%nat then
      if String.eqb (default EmptyString (parts !! 0%nat)) "uuid"
      then default EmptyString (parts !! 1%nat)
      else EmptyString
    else EmptyString
  else EmptyString.

(** Lines 429-438 of [notify]. *)
Definition notify_maxAge (req : http.Request) : Z :=
  let maxAge := -1 in
  let cc := http.Get (http.ReqHeader req) "CACHE-CONTROL" in
  if String.eqb cc EmptyString then maxAge
  else
    let subMatch := regexp.FindStringSubmatch cc in
    if (length subMatch =? 2)%nat then
      match strconv.ParseInt (default EmptyString (subMatch !! 1%nat)) 0 with
      | (maxAgeInt64, None) => maxAgeInt64
      | (_, Some _) => maxAge
      end
    else maxAge.

(** [strings.ToLower] *)
Definition ToLower (s : string) : string :=
  if isASCII s then lower_ASCII s else unicode_ToLower s.

Definition notify (req : http.Request) (s : Ssdp) : Ssdp :=
  match listener s with
  | None => s
  | Some _ =>
      let nts := http.Get (http.ReqHeader req) "NTS" in
      if String.eqb nts EmptyString then s
      else
        let searchType := http.Get (http.ReqHeader req) "NT" in
        if String.eqb searchType EmptyString then s
        else
          let usn := http.Get (http.ReqHeader req) "USN" in
          let deviceId := notify_deviceId usn in
          let nts := ToLower nts in
          if String.eqb nts "ssdp:alive" then
            let location := http.Get (http.ReqHeader req) "LOCATION" in
            let server := http.Get (http.ReqHeader req) "SERVER" in
            let maxAge := notify_maxAge req in
            deliver (NotifyAlive
                       (mkAlive searchType deviceId usn location maxAge server req)) s
          else if String.eqb nts "ssdp:byebye" then
            deliver (NotifyBye (mkBye searchType deviceId usn req)) s
          else s
  end.

(** Lines 491-500 of [parseResponse]. *)
Definition parseResponse_maxAge (resp : http.Response) : Z :=
  let maxAge := -1 in
  let cc := http.Get (http.RespHeader resp) "CACHE-CONTROL" in
  if String.eqb cc EmptyString then maxAge
  else
    let subMatch := regexp.FindStringSubmatch cc in
    if (length subMatch =? 2)%nat then
      match strconv.ParseInt (default EmptyString (subMatch !! 1%nat)) 0 with
      | (maxAgeInt64, None) => maxAgeInt64
      | (_, Some _) => maxAge
      end
    else maxAge.

(** Lines 501-510 of [parseResponse]. *)
Definition parseResponse_deviceId (usn : string) : string :=
  if (0 <? len usn) then
    let parts := Split usn colon in
    if (2 <? length parts)%nat then
      if String.eqb (default EmptyString (parts !! 0%nat)) "uuid"
      then default EmptyString (parts !! 1%nat)
      else EmptyString
    else EmptyString
  else EmptyString.

Definition parseResponse (msg hostPort : string) (s : Ssdp) : Ssdp :=
  match listener s with
  | None => s
  | Some _ =>
      match ReadResponse msg with
      | None => s
      | Some resp =>
          let maxAge := parseResponse_maxAge resp in
          let usn := http.Get (http.RespHeader resp) "USN" in
          let deviceId := parseResponse_deviceId usn in
          deliver (Response
                     (mkResponseMessage maxAge
                        (http.Get (http.RespHeader resp) "ST") deviceId usn
                        (http.Get (http.RespHeader resp) "LOCATION")
                        (http.Get (http.RespHeader resp) "SERVER") resp)) s
      end
  end.

Definition respondToMSearch (ads : ptr) (sendTo : string) (s : Ssdp) : Ssdp :=
  let a := deref s ads in
  let msg := createSsdpHeader "200 OK"
               (<["ST" := ServiceType a]>
                (<["USN" := usn a]>
                (<["LOCATION" := Location a]>
                (<["CACHE-CONTROL" := "max-age=" +:+ strconv.Itoa (MaxAge a)]>
                (<["DATE" := now_RFC1123]>
                (<["SERVER" := serverName]>
                (<["EXT" := EmptyString]> ∅)))))))
               true in
  match ResolveUDPAddr sendTo with
  | None => s
  | Some addr => send (mkWrite (Some msg) (Some addr) false) s
  end.

(** Lines 527-529 of [inMSearch]: [None] is a run-time panic. *)
Definition inMSearch_st (st : string) : option string :=
  c0 ← index st 0;
  if Ascii.eqb c0 quote then
    cl ← index st (len st - 1);
    if Ascii.eqb cl quote then slice st 1 (len st - 2) else Some st
  else Some st.

(** Lines 530-536 of [inMSearch]. *)
Definition inMSearch_mx (req : http.Request) : Z :=
  let mx := 0 in
  let mxStr := http.Get (http.ReqHeader req) "MX" in
  if String.eqb mxStr EmptyString then mx
  else
    match strconv.ParseInt mxStr 0 with
    | (mxInt64, Some _) => mxInt64
    | (_, None) => mx
    end.

(** Lines 542-554 of [inMSearch]. *)
Definition inMSearch_respond (st : string) (sendTo : string) (s : Ssdp) : Ssdp :=
  if String.eqb st "ssdp:all" then
    foldl (λ s kv, foldl (λ s d, respondToMSearch d sendTo s) s (snd kv))
          s (range_map (advertisableServers s))
  else
    match deviceIdToServer s !! st with
    | Some d => respondToMSearch d sendTo s
    | None =>
        match advertisableServers s !! st with
        | Some v => foldl (λ s d, respondToMSearch d sendTo s) s v
        | None => s
        end
    end.

(** [inMSearch]: the argument given to [time.Sleep] and the state after
    the responses were sent, or [None] for a run-time panic. *)
Definition inMSearch (st : string) (req : http.Request) (sendTo : string) (s : Ssdp)
    : option (Z * Ssdp) :=
  st ← inMSearch_st st;
  let mx := inMSearch_mx req in
  let d := wrap64 (mx * Second) in
  Some (d, inMSearch_respond st sendTo s).

Definition msearch (req : http.Request) (hostPort : string) (s : Ssdp)
    : option (Z * Ssdp) :=
  if String.eqb (http.Get (http.ReqHeader req) "MAN") EmptyString then Some (0, s)
  else if String.eqb (http.Get (http.ReqHeader req) "MX") EmptyString then Some (0, s)
  else
    let st := http.Get (http.ReqHeader req) "ST" in
    if String.eqb st EmptyString then Some (0, s)
    else inMSearch st req hostPort s.

Definition parseCommand (req : http.Request) (hostPort : string) (s : Ssdp)
    : option (Z * Ssdp) :=
  if String.eqb (http.Method req) "NOTIFY" then Some (0, notify req s)
  else if String.eqb (http.Method req) "M-SEARCH" then msearch req hostPort s
  else Some (0, s).

Definition parseMessage (msg hostPort : string) (s : Ssdp) : option (Z * Ssdp) :=
  if HasPrefix msg "HTTP" then Some (0, parseResponse msg hostPort s)
  else
    match ReadRequest msg with
    | None => Some (0, s)
    | Some req =>
        if String.eqb (http.URLPath req) "*" then parseCommand req hostPort s
        else Some (0, s)
    end.

Definition ListenFor (searchTarget : string) (s : Ssdp) : option error * Ssdp :=
  if negb (isRunning s) then (Some (errors_New "Not running. Can't listen"), s)
  else
    let s := set_listenSearchTargets (<[searchTarget := true]> (listenSearchTargets s)) s in
    let msg := createSsdpHeader "M-SEARCH"
                 (<["HOST" := multicastHostPort]>
                  (<["ST" := searchTarget]>
                  (<["MAN" := String quote ("ssdp:discover" +:+ String quote EmptyString)]>
                  (<["MX" := "3"]> ∅))))
                 false in
    match ResolveUDPAddr multicastHostPort with
    | None => (Some (AddrError multicastHostPort), s)
    | Some addr => (None, send (mkWrite (Some msg) (Some addr) false) s)
    end.

(** The header map of [advertiseServer]. *)
Definition advertiseServer_heads (a : AdvertisableServer) (alive : bool)
    : gmap string string :=
  let ntsString := if alive then "ssdp:alive" else "ssdp:byebye" in
  let heads := <["HOST" := multicastHostPort]>
               (<["NT" := ServiceType a]>
               (<["NTS" := ntsString]>
               (<["USN" := usn a]> ∅))) in
  if alive then
    <["SERVER" := serverName]>
    (<["CACHE-CONTROL" := "max-age=" +:+ strconv.Itoa (MaxAge a)]>
    (<["LOCATION" := Location a]> heads))
  else heads.

Definition advertiseServer (ads : ptr) (alive : bool) (s : Ssdp) : Ssdp :=
  let msg := createSsdpHeader "NOTIFY" (advertiseServer_heads (deref s ads) alive) false in
  match ResolveUDPAddr multicastHostPort with
  | Some to => send (mkWrite (Some msg) (Some to) false) s
  | None => s
  end.

Definition advertiseClosed (s : Ssdp) : Ssdp :=
  foldl (λ s kv,
           let ad := snd kv in
           let s := Timer_Stop (lastTimer (deref s ad)) s in
           let s := Timer_Stop (last3sTimer (deref s ad)) s in
           advertiseServer ad false s)
        s (range_map (deviceIdToServer s)).

Definition Stop (s : Ssdp) : Ssdp :=
  let s := set_isRunning false s in
  if socket s then
    let s := if (0 <? size (advertisableServers s))%nat then advertiseClosed s else s in
    let s := send (mkWrite None None true) s in
    set_socket false s
  else s.

(** The calls a client makes on the registry. *)
Inductive Op :=
| OpAdvertise (ads : AdvertisableServer)
| OpRemove (deviceUuid : string).

Definition apply_op (s : Ssdp) (o : Op) : Ssdp :=
  match o with
  | OpAdvertise ads => AdvertiseServer ads s
  | OpRemove deviceUuid => RemoveServer deviceUuid s
  end.

Definition run (ops : list Op) (s : Ssdp) : Ssdp := foldl apply_op s ops.

(** "Should only be called once per server": no [AdvertiseServer] in
    the sequence names a device UUID that is registered when it runs. *)
Fixpoint once_per_server (ops : list Op) (s : Ssdp) : bool :=
  match ops with
  | [] => true
  | o :: ops' =>
      match o with
      | OpAdvertise ads => bool_decide (deviceIdToServer s !! DeviceUuid ads = None)
      | OpRemove _ => true
      end && once_per_server ops' (apply_op s o)
  end.

(** The advertisement [p] sits in the bucket of its own service type. *)
Definition in_service_bucket (s : Ssdp) (p : ptr) : Prop :=
  ∃ g, advertisableServers s !! ServiceType (deref s p) = Some g ∧ p ∈ g.

(** The advertisement [p] is recorded in the device-UUID index. *)
Definition in_device_index (s : Ssdp) (p : ptr) : Prop :=
  ∃ u, deviceIdToServer s !! u = Some p.

(** Every advertisement of every bucket, bucket after bucket. *)
Definition bucket_entries (s : Ssdp) : list ptr :=
  map_to_list (advertisableServers s) ≫= snd.

(** The bucket entries made for device [u]. *)
Definition entries_of_device (s : Ssdp) (u : string) : list ptr :=
  filter (λ p, DeviceUuid (deref s p) = u) (bucket_entries s).

(** The datagram [respondToMSearch] sends for an advertisement. *)
Definition msearch_response (a : AdvertisableServer) (addr : UDPAddr) : writeMessage :=
  mkWrite
    (Some (createSsdpHeader "200 OK"
             (<["ST" := ServiceType a]>
              (<["USN" := usn a]>
              (<["LOCATION" := Location a]>
              (<["CACHE-CONTROL" := "max-age=" +:+ strconv.Itoa (MaxAge a)]>
              (<["DATE" := now_RFC1123]>
              (<["SERVER" := serverName]>
              (<["EXT" := EmptyString]> ∅)))))))
             true))
    (Some addr) false.

(** A NOTIFY byebye for an advertisement: [HOST], [NT], [NTS] and [USN]
    and nothing else. *)
Definition byebye (a : AdvertisableServer) (addr : UDPAddr) : writeMessage :=
  mkWrite
    (Some (createSsdpHeader "NOTIFY"
             (<["HOST" := multicastHostPort]>
              (<["NT" := ServiceType a]>
              (<["NTS" := "ssdp:byebye"]>
              (<["USN" := usn a]> ∅))))
             false))
    (Some addr) false.

(** The message that tells the writer to exit. *)
Definition sentinel : writeMessage := mkWrite None None true.

(** Both timers of the advertisement [a] exist and are stopped. *)
Definition timers_stopped (s : Ssdp) (a : AdvertisableServer) : Prop :=
  ∃ t1 t3 tm1 tm3,
    lastTimer a = Some t1 ∧ last3sTimer a = Some t3 ∧
    timers s !! t1 = Some tm1 ∧ timers s !! t3 = Some tm3 ∧
    t_active tm1 = false ∧ t_active tm3 = false.

(** The timers an advertisement owns, and a store of timers after the
    listed ones were stopped. *)
Definition ad_timers (a : AdvertisableServer) : list timer_ref :=
  (option_list (lastTimer a) ++ option_list (last3sTimer a))%list.

Definition stop_list (rs : list timer_ref) (ts : list Timer) : list Timer :=
  foldl (λ ts r, alter timer_stopped r ts) ts rs.

(** What holds of the registry whatever the calls made: the device-UUID
    index is keyed by the UUID of the advertisement it points to, that
    advertisement is in the bucket of its service type, and its two
    timers were started. *)
Record engine_wf (s : Ssdp) : Prop := {
  wf_live : ∀ u p, deviceIdToServer s !! u = Some p → (p < length (heap s))%nat;
  wf_key : ∀ u p, deviceIdToServer s !! u = Some p → DeviceUuid (deref s p) = u;
  wf_bucket : ∀ u p, deviceIdToServer s !! u = Some p → in_service_bucket s p;
  wf_bucket_live : ∀ svc g p,
    advertisableServers s !! svc = Some g → p ∈ g → (p < length (heap s))%nat;
  wf_timers : ∀ p a, heap s !! p = Some a →
    ∃ t1 t3, lastTimer a = Some t1 ∧ last3sTimer a = Some t3 ∧
             (t1 < length (timers s))%nat ∧ (t3 < length (timers s))%nat;
  wf_usn : ∀ p a, heap s !! p = Some a →
    usn a = "uuid:" +:+ DeviceUuid a +:+ "::" +:+ ServiceType a
}.

(** The two indexes agree: what holds in addition when no device UUID
    is advertised twice. *)
Record registry_consistent (s : Ssdp) : Prop := {
  rc_wf : engine_wf s;
  rc_bucket_key : ∀ svc g p,
    advertisableServers s !! svc = Some g → p ∈ g → ServiceType (deref s p) = svc;
  rc_bucket_device : ∀ svc g p,
    advertisableServers s !! svc = Some g → p ∈ g →
    deviceIdToServer s !! DeviceUuid (deref s p) = Some p;
  rc_nodup : ∀ svc g, advertisableServers s !! svc = Some g → NoDup g
}.

(** What [AdvertiseServer] leaves behind on a running engine. *)
Definition advertised (ads : AdvertisableServer) (s : Ssdp) : Ssdp :=
  let p := length (heap s) in
  mkSsdp
    (<[ServiceType ads := (default [] (advertisableServers s !! ServiceType ads) ++ [p])%list]>
       (advertisableServers s))
    (<[DeviceUuid ads := p]> (deviceIdToServer s))
    (heap s ++ [mkAds (ServiceType ads) (DeviceUuid ads) (Location ads) (MaxAge ads)
                  ("uuid:" +:+ DeviceUuid ads +:+ "::" +:+ ServiceType ads)
                  (Some (length (timers s))) (Some (S (length (timers s))))])%list
    (timers s ++ [mkTimer p (1 * Second) (MaxAge ads) true;
                  mkTimer p (3 * Second) (MaxAge ads) true])%list
    (socket s) (listener s) (listenSearchTargets s) (writeChannel s) (isRunning s).

(** The service-type index after [RemoveServer] took out the
    advertisement [a]. *)
Definition removed_buckets (s : Ssdp) (a : AdvertisableServer) : gmap string (list ptr) :=
  match advertisableServers s !! ServiceType a with
  | None => advertisableServers s
  | Some group =>
      if (length group =? 1)%nat then delete (ServiceType a) (advertisableServers s)
      else match group_index s (DeviceUuid a) group with
           | Some i =>
               <[ServiceType a := (take i group ++ drop (S i) group)%list]>
                 (advertisableServers s)
           | None => advertisableServers s
           end
  end.

(** What [RemoveServer] leaves behind on a running engine that has the
    advertisement [p] registered for the device. *)
Definition removed (deviceUuid : string) (p : ptr) (s : Ssdp) : Ssdp :=
  mkSsdp (removed_buckets s (deref s p)) (delete deviceUuid (deviceIdToServer s))
    (heap s) (stop_list (ad_timers (deref s p)) (timers s))
    (socket s) (listener s) (listenSearchTargets s) (writeChannel s) (isRunning s).

End Engine.

(** ** The engine: the loops, the timers and the socket *)

(** [socketWriter]: the [WriteTo] calls made, given the messages received
    from [writeChannel] in order; the list ends where the channel is
    closed.  A write error is logged and the loop goes on. *)
Fixpoint socketWriter (ch : list writeMessage) : list (option string * option string) :=
  match ch with
  | [] => []
  | msg :: ch' =>
      if shouldExit msg then []
      else (message msg, to msg) :: socketWriter ch'
  end.

(** A network interface as [createSocket] sees it: the result of
    [v.Addrs()], each address in the text [String()] gives, and whether
    [JoinGroup] succeeds on it. *)
Record Interface := mkInterface {
  if_Addrs : option (list string);
  if_JoinGroup : bool
}.

(** The network [createSocket] runs on: the result of [net.Interfaces()],
    whether [net.ListenPacket] succeeds, and what
    [net.ParseIP(a).IsUnspecified()] answers for an address text [a]. *)
Record Net := mkNet {
  net_Interfaces : option (list Interface);
  net_ListenPacket : bool;
  net_IsUnspecified : string → bool
}.

Inductive socket_error :=
| InterfacesError
| ListenPacketError
| NoCompatibleInterface.

(** The inner loop of [createSocket]: is there an address that is not
    unspecified? *)
Fixpoint hasRealAddress (unspecified : string → bool) (ef : list string) : bool :=
  match ef with
  | [] => false
  | a :: ef' => if unspecified a then hasRealAddress unspecified ef' else true
  end.

(** One turn of the outer loop of [createSocket]: [acc] holds
    [didFindInterface] and the indexes of the interfaces joined so far. *)
Definition createSocket_visit (n : Net) (acc : bool * list nat) (iv : nat * Interface)
    : bool * list nat :=
  match if_Addrs (snd iv) with
  | None => acc
  | Some ef =>
      if negb (hasRealAddress (net_IsUnspecified n) ef) then acc
      else if negb (if_JoinGroup (snd iv)) then acc
      else (true, (snd acc ++ [fst iv])%list)
  end.

(** [createSocket]: an error, or the indexes of the interfaces on which
    the multicast group was joined. *)
Definition createSocket (n : Net) : socket_error + list nat :=
  match net_Interfaces n with
  | None => inl InterfacesError
  | Some interfaces =>
      if negb (net_ListenPacket n) then inl ListenPacketError
      else
        let acc := foldl (createSocket_visit n) (false, []) (imap pair interfaces) in
        if negb (fst acc) then inl NoCompatibleInterface
        else inr (snd acc)
  end.

(** An interface that [createSocket] joins. *)
Definition joinable (n : Net) (v : Interface) : bool :=
  match if_Addrs v with
  | None => false
  | Some ef => existsb (λ a, negb (net_IsUnspecified n a)) ef && if_JoinGroup v
  end.

(** The headers of the response [respondToMSearch] builds. *)
Definition response_heads {E : Env} (a : AdvertisableServer) : gmap string string :=
  <["ST" := ServiceType a]>
  (<["USN" := usn a]>
  (<["LOCATION" := Location a]>
  (<["CACHE-CONTROL" := "max-age=" +:+ strconv.Itoa (MaxAge a)]>
  (<["DATE" := now_RFC1123]>
  (<["SERVER" := serverName]>
  (<["EXT" := EmptyString]> ∅)))))).

(** The headers of the M-SEARCH [ListenFor] builds. *)
Definition listen_heads (searchTarget : string) : gmap string string :=
  <["HOST" := multicastHostPort]>
  (<["ST" := searchTarget]>
  (<["MAN" := String quote ("ssdp:discover" +:+ String quote EmptyString)]>
  (<["MX" := "3"]> ∅))).

Section EngineLoops.
Context {E : Env}.

(** [NewSsdpWithLogger]: the error of [createSocket], or the new engine. *)
Definition NewSsdpWithLogger (n : Net) (l : bool) : socket_error + Ssdp :=
  match createSocket n with
  | inl err => inl err
  | inr _ => inr (NewSsdp l)
  end.

(** [socketReader]: the datagrams read from the socket, each with the
    address it came from, are cut to the 2048 bytes of the buffer and
    given to [parseMessage] unless empty; the list ends where [ReadFrom]
    fails.  [None] is a run-time panic. *)
Fixpoint socketReader (datagrams : list (string * string)) (s : Ssdp) : option Ssdp :=
  match datagrams with
  | [] => Some s
  | (bytes, src) :: rest =>
      let msg := String.substring 0 2048 bytes in
      if (0 <? String.length msg)%nat then
        match parseMessage msg src s with
        | Some (_, s') => socketReader rest s'
        | None => None
        end
      else socketReader rest s
  end.

(** A timer going off: the function [advertiseTimer] gives to
    [time.AfterFunc] sends the alive NOTIFY and resets the timer; the
    result holds the duration given to [timer.Reset].  A stopped timer
    does not go off. *)
Definition timer_fire (t : timer_ref) (s : Ssdp) : option (Z * Ssdp) :=
  match timers s !! t with
  | Some tm =>
      if t_active tm
      then Some (wrap64 (t_d tm + wrap64 (t_age tm * Second)),
                 advertiseServer (t_ads tm) true s)
      else None
  | None => None
  end.

(** [ListenFor] called for each target of a list, errors dropped. *)
Definition listen_all (targets : list string) (s : Ssdp) : Ssdp :=
  foldl (λ s t, snd (ListenFor t s)) s targets.

(** The M-SEARCH datagram of [ListenFor]. *)
Definition listen_message (mcast : string) (searchTarget : string) : writeMessage :=
  mkWrite (Some (createSsdpHeader "M-SEARCH" (listen_heads searchTarget) false))
    (Some mcast) false.

(** The alive NOTIFY of an advertisement. *)
Definition alive (a : AdvertisableServer) (mcast : string) : writeMessage :=
  mkWrite (Some (createSsdpHeader "NOTIFY" (advertiseServer_heads a true) false))
    (Some mcast) false.

End EngineLoops.

(** No bucket of the service-type index is empty. *)
Definition buckets_nonempty (s : Ssdp) : Prop :=
  ∀ svc g, advertisableServers s !! svc = Some g → g ≠ [].

(** The timers of the advertisements: [AdvertiseServer] starts two for
    each advertisement it stores, so the advertisement [p] owns the timers
    [2p] and [2p+1], whose function announces [p]; and the timers of the
    devices of the device-UUID index are running. *)
Record timers_live (s : Ssdp) : Prop := {
  tl_length : length (timers s) = (2 * length (heap s))%nat;
  tl_refs : ∀ p a, heap s !! p = Some a →
    lastTimer a = Some (2 * p)%nat ∧ last3sTimer a = Some (S (2 * p));
  tl_owner : ∀ p tm,
    timers s !! (2 * p)%nat = Some tm ∨ timers s !! S (2 * p) = Some tm → t_ads tm = p;
  tl_active : ∀ u p tm, deviceIdToServer s !! u = Some p →
    timers s !! (2 * p)%nat = Some tm ∨ timers s !! S (2 * p) = Some tm →
    t_active tm = true
}.

(** What an incoming datagram leaves alone: the registry, the timers, the
    listen filter and the life-cycle flags. *)
Definition same_registry (s s' : Ssdp) : Prop :=
  advertisableServers s' = advertisableServers s ∧
  deviceIdToServer s' = deviceIdToServer s ∧
  heap s' = heap s ∧
  timers s' = timers s ∧
  socket s' = socket s ∧
  listenSearchTargets s' = listenSearchTargets s ∧
  isRunning s' = isRunning s.

(** The write channel and the calls on the listener only grow, and what
    is sent is never the sentinel. *)
Definition only_grows (s s' : Ssdp) : Prop :=
  (∃ sent, writeChannel s' = (writeChannel s ++ sent)%list ∧
           Forall (λ m, shouldExit m = false) sent) ∧
  match listener s with
  | None => listener s' = None
  | Some calls => ∃ events, listener s' = Some (calls ++ events)%list
  end.

(** The text of the header lines, one after the other. *)
Fixpoint header_lines (entries : list (string * string)) : string :=
  match entries with
  | [] => EmptyString
  | kv :: entries' => fst kv +:+ ": " +:+ snd kv +:+ CRLF +:+ header_lines entries'
  end.

(** ** Concrete scenarios *)

(** An environment: a Linux host, a fixed clock, every address resolves,
    maps are visited in the order [map_to_list] gives.  No string of the
    scenarios holds a byte above 127, so the Unicode case tables are never
    consulted there. *)
Definition env0 : Env :=
  mkEnv "linux" "Sat, 31 Oct 2026 00:00:00 UTC" Some (λ _, None) (λ _, None) (λ _ l, l)
    (λ s, s).

(** [s] between two double quotes. *)
Definition quoted (s : string) : string :=
  String quote (s +:+ String quote EmptyString).

(** The one-byte and the two-byte search targets made of quotes only. *)
Definition one_quote : string := String quote EmptyString.
Definition two_quotes : string := String quote (String quote EmptyString).

(** An M-SEARCH with the given [ST] and [MX] values. *)
Definition msearch_request (st mx : string) : http.Request :=
  http.mkRequest "M-SEARCH" "*"
    (<["St" := [st]]> (<["Mx" := [mx]]> (<["Man" := [quoted "ssdp:discover"]]> ∅))).

(** A NOTIFY with the given [NT], [NTS] and [USN] values and
    [Cache-Control: max-age=1800]. *)
Definition notify_request (nt nts usn : string) : http.Request :=
  http.mkRequest "NOTIFY" "*"
    (<["Nt" := [nt]]> (<["Nts" := [nts]]> (<["Usn" := [usn]]>
       (<["Cache-Control" := ["max-age=1800"]]> ∅)))).

(** A request whose only header is [Cache-Control]. *)
Definition cache_control_request (cc : string) : http.Request :=
  http.mkRequest "NOTIFY" "*" (<["Cache-Control" := [cc]]> ∅).

Definition cache_control_response (cc : string) : http.Response :=
  http.mkResponse "200 OK" (<["Cache-Control" := [cc]]> ∅).

(** The advertisement of the first scenario of the specification, and a
    second one for the same device under another service type. *)
Definition ad1 : AdvertisableServer :=
  mkAds "urn:test:svc:1" "u1" "http://h/1" 1800 EmptyString None None.
Definition ad1' : AdvertisableServer :=
  mkAds "urn:test:svc:2" "u1" "http://h/2" 1800 EmptyString None None.
Definition ad2 : AdvertisableServer :=
  mkAds "urn:test:svc:1" "u2" "http://h/3" 60 EmptyString None None.

(** An engine with a listener that has called [ListenFor("urn:a")]. *)
Definition listening_a : Ssdp := snd (ListenFor (E := env0) "urn:a" (NewSsdp true)).

(** An engine that advertises two devices under one service type. *)
Definition two_devices : Ssdp := run [OpAdvertise ad1; OpAdvertise ad2] (NewSsdp false).

(** The address an M-SEARCH came from. *)
Definition searcher : string := "192.168.1.7:50000".

(** An engine on which the same device was advertised twice. *)
Definition advertised_twice : Ssdp := run [OpAdvertise ad1; OpAdvertise ad1'] (NewSsdp false).

(** The first advertisement as it stands in the engine once advertised. *)
Definition ad1_registered : AdvertisableServer :=
  mkAds "urn:test:svc:1" "u1" "http://h/1" 1800 "uuid:u1::urn:test:svc:1"
    (Some 0%nat) (Some 1%nat).

(** The alive NOTIFY of that advertisement as a peer's HTTP parser gives
    it, and the datagram it is read from.  [http.ReadRequest] takes the
    [Host] line out of the header map (it goes to [Request.Host], which
    the program does not read), so six headers are left. *)
Definition alive_request : http.Request :=
  http.mkRequest "NOTIFY" "*"
    (<["Nt" := ["urn:test:svc:1"]]>
     (<["Nts" := ["ssdp:alive"]]>
     (<["Usn" := ["uuid:u1::urn:test:svc:1"]]>
     (<["Location" := ["http://h/1"]]>
     (<["Cache-Control" := ["max-age=1800"]]>
     (<["Server" := ["linux/0.0 UPnP/1.0 gossdp/0.1"]]> ∅)))))).

Definition alive_text : string :=
  createSsdpHeader (E := env0) "NOTIFY"
    (advertiseServer_heads (E := env0) ad1_registered true) false.

(** An M-SEARCH for every service, and the datagram it is read from. *)
Definition search_text : string :=
  createSsdpHeader (E := env0) "M-SEARCH" (listen_heads "ssdp:all") false.

(** The response for that advertisement as a peer's HTTP parser gives it,
    and the datagram it is read from. *)
Definition response_of_ad1 : http.Response :=
  http.mkResponse "200 OK"
    (<["St" := ["urn:test:svc:1"]]>
     (<["Usn" := ["uuid:u1::urn:test:svc:1"]]>
     (<["Location" := ["http://h/1"]]>
     (<["Cache-Control" := ["max-age=1800"]]>
     (<["Date" := ["Sat, 31 Oct 2026 00:00:00 UTC"]]>
     (<["Server" := ["linux/0.0 UPnP/1.0 gossdp/0.1"]]>
     (<["Ext" := [EmptyString]]> ∅))))))).

Definition response_text : string :=
  createSsdpHeader (E := env0) "200 OK" (response_heads (E := env0) ad1_registered) true.

(** The environment [env0] with HTTP parsers that know these three
    datagrams. *)
Definition env1 : Env :=
  mkEnv "linux" "Sat, 31 Oct 2026 00:00:00 UTC" Some
    (λ msg, if String.eqb msg alive_text then Some alive_request
            else if String.eqb msg search_text
                 then Some (msearch_request "ssdp:all" "3")
                 else None)
    (λ msg, if String.eqb msg response_text then Some response_of_ad1 else None)
    (λ _ l, l) (λ s, s).

(** An engine with a listener that advertises two devices. *)
Definition two_devices_listening : Ssdp :=
  run [OpAdvertise ad1; OpAdvertise ad2] (NewSsdp true).

(** The datagrams of a session: an alive NOTIFY, an empty datagram, a
    search and a response, each with the address it came from. *)
Definition session : list (string * string) :=
  [(alive_text, searcher); (EmptyString, searcher); (search_text, searcher);
   (response_text, searcher)].

(** A machine with four interfaces: one with an unspecified address only,
    one that can be joined, one whose addresses cannot be read, one on
    which [JoinGroup] fails. *)
Definition net0 : Net :=
  mkNet
    (Some [mkInterface (Some ["0.0.0.0"]) true;
           mkInterface (Some ["0.0.0.0"; "192.168.1.7"]) true;
           mkInterface None true;
           mkInterface (Some ["10.0.0.1"]) false])
    true
    (λ a, String.eqb a "0.0.0.0").

(** * Properties *)

(** With a 32-bit [int] the value that comes with the range error is
    [2^31 - 1], and that many seconds are a positive duration. *)
Example ParseInt_32_bit_range :
  strconv.ParseInt "2147483648" 32 = (2 ^ 31 - 1, Some strconv.ErrRange) ∧
  Sleep_time (wrap64 ((2 ^ 31 - 1) * Second)) = 2147483647000000000.
Proof. split; vm_compute; reflexivity. Qed.

(** ** The library functions on small inputs *)

Example ParseInt_3 : strconv.ParseInt "3" 0 = (3, None).
Proof. reflexivity. Qed.

Example ParseInt_negative : strconv.ParseInt "-12" 0 = (-12, None).
Proof. reflexivity. Qed.

Example ParseInt_abc : strconv.ParseInt "abc" 0 = (0, Some strconv.ErrSyntax).
Proof. reflexivity. Qed.

Example ParseInt_max : strconv.ParseInt "9223372036854775807" 0 = (2 ^ 63 - 1, None).
Proof. vm_compute. reflexivity. Qed.

Example ParseInt_overflow :
  strconv.ParseInt "9223372036854775808" 0 = (2 ^ 63 - 1, Some strconv.ErrRange).
Proof. vm_compute. reflexivity. Qed.

Example ParseInt_underflow :
  strconv.ParseInt "-9223372036854775809" 0 = (- 2 ^ 63, Some strconv.ErrRange).
Proof. vm_compute. reflexivity. Qed.

Example Itoa_1800 : strconv.Itoa 1800 = "1800".
Proof. reflexivity. Qed.

Example Itoa_0 : strconv.Itoa 0 = "0".
Proof. reflexivity. Qed.

Example Itoa_negative : strconv.Itoa (-42) = "-42".
Proof. reflexivity. Qed.

Example Split_usn : Split "uuid:X::Y" colon = ["uuid"; "X"; ""; "Y"].
Proof. reflexivity. Qed.

Example Split_empty : Split "" colon = [""].
Proof. reflexivity. Qed.

Example CanonicalHeaderKey_cache_control :
  http.CanonicalHeaderKey "CACHE-CONTROL" = "Cache-Control".
Proof. reflexivity. Qed.

Example FindStringSubmatch_last :
  regexp.FindStringSubmatch "public, max-age=5, max-age=77x"
  = ["public, max-age=5, max-age=77x"; "77"].
Proof. reflexivity. Qed.

Example FindStringSubmatch_malformed : regexp.FindStringSubmatch "max-age=abc" = [].
Proof. reflexivity. Qed.

Example wrap64_max_seconds : wrap64 ((2 ^ 63 - 1) * Second) = - Second.
Proof. reflexivity. Qed.

(** ** Strings *)

Lemma len_String c s : len (String c s) = 1 + len s.
Proof. unfold len. cbn [String.length]. lia. Qed.

Lemma len_nonneg s : 0 <= len s.
Proof. unfold len. lia. Qed.

Lemma index_0 c s : index (String c s) 0 = Some c.
Proof.
  unfold index. rewrite len_String.
  pose proof (len_nonneg s).
  replace (0 <? 1 + len s) with true by (symmetry; apply Z.ltb_lt; lia).
  reflexivity.
Qed.

Lemma index_S c s i : 0 <= i → index (String c s) (1 + i) = index s i.
Proof.
  intros Hi. unfold index. rewrite len_String.
  replace (0 <=? 1 + i) with true by (symmetry; apply Z.leb_le; lia).
  replace (0 <=? i) with true by (symmetry; apply Z.leb_le; lia).
  replace (1 + i <? 1 + len s) with (i <? len s)
    by (destruct (Z.ltb_spec i (len s)); symmetry; [apply Z.ltb_lt | apply Z.ltb_ge]; lia).
  cbn [andb]. destruct (i <? len s); [|reflexivity].
  replace (Z.to_nat (1 + i)) with (S (Z.to_nat i)) by lia.
  reflexivity.
Qed.

Lemma index_last c s : index (String c s) (len (String c s) - 1) = Some (last_byte c s).
Proof.
  revert c. induction s as [|d s IH]; intros c.
  - reflexivity.
  - rewrite len_String.
    replace (1 + len (String d s) - 1) with (1 + (len (String d s) - 1)) by lia.
    rewrite index_S by (rewrite len_String; pose proof (len_nonneg s); lia).
    apply IH.
Qed.

Lemma slice_in_range s lo hi :
  0 <= lo → lo <= hi → hi <= len s → is_Some (slice s lo hi).
Proof.
  intros H1 H2 H3. unfold slice.
  replace (0 <=? lo) with true by (symmetry; apply Z.leb_le; lia).
  replace (lo <=? hi) with true by (symmetry; apply Z.leb_le; lia).
  replace (hi <=? len s) with true by (symmetry; apply Z.leb_le; lia).
  eauto.
Qed.

Lemma slice_out_of_range s lo hi : hi < lo → slice s lo hi = None.
Proof.
  intros H. unfold slice.
  replace (lo <=? hi) with false by (symmetry; apply Z.leb_gt; lia).
  by rewrite andb_false_r.
Qed.

(** When [inMSearch_st] panics on a non-empty search target. *)
Lemma inMSearch_st_None c st :
  inMSearch_st (String c st) = None ↔
  String c st = one_quote ∨ String c st = two_quotes.
Proof.
  unfold inMSearch_st. rewrite index_0. cbn [mbind option_bind].
  destruct (Ascii.eqb_spec c quote) as [->|Hc].
  - rewrite index_last. cbn [mbind option_bind].
    destruct (Ascii.eqb_spec (last_byte quote st) quote) as [Hl|Hl].
    + destruct st as [|d st].
      * split; [by left|]. intros _. reflexivity.
      * destruct st as [|e st].
        -- cbn in Hl. subst d. split; [by right|]. intros _. reflexivity.
        -- split.
           ++ intros Hn. exfalso.
              assert (is_Some (slice (String quote (String d (String e st))) 1
                         (len (String quote (String d (String e st))) - 2))) as [x Hx].
              { apply slice_in_range; rewrite ?len_String; pose proof (len_nonneg st); lia. }
              congruence.
           ++ intros [H|H]; discriminate H.
    + split; [discriminate|].
      intros [H|H]; injection H as ->; cbn in Hl; congruence.
  - split; [discriminate|].
    intros [H|H]; injection H as -> _; congruence.
Qed.

Lemma append_assoc (a b c : string) : (a +:+ b) +:+ c = a +:+ (b +:+ c).
Proof.
  induction a as [|x a IH]; [reflexivity|].
  change (String x ((a +:+ b) +:+ c) = String x (a +:+ (b +:+ c))). by rewrite IH.
Qed.

Lemma append_nil_r (a : string) : a +:+ EmptyString = a.
Proof.
  induction a as [|x a IH]; [reflexivity|].
  change (String x (a +:+ EmptyString) = String x a). by rewrite IH.
Qed.

Lemma eqb_append_nonempty (a b : string) c :
  String.eqb (a +:+ String c b) EmptyString = false.
Proof. destruct a; reflexivity. Qed.

(** ** [strconv] *)

Lemma digit_cases d : 0 <= d < 10 →
  d = 0 ∨ d = 1 ∨ d = 2 ∨ d = 3 ∨ d = 4 ∨ d = 5 ∨ d = 6 ∨ d = 7 ∨ d = 8 ∨ d = 9.
Proof. lia. Qed.

Lemma digit_char_is_digit d : 0 <= d < 10 → is_digit (digit_char d) = true.
Proof.
  intros H. destruct (digit_cases d H) as [->|[->|[->|[->|[->|[->|[->|[->|[->| ->]]]]]]]]];
    reflexivity.
Qed.

Lemma digit_val_char d : 0 <= d < 10 → digit_val (digit_char d) = d.
Proof.
  intros H. destruct (digit_cases d H) as [->|[->|[->|[->|[->|[->|[->|[->|[->| ->]]]]]]]]];
    reflexivity.
Qed.

Lemma is_digit_bounds c : is_digit c = true → (48 <= N_of_ascii c <= 57)%N.
Proof.
  unfold is_digit. cbv zeta. intros H. apply andb_true_iff in H as [H1 H2].
  apply N.leb_le in H1, H2. lia.
Qed.

Lemma is_digit_not c d :
  is_digit d = false → is_digit c = true → Ascii.eqb d c = false.
Proof.
  intros Hd Hc. destruct (Ascii.eqb_spec d c) as [->|]; [congruence | reflexivity].
Qed.

Lemma is_digit_not' c d :
  is_digit d = false → is_digit c = true → Ascii.eqb c d = false.
Proof.
  intros Hd Hc. destruct (Ascii.eqb_spec c d) as [->|]; [congruence | reflexivity].
Qed.

Lemma digit_val_range c : is_digit c = true → 0 <= digit_val c < 10.
Proof. intros H. apply is_digit_bounds in H. unfold digit_val. lia. Qed.

(** One turn of the digit loop that stays within [uint64]. *)
Lemma ParseUint_loop_step d tl a :
  0 <= a → 0 <= d < 10 → a * 10 + d <= strconv.maxUint64 →
  strconv.ParseUint_loop 64 (String (digit_char d) tl) a
  = strconv.ParseUint_loop 64 tl (a * 10 + d).
Proof.
  intros Ha Hd Hmax. cbn [strconv.ParseUint_loop].
  rewrite digit_char_is_digit, digit_val_char by assumption.
  unfold strconv.maxUint64 in *. cbv zeta.
  change (2 ^ 64) with 18446744073709551616 in *.
  change ((18446744073709551616 - 1) / 10 + 1) with 1844674407370955162.
  replace (1844674407370955162 <=? a) with false by (symmetry; apply Z.leb_gt; lia).
  rewrite (Z.mod_small (a * 10)) by lia.
  rewrite (Z.mod_small (a * 10 + d)) by lia.
  replace (a * 10 + d <? a * 10) with false by (symmetry; apply Z.ltb_ge; lia).
  replace (18446744073709551616 - 1 <? a * 10 + d) with false
    by (symmetry; apply Z.ltb_ge; lia).
  reflexivity.
Qed.

Lemma ParseUint_loop_itoa fuel : ∀ n tl,
  0 <= n → n < 10 * 2 ^ Z.of_nat fuel → n <= strconv.maxUint64 →
  strconv.ParseUint_loop 64 (strconv.itoa_aux fuel n tl) 0
  = strconv.ParseUint_loop 64 tl n.
Proof.
  induction fuel as [|fuel IH]; intros n tl H0 Hf Hmax.
  - cbn [strconv.itoa_aux]. change (2 ^ Z.of_nat 0) with 1 in Hf.
    rewrite Z.mod_small by lia.
    rewrite ParseUint_loop_step by (unfold strconv.maxUint64 in *; lia).
    f_equal.
  - cbn [strconv.itoa_aux]. destruct (Z.ltb_spec n 10) as [Hlt|Hge].
    + rewrite ParseUint_loop_step by (unfold strconv.maxUint64 in *; lia). f_equal.
    + rewrite Nat2Z.inj_succ, Z.pow_succ_r in Hf by lia.
      pose proof (Z.div_mod n 10 ltac:(lia)) as Hdm.
      pose proof (Z.mod_pos_bound n 10 ltac:(lia)) as Hm.
      rewrite IH by (unfold strconv.maxUint64 in *; lia).
      rewrite ParseUint_loop_step by (unfold strconv.maxUint64 in *; lia).
      f_equal. lia.
Qed.

Lemma itoa_aux_digits fuel : ∀ n tl,
  0 <= n → all_digits tl = true → all_digits (strconv.itoa_aux fuel n tl) = true.
Proof.
  induction fuel as [|fuel IH]; intros n tl H0 Htl; cbn [strconv.itoa_aux].
  - cbn [all_digits]. rewrite digit_char_is_digit, Htl; [reflexivity|].
    apply Z.mod_pos_bound. lia.
  - destruct (Z.ltb_spec n 10).
    + cbn [all_digits]. rewrite digit_char_is_digit, Htl; [reflexivity | lia].
    + apply IH; [apply Z.div_pos; lia|].
      cbn [all_digits]. rewrite digit_char_is_digit, Htl; [reflexivity|].
      apply Z.mod_pos_bound. lia.
Qed.

Lemma itoa_aux_nonempty fuel : ∀ n tl, ∃ c r, strconv.itoa_aux fuel n tl = String c r.
Proof.
  induction fuel as [|fuel IH]; intros n tl; cbn [strconv.itoa_aux]; [eauto|].
  destruct (n <? 10); eauto.
Qed.

Lemma utoa_fuel n : 0 <= n → n < 10 * 2 ^ Z.of_nat (Z.to_nat (Z.log2 n)).
Proof.
  intros H. rewrite Z2Nat.id by apply Z.log2_nonneg.
  destruct (Z.eq_dec n 0) as [->|]; [reflexivity|].
  pose proof (Z.log2_spec n ltac:(lia)) as [_ Hs].
  rewrite Z.pow_succ_r in Hs by apply Z.log2_nonneg. lia.
Qed.

(** [ParseInt] reads back what [%d] writes, for every value of an [int]
    that is not negative. *)
Lemma ParseInt_utoa n :
  0 <= n < 2 ^ 63 → strconv.ParseInt (strconv.utoa n) 0 = (n, None).
Proof.
  intros [H0 Hn].
  assert (strconv.ParseUint_loop 64 (strconv.utoa n) 0 = (n, None)) as Hloop.
  { unfold strconv.utoa. rewrite ParseUint_loop_itoa; [reflexivity | lia | by apply utoa_fuel |].
    unfold strconv.maxUint64. lia. }
  assert (all_digits (strconv.utoa n) = true) as Hd
    by (by apply itoa_aux_digits).
  destruct (itoa_aux_nonempty (Z.to_nat (Z.log2 n)) n EmptyString) as (c & r & Hcr).
  fold (strconv.utoa n) in Hcr. rewrite Hcr in *.
  cbn [all_digits] in Hd. apply andb_true_iff in Hd as [Hc _].
  unfold strconv.ParseInt. cbv zeta.
  change (0 =? 0) with true. cbv iota.
  rewrite (is_digit_not' c "+"), (is_digit_not' c "-") by (reflexivity || assumption).
  cbn [orb negb andb]. unfold strconv.ParseUint.
  change (strconv.IntSize =? 0) with false. cbv iota.
  change strconv.IntSize with 64. rewrite Hloop.
  replace (2 ^ (64 - 1) <=? n) with false by (symmetry; apply Z.leb_gt; lia).
  reflexivity.
Qed.

(** Whenever [ParseInt] reports an error its value is [0] or an end of the
    [int] range. *)
Lemma ParseInt_error_value s v e :
  strconv.ParseInt s 0 = (v, Some e) → v = 0 ∨ v = 2 ^ 63 - 1 ∨ v = - 2 ^ 63.
Proof.
  unfold strconv.ParseInt. cbv zeta. change (0 =? 0) with true. cbv iota.
  destruct s as [|c rest]; [intros [= <- _]; by left|].
  destruct (strconv.ParseUint _ _) as [un [[]|]].
  - intros [= <- _]. by left.
  - unfold strconv.IntSize.
    repeat match goal with |- context [if ?b then _ else _] => destruct b end;
      intros [= <- _]; auto.
  - unfold strconv.IntSize.
    repeat match goal with |- context [if ?b then _ else _] => destruct b end;
      intros [= <- ?]; auto.
Qed.

(** [ParseInt] on any string of digits: the number denoted, or the range
    error with the largest [int]. *)
Lemma decimal_from_ge ds : ∀ a,
  all_digits ds = true → 0 <= a → a <= strconv.decimal_from a ds.
Proof.
  induction ds as [|c ds IH]; intros a Hds Ha; [cbn; lia|].
  cbn [all_digits] in Hds. apply andb_true_iff in Hds as [Hc Hds].
  pose proof (digit_val_range c Hc). cbn [strconv.decimal_from].
  specialize (IH (a * 10 + digit_val c) Hds). lia.
Qed.

Lemma ParseUint_loop_digits ds : ∀ a,
  all_digits ds = true → 0 <= a <= strconv.maxUint64 →
  strconv.ParseUint_loop 64 ds a
  = if strconv.decimal_from a ds <=? strconv.maxUint64
    then (strconv.decimal_from a ds, None)
    else (strconv.maxUint64, Some strconv.ErrRange).
Proof.
  induction ds as [|c ds IH]; intros a Hds Ha.
  - cbn [strconv.ParseUint_loop strconv.decimal_from].
    by replace (a <=? strconv.maxUint64) with true by (symmetry; apply Z.leb_le; lia).
  - cbn [all_digits] in Hds. apply andb_true_iff in Hds as [Hc Hds].
    pose proof (digit_val_range c Hc) as Hv.
    pose proof (decimal_from_ge ds (a * 10 + digit_val c) Hds ltac:(lia)) as Hge.
    cbn [strconv.ParseUint_loop strconv.decimal_from]. rewrite Hc. cbv zeta.
    unfold strconv.maxUint64 in *.
    change (2 ^ 64) with 18446744073709551616 in *.
    change ((18446744073709551616 - 1) / 10 + 1) with 1844674407370955162.
    destruct (Z.leb_spec 1844674407370955162 a) as [Hcut|Hcut].
    { by replace (strconv.decimal_from (a * 10 + digit_val c) ds
                  <=? 18446744073709551616 - 1) with false
        by (symmetry; apply Z.leb_gt; lia). }
    rewrite (Z.mod_small (a * 10)) by lia.
    destruct (Z_lt_ge_dec (a * 10 + digit_val c) 18446744073709551616) as [Hfit|Hover].
    + rewrite (Z.mod_small (a * 10 + digit_val c)) by lia.
      replace (a * 10 + digit_val c <? a * 10) with false by (symmetry; apply Z.ltb_ge; lia).
      replace (18446744073709551616 - 1 <? a * 10 + digit_val c) with false
        by (symmetry; apply Z.ltb_ge; lia).
      cbn [orb]. apply IH; [exact Hds | lia].
    + replace ((a * 10 + digit_val c) mod 18446744073709551616)
        with (a * 10 + digit_val c - 18446744073709551616)
        by (apply Z.mod_unique with 1; lia).
      replace (a * 10 + digit_val c - 18446744073709551616 <? a * 10) with true
        by (symmetry; apply Z.ltb_lt; lia).
      cbn [orb].
      by replace (strconv.decimal_from (a * 10 + digit_val c) ds
                  <=? 18446744073709551616 - 1) with false
        by (symmetry; apply Z.leb_gt; lia).
Qed.

Lemma ParseInt_digits ds :
  all_digits ds = true → ds ≠ EmptyString →
  strconv.ParseInt ds 0
  = if strconv.decimal ds <? 2 ^ 63 then (strconv.decimal ds, None)
    else (2 ^ 63 - 1, Some strconv.ErrRange).
Proof.
  intros Hds Hne. destruct ds as [|c r]; [done|].
  pose proof Hds as Hds'. cbn [all_digits] in Hds'. apply andb_true_iff in Hds' as [Hc _].
  pose proof (decimal_from_ge (String c r) 0 Hds ltac:(lia)) as Hge.
  fold (strconv.decimal (String c r)) in Hge.
  unfold strconv.ParseInt. cbv zeta. change (0 =? 0) with true. cbv iota.
  rewrite (is_digit_not' c "+"), (is_digit_not' c "-") by (reflexivity || assumption).
  cbn [orb negb andb]. unfold strconv.ParseUint.
  change (strconv.IntSize =? 0) with false. cbv iota. change strconv.IntSize with 64.
  rewrite ParseUint_loop_digits by (assumption || (unfold strconv.maxUint64; lia)).
  fold (strconv.decimal (String c r)). unfold strconv.maxUint64.
  change (2 ^ (64 - 1)) with (2 ^ 63).
  destruct (Z.leb_spec (strconv.decimal (String c r)) (2 ^ 64 - 1)) as [Hfit|Hover].
  - destruct (Z.ltb_spec (strconv.decimal (String c r)) (2 ^ 63)) as [Hlt|Hge63].
    + by replace (2 ^ 63 <=? strconv.decimal (String c r)) with false
        by (symmetry; apply Z.leb_gt; lia).
    + by replace (2 ^ 63 <=? strconv.decimal (String c r)) with true
        by (symmetry; apply Z.leb_le; lia).
  - replace (strconv.decimal (String c r) <? 2 ^ 63) with false
      by (symmetry; apply Z.ltb_ge; lia).
    reflexivity.
Qed.

(** [%d] writes the digits that denote the number. *)
Lemma decimal_from_step d tl a :
  0 <= d < 10 →
  strconv.decimal_from a (String (digit_char d) tl) = strconv.decimal_from (a * 10 + d) tl.
Proof. intros Hd. cbn [strconv.decimal_from]. by rewrite digit_val_char. Qed.

Lemma decimal_from_itoa fuel : ∀ n tl,
  0 <= n → n < 10 * 2 ^ Z.of_nat fuel →
  strconv.decimal_from 0 (strconv.itoa_aux fuel n tl) = strconv.decimal_from n tl.
Proof.
  induction fuel as [|fuel IH]; intros n tl H0 Hf.
  - cbn [strconv.itoa_aux]. change (2 ^ Z.of_nat 0) with 1 in Hf.
    rewrite Z.mod_small by lia. rewrite decimal_from_step by lia. f_equal.
  - cbn [strconv.itoa_aux]. destruct (Z.ltb_spec n 10) as [Hlt|Hge].
    + rewrite decimal_from_step by lia. f_equal.
    + rewrite Nat2Z.inj_succ, Z.pow_succ_r in Hf by lia.
      pose proof (Z.div_mod n 10 ltac:(lia)) as Hdm.
      pose proof (Z.mod_pos_bound n 10 ltac:(lia)) as Hm.
      rewrite IH by lia. rewrite decimal_from_step by lia. f_equal. lia.
Qed.

Lemma decimal_utoa n : 0 <= n → strconv.decimal (strconv.utoa n) = n.
Proof.
  intros H. unfold strconv.decimal, strconv.utoa.
  rewrite decimal_from_itoa; [reflexivity | lia | by apply utoa_fuel].
Qed.

(** ** The pattern [cacheControlAge] *)

Lemma span_digits_app ds post :
  all_digits ds = true → starts_with_digit post = false →
  regexp.span_digits (ds +:+ post) = (ds, post).
Proof.
  intros Hds Hpost. induction ds as [|c ds IH].
  - destruct post as [|c post]; [reflexivity|].
    change (EmptyString +:+ String c post) with (String c post).
    cbn [starts_with_digit] in Hpost. cbn [regexp.span_digits]. by rewrite Hpost.
  - cbn [all_digits] in Hds. apply andb_true_iff in Hds as [Hc Hds].
    change (String c ds +:+ post) with (String c (ds +:+ post)).
    cbn [regexp.span_digits]. by rewrite Hc, IH.
Qed.

Lemma literal_at_not_m c s :
  Ascii.eqb "m" c = false → regexp.literal_at (String c s) = None.
Proof. intros H. unfold regexp.literal_at. cbn [HasPrefix]. by rewrite H. Qed.

Lemma literal_at_max_age ds post :
  all_digits ds = true → ds ≠ EmptyString → starts_with_digit post = false →
  regexp.literal_at ("max-age=" +:+ ds +:+ post)
  = Some ("max-age=" +:+ ds +:+ regexp.line_rest post, ds).
Proof.
  intros Hds Hne Hpost. unfold regexp.literal_at.
  change (HasPrefix ("max-age=" +:+ ds +:+ post) "max-age=") with true.
  change (skip 8 ("max-age=" +:+ ds +:+ post)) with (ds +:+ post).
  rewrite span_digits_app by assumption.
  destruct ds; [done | reflexivity].
Qed.

Lemma occurs_digits ds post :
  all_digits ds = true → regexp.occurs (ds +:+ post) = regexp.occurs post.
Proof.
  intros Hds. induction ds as [|c ds IH]; [reflexivity|].
  cbn [all_digits] in Hds. apply andb_true_iff in Hds as [Hc Hds].
  change (String c ds +:+ post) with (String c (ds +:+ post)).
  cbn [regexp.occurs]. rewrite literal_at_not_m by (by apply is_digit_not).
  by apply IH.
Qed.

Lemma occurs_cons c s :
  regexp.occurs (String c s) = false →
  regexp.literal_at (String c s) = None ∧ regexp.occurs s = false.
Proof. cbn [regexp.occurs]. destruct (regexp.literal_at (String c s)); [done | auto]. Qed.

(** Where the pattern occurs nowhere, it matches nowhere. *)
Lemma match_at_None s : regexp.occurs s = false → regexp.match_at s = None.
Proof.
  induction s as [|c s IH]; intros H.
  - reflexivity.
  - apply occurs_cons in H as [Hl Ho]. cbn [regexp.match_at].
    rewrite IH, Hl by assumption. by destruct (Ascii.eqb c newline).
Qed.

Lemma find_None s : regexp.occurs s = false → regexp.find s = None.
Proof.
  induction s as [|c s IH]; intros H.
  - reflexivity.
  - cbn [regexp.find]. rewrite match_at_None by assumption.
    apply occurs_cons in H as [_ Ho]. by apply IH.
Qed.

(** The leading [.*] swallows whatever precedes a match on the line. *)
Lemma match_at_prefix pre x w g :
  contains_byte newline pre = false → regexp.match_at x = Some (w, g) →
  regexp.match_at (pre +:+ x) = Some (pre +:+ w, g).
Proof.
  intros Hpre Hx. induction pre as [|c pre IH]; [exact Hx|].
  cbn [contains_byte] in Hpre. apply orb_false_iff in Hpre as [Hc Hpre].
  change (String c pre +:+ x) with (String c (pre +:+ x)).
  cbn [regexp.match_at]. rewrite Hc, IH by assumption. reflexivity.
Qed.

(** The last [max-age=<digits>] of the line is the one captured. *)
Lemma match_at_max_age ds post :
  all_digits ds = true → ds ≠ EmptyString → starts_with_digit post = false →
  regexp.occurs post = false →
  regexp.match_at ("max-age=" +:+ ds +:+ post)
  = Some ("max-age=" +:+ ds +:+ regexp.line_rest post, ds).
Proof.
  intros Hds Hne Hpost Hocc.
  assert (regexp.match_at ("ax-age=" +:+ ds +:+ post) = None) as Htail.
  { apply match_at_None.
    do 7 (match goal with
          | |- regexp.occurs (String ?c ?r +:+ ?t) = false =>
              change (String c r +:+ t) with (String c (r +:+ t));
              cbn [regexp.occurs]; rewrite literal_at_not_m by reflexivity
          end).
    change (EmptyString +:+ ds +:+ post) with (ds +:+ post).
    by rewrite occurs_digits. }
  change ("max-age=" +:+ ds +:+ post) with (String "m" ("ax-age=" +:+ ds +:+ post)).
  cbn [regexp.match_at]. change (Ascii.eqb "m" newline) with false. cbv iota.
  rewrite Htail.
  change (String "m" ("ax-age=" +:+ ds +:+ post)) with ("max-age=" +:+ ds +:+ post).
  by apply literal_at_max_age.
Qed.

Lemma FindStringSubmatch_max_age pre ds post :
  contains_byte newline pre = false →
  all_digits ds = true → ds ≠ EmptyString → starts_with_digit post = false →
  regexp.occurs post = false →
  regexp.FindStringSubmatch (pre +:+ "max-age=" +:+ ds +:+ post)
  = [pre +:+ "max-age=" +:+ ds +:+ regexp.line_rest post; ds].
Proof.
  intros Hpre Hds Hne Hpost Hocc. unfold regexp.FindStringSubmatch.
  pose proof (match_at_prefix pre _ _ _ Hpre (match_at_max_age ds post Hds Hne Hpost Hocc))
    as Hm.
  destruct (pre +:+ "max-age=" +:+ ds +:+ post) as [|c r] eqn:Heq;
    cbn [regexp.find]; rewrite Hm; reflexivity.
Qed.

(** ** [max-age] extraction (lines 429-438 and 491-500) *)

Lemma Itoa_nonneg n : 0 <= n → strconv.Itoa n = strconv.utoa n.
Proof.
  intros H. unfold strconv.Itoa.
  by replace (n <? 0) with false by (symmetry; apply Z.ltb_ge; lia).
Qed.

Lemma utoa_digits n : 0 <= n → all_digits (strconv.utoa n) = true.
Proof. intros H. by apply itoa_aux_digits. Qed.

Lemma utoa_nonempty n : strconv.utoa n ≠ EmptyString.
Proof.
  unfold strconv.utoa.
  destruct (itoa_aux_nonempty (Z.to_nat (Z.log2 n)) n EmptyString) as (c & r & ->). done.
Qed.

(** The shared body of the two extractions, as a function of the header
    value. *)
Lemma notify_maxAge_unfold req :
  notify_maxAge req =
  let cc := http.Get (http.ReqHeader req) "CACHE-CONTROL" in
  if String.eqb cc EmptyString then -1
  else match regexp.FindStringSubmatch cc with
       | [_; g] => match strconv.ParseInt g 0 with
                   | (v, None) => v
                   | (_, Some _) => -1
                   end
       | _ => -1
       end.
Proof.
  unfold notify_maxAge. cbv zeta.
  destruct (String.eqb _ EmptyString); [reflexivity|].
  destruct (regexp.FindStringSubmatch _) as [|w [|g [|x l]]]; reflexivity.
Qed.

Lemma parseResponse_maxAge_unfold resp :
  parseResponse_maxAge resp =
  let cc := http.Get (http.RespHeader resp) "CACHE-CONTROL" in
  if String.eqb cc EmptyString then -1
  else match regexp.FindStringSubmatch cc with
       | [_; g] => match strconv.ParseInt g 0 with
                   | (v, None) => v
                   | (_, Some _) => -1
                   end
       | _ => -1
       end.
Proof.
  unfold parseResponse_maxAge. cbv zeta.
  destruct (String.eqb _ EmptyString); [reflexivity|].
  destruct (regexp.FindStringSubmatch _) as [|w [|g [|x l]]]; reflexivity.
Qed.

Lemma maxAge_body_roundtrip pre post n :
  0 <= n < 2 ^ 63 →
  contains_byte newline pre = false →
  starts_with_digit post = false →
  regexp.occurs post = false →
  let cc := pre +:+ "max-age=" +:+ strconv.Itoa n +:+ post in
  (if String.eqb cc EmptyString then -1
   else match regexp.FindStringSubmatch cc with
        | [_; g] => match strconv.ParseInt g 0 with
                    | (v, None) => v
                    | (_, Some _) => -1
                    end
        | _ => -1
        end) = n.
Proof.
  intros Hn Hpre Hpost Hocc. cbv zeta.
  rewrite Itoa_nonneg by lia.
  change (pre +:+ "max-age=" +:+ strconv.utoa n +:+ post)
    with (pre +:+ String "m" ("ax-age=" +:+ strconv.utoa n +:+ post)) at 1.
  rewrite eqb_append_nonempty.
  rewrite FindStringSubmatch_max_age
    by (assumption || (apply utoa_digits; lia) || apply utoa_nonempty).
  by rewrite ParseInt_utoa.
Qed.

Lemma maxAge_body_absent cc :
  cc = EmptyString ∨ regexp.occurs cc = false →
  (if String.eqb cc EmptyString then -1
   else match regexp.FindStringSubmatch cc with
        | [_; g] => match strconv.ParseInt g 0 with
                    | (v, None) => v
                    | (_, Some _) => -1
                    end
        | _ => -1
        end) = -1.
Proof.
  intros [->|H]; [reflexivity|].
  destruct (String.eqb cc EmptyString); [reflexivity|].
  unfold regexp.FindStringSubmatch. by rewrite find_None.
Qed.

(** A value of one line in which the pattern occurs is made of a prefix,
    the last [max-age=] with the digits that follow it, and a rest in
    which the pattern occurs no more. *)
Lemma HasPrefix_skip p : ∀ s,
  HasPrefix s p = true → s = p +:+ skip (String.length p) s.
Proof.
  induction p as [|a p IH]; intros s H; [reflexivity|].
  destruct s as [|b s]; [discriminate|].
  cbn [HasPrefix] in H. apply andb_true_iff in H as [Hab Hp].
  apply Ascii.eqb_eq in Hab as ->. cbn [String.length skip].
  change (String b p +:+ skip (String.length p) s)
    with (String b (p +:+ skip (String.length p) s)).
  by rewrite <- IH.
Qed.

Lemma span_digits_spec s : ∀ ds rest,
  regexp.span_digits s = (ds, rest) →
  s = ds +:+ rest ∧ all_digits ds = true ∧ starts_with_digit rest = false.
Proof.
  induction s as [|c s IH]; intros ds rest; cbn [regexp.span_digits].
  - by intros [= <- <-].
  - destruct (is_digit c) eqn:Hc.
    + destruct (regexp.span_digits s) as [ds' rest'] eqn:Hs. intros [= <- <-].
      destruct (IH _ _ eq_refl) as (-> & Hd & Hr).
      split; [reflexivity|]. split; [cbn [all_digits]; by rewrite Hc, Hd | exact Hr].
    + intros [= <- <-]. split; [reflexivity|]. split; [reflexivity | exact Hc].
Qed.

Lemma occurs_suffix a : ∀ b, regexp.occurs (a +:+ b) = false → regexp.occurs b = false.
Proof.
  induction a as [|x a IH]; intros b H; [exact H|].
  change (String x a +:+ b) with (String x (a +:+ b)) in H.
  apply occurs_cons in H as [_ H]. by apply IH.
Qed.

Lemma occurs_decompose cc :
  contains_byte newline cc = false → regexp.occurs cc = true →
  ∃ pre ds post,
    cc = pre +:+ "max-age=" +:+ ds +:+ post ∧
    contains_byte newline pre = false ∧
    all_digits ds = true ∧ ds ≠ EmptyString ∧
    starts_with_digit post = false ∧ regexp.occurs post = false.
Proof.
  induction cc as [|c cc IH]; intros Hnl Hocc; [discriminate|].
  cbn [contains_byte] in Hnl. apply orb_false_iff in Hnl as [Hc Hnl].
  destruct (regexp.occurs cc) eqn:Htail.
  - destruct (IH Hnl eq_refl) as (pre & ds & post & -> & Hpre & Hds & Hne & Hpost & Hop).
    exists (String c pre), ds, post. split; [reflexivity|].
    split; [cbn [contains_byte]; by rewrite Hc, Hpre|]. done.
  - cbn [regexp.occurs] in Hocc. rewrite Htail in Hocc.
    destruct (regexp.literal_at (String c cc)) as [r|] eqn:Hlit; [|discriminate].
    unfold regexp.literal_at in Hlit.
    destruct (HasPrefix (String c cc) "max-age=") eqn:Hp; [|discriminate].
    apply HasPrefix_skip in Hp. change (String.length "max-age=") with 8%nat in Hp.
    remember (skip 8 (String c cc)) as tl eqn:Htl.
    destruct (regexp.span_digits tl) as [ds rest] eqn:Hspan.
    destruct (span_digits_spec _ _ _ Hspan) as (Hs & Hds & Hrest).
    assert (ds ≠ EmptyString) as Hne by (intros ->; discriminate Hlit).
    exists EmptyString, ds, rest. split; [by rewrite Hp, Hs|].
    split; [reflexivity|]. split; [exact Hds|]. split; [exact Hne|].
    split; [exact Hrest|].
    change ("max-age=" +:+ tl) with (String "m" ("ax-age=" +:+ tl)) in Hp.
    injection Hp as _ Hcc. rewrite Hcc, Hs in Htail.
    by apply occurs_suffix, occurs_suffix in Htail.
Qed.

(** The extraction on a value that carries [max-age=] followed by any
    digits: the number they denote when that is an [int], and [-1] when
    [ParseInt] reports its range error. *)
Lemma maxAge_body_digits pre post ds :
  contains_byte newline pre = false →
  all_digits ds = true → ds ≠ EmptyString →
  starts_with_digit post = false →
  regexp.occurs post = false →
  let cc := pre +:+ "max-age=" +:+ ds +:+ post in
  (if String.eqb cc EmptyString then -1
   else match regexp.FindStringSubmatch cc with
        | [_; g] => match strconv.ParseInt g 0 with
                    | (v, None) => v
                    | (_, Some _) => -1
                    end
        | _ => -1
        end) = (if strconv.decimal ds <? 2 ^ 63 then strconv.decimal ds else -1).
Proof.
  intros Hpre Hds Hne Hpost Hocc. cbv zeta.
  change (pre +:+ "max-age=" +:+ ds +:+ post)
    with (pre +:+ String "m" ("ax-age=" +:+ ds +:+ post)) at 1.
  rewrite eqb_append_nonempty.
  rewrite FindStringSubmatch_max_age by assumption.
  rewrite ParseInt_digits by assumption.
  by destruct (strconv.decimal ds <? 2 ^ 63).
Qed.

(** C4, as amended.  For every integer [n] with [0 <= n < 2^63] (the
    values of a Go [int] that are not negative), a [Cache-Control] value
    that carries [max-age=<n>], possibly after other text of the same
    line and before text that neither starts with a digit nor carries a
    further [max-age=<digits>], yields [MaxAge = n]; an absent header, or a
    value in which [max-age=<digits>] occurs nowhere, yields [MaxAge = -1];
    and so does a value of that form whose digits do not parse as an
    [int]: whatever digits follow [max-age=], leading zeros included,
    [MaxAge] is the number they denote if that is below [2^63] and [-1]
    otherwise, which is the case of [max-age=<m>] for every [m >= 2^63].
    These cases leave no value of one line out: either [max-age=<digits>]
    occurs nowhere in it, or it is of the form above, the digits being
    those that follow its last [max-age=].  The alive-event
    parser and the response parser agree on all of it. *)
Theorem maxAge_roundtrip (pre post : string) (n : Z) :
  0 <= n < 2 ^ 63 →
  contains_byte newline pre = false →
  starts_with_digit post = false →
  regexp.occurs post = false →
  let cc := pre +:+ "max-age=" +:+ strconv.Itoa n +:+ post in
  (∀ req, http.Get (http.ReqHeader req) "CACHE-CONTROL" = cc → notify_maxAge req = n) ∧
  (∀ resp, http.Get (http.RespHeader resp) "CACHE-CONTROL" = cc →
           parseResponse_maxAge resp = n) ∧
  (∀ req, http.Get (http.ReqHeader req) "CACHE-CONTROL" = EmptyString ∨
          regexp.occurs (http.Get (http.ReqHeader req) "CACHE-CONTROL") = false →
          notify_maxAge req = -1) ∧
  (∀ resp, http.Get (http.RespHeader resp) "CACHE-CONTROL" = EmptyString ∨
           regexp.occurs (http.Get (http.RespHeader resp) "CACHE-CONTROL") = false →
           parseResponse_maxAge resp = -1) ∧
  (∀ req resp, http.ReqHeader req = http.RespHeader resp →
               notify_maxAge req = parseResponse_maxAge resp) ∧
  (∀ ds, all_digits ds = true → ds ≠ EmptyString →
         let v := if strconv.decimal ds <? 2 ^ 63 then strconv.decimal ds else -1 in
         (∀ req, http.Get (http.ReqHeader req) "CACHE-CONTROL"
                 = pre +:+ "max-age=" +:+ ds +:+ post →
                 notify_maxAge req = v) ∧
         (∀ resp, http.Get (http.RespHeader resp) "CACHE-CONTROL"
                  = pre +:+ "max-age=" +:+ ds +:+ post →
                  parseResponse_maxAge resp = v)) ∧
  (∀ m, 2 ^ 63 <= m →
        all_digits (strconv.Itoa m) = true ∧
        strconv.decimal (strconv.Itoa m) = m ∧
        (∀ req, http.Get (http.ReqHeader req) "CACHE-CONTROL"
                = pre +:+ "max-age=" +:+ strconv.Itoa m +:+ post →
                notify_maxAge req = -1) ∧
        (∀ resp, http.Get (http.RespHeader resp) "CACHE-CONTROL"
                 = pre +:+ "max-age=" +:+ strconv.Itoa m +:+ post →
                 parseResponse_maxAge resp = -1)) ∧
  (∀ value, contains_byte newline value = false → regexp.occurs value = true →
            ∃ pre' ds post',
              value = pre' +:+ "max-age=" +:+ ds +:+ post' ∧
              all_digits ds = true ∧ ds ≠ EmptyString ∧
              starts_with_digit post' = false ∧ regexp.occurs post' = false ∧
              (∀ req, http.Get (http.ReqHeader req) "CACHE-CONTROL" = value →
                      notify_maxAge req
                      = if strconv.decimal ds <? 2 ^ 63 then strconv.decimal ds else -1) ∧
              (∀ resp, http.Get (http.RespHeader resp) "CACHE-CONTROL" = value →
                       parseResponse_maxAge resp
                       = if strconv.decimal ds <? 2 ^ 63 then strconv.decimal ds else -1)).
Proof.
  intros Hn Hpre Hpost Hocc cc.
  assert (∀ ds, all_digits ds = true → ds ≠ EmptyString →
            (∀ req, http.Get (http.ReqHeader req) "CACHE-CONTROL"
                    = pre +:+ "max-age=" +:+ ds +:+ post →
                    notify_maxAge req
                    = if strconv.decimal ds <? 2 ^ 63 then strconv.decimal ds else -1) ∧
            (∀ resp, http.Get (http.RespHeader resp) "CACHE-CONTROL"
                     = pre +:+ "max-age=" +:+ ds +:+ post →
                     parseResponse_maxAge resp
                     = if strconv.decimal ds <? 2 ^ 63 then strconv.decimal ds else -1))
    as Hdigits.
  { intros ds Hds Hne. split.
    - intros req Hcc. rewrite notify_maxAge_unfold. cbv zeta. rewrite Hcc.
      by apply maxAge_body_digits.
    - intros resp Hcc. rewrite parseResponse_maxAge_unfold. cbv zeta. rewrite Hcc.
      by apply maxAge_body_digits. }
  split.
  { intros req Hcc. rewrite notify_maxAge_unfold. cbv zeta. rewrite Hcc.
    by apply maxAge_body_roundtrip. }
  split.
  { intros resp Hcc. rewrite parseResponse_maxAge_unfold. cbv zeta. rewrite Hcc.
    by apply maxAge_body_roundtrip. }
  split.
  { intros req H. rewrite notify_maxAge_unfold. by apply maxAge_body_absent. }
  split.
  { intros resp H. rewrite parseResponse_maxAge_unfold. by apply maxAge_body_absent. }
  split.
  { intros req resp H. rewrite notify_maxAge_unfold, parseResponse_maxAge_unfold.
    by rewrite H. }
  split; [exact Hdigits|].
  split.
  { intros m Hm. rewrite Itoa_nonneg by lia.
    assert (all_digits (strconv.utoa m) = true) as Hds by (apply utoa_digits; lia).
    assert (strconv.decimal (strconv.utoa m) = m) as Hdec by (apply decimal_utoa; lia).
    split; [exact Hds|]. split; [exact Hdec|].
    destruct (Hdigits (strconv.utoa m) Hds (utoa_nonempty m)) as [Hreq Hresp].
    rewrite Hdec in Hreq, Hresp.
    replace (m <? 2 ^ 63) with false in Hreq, Hresp by (symmetry; apply Z.ltb_ge; lia).
    by split. }
  intros value Hnl Hoccurs.
  destruct (occurs_decompose value Hnl Hoccurs)
    as (pre' & ds & post' & -> & Hpre' & Hds & Hne & Hpost' & Hocc').
  exists pre', ds, post'. split; [reflexivity|]. split; [exact Hds|]. split; [exact Hne|].
  split; [exact Hpost'|]. split; [exact Hocc'|].
  split.
  - intros req Hcc. rewrite notify_maxAge_unfold. cbv zeta. rewrite Hcc.
    by apply maxAge_body_digits.
  - intros resp Hcc. rewrite parseResponse_maxAge_unfold. cbv zeta. rewrite Hcc.
    by apply maxAge_body_digits.
Qed.

(** [max-age=1800] after another directive is read back as [1800] by
    both parsers; twenty nines are too many for an [int] and give [-1];
    [007] gives [7]. *)
Lemma maxAge_roundtrip_witness :
  0 <= 1800 < 2 ^ 63 ∧
  contains_byte newline "public, " = false ∧
  starts_with_digit EmptyString = false ∧
  regexp.occurs EmptyString = false ∧
  notify_maxAge (cache_control_request "public, max-age=1800") = 1800 ∧
  parseResponse_maxAge (cache_control_response "public, max-age=1800") = 1800 ∧
  notify_maxAge (cache_control_request "public, max-age=99999999999999999999") = -1 ∧
  parseResponse_maxAge (cache_control_response "public, max-age=007") = 7.
Proof.
  assert (0 <= 1800 < 2 ^ 63) as Hn by lia.
  split; [exact Hn|]. split; [reflexivity|]. split; [reflexivity|]. split; [reflexivity|].
  destruct (maxAge_roundtrip "public, " EmptyString 1800 Hn eq_refl eq_refl eq_refl)
    as (Hreq & Hresp & _ & _ & _ & Hds & _ & _).
  split; [by apply Hreq|]. split; [by apply Hresp|]. split.
  - exact (proj1 (Hds "99999999999999999999" eq_refl ltac:(discriminate))
             (cache_control_request "public, max-age=99999999999999999999") eq_refl).
  - exact (proj2 (Hds "007" eq_refl ltac:(discriminate))
             (cache_control_response "public, max-age=007") eq_refl).
Defined.

(** C4 as stated fails: [n = 2^63] is an integer that is not negative, yet
    the header [max-age=9223372036854775808] yields [-1]; and a header that
    contains [max-age=5] before [max-age=7] yields [7]. *)
Lemma maxAge_roundtrip_counterexample :
  0 <= 2 ^ 63 ∧
  notify_maxAge (cache_control_request ("max-age=" +:+ strconv.Itoa (2 ^ 63))) ≠ 2 ^ 63 ∧
  notify_maxAge (cache_control_request ("max-age=" +:+ strconv.Itoa (2 ^ 63))) = -1 ∧
  parseResponse_maxAge (cache_control_response ("max-age=" +:+ strconv.Itoa (2 ^ 63))) = -1 ∧
  notify_maxAge (cache_control_request "max-age=5, max-age=7") ≠ 5.
Proof. vm_compute. repeat split; congruence. Qed.

(** ** Device id extraction (lines 415-423 and 501-510) *)

Lemma Split_nonempty s sep : Split s sep ≠ [].
Proof.
  destruct s as [|c s]; cbn [Split]; [done|].
  destruct (Ascii.eqb c sep); [done|]. by destruct (Split s sep).
Qed.

(** Joining the pieces with the separator gives the string back. *)
Lemma Join_Split s sep : Join (Split s sep) sep = s.
Proof.
  induction s as [|c s IH]; [reflexivity|].
  cbn [Split]. destruct (Ascii.eqb_spec c sep) as [->|Hc].
  - pose proof (Split_nonempty s sep).
    destruct (Split s sep) as [|p ps] eqn:Hs; [done|].
    change (Join (EmptyString :: p :: ps) sep) with (String sep (Join (p :: ps) sep)).
    by rewrite IH.
  - pose proof (Split_nonempty s sep).
    destruct (Split s sep) as [|p ps] eqn:Hs; [done|].
    destruct ps as [|q ps].
    + cbn [Join] in *. by rewrite IH.
    + change (Join (String c p :: q :: ps) sep)
        with (String c (p +:+ String sep (Join (q :: ps) sep))).
      change (Join (p :: q :: ps) sep) with (p +:+ String sep (Join (q :: ps) sep)) in IH.
      by rewrite IH.
Qed.

(** No piece contains the separator. *)
Lemma Split_pieces s sep p : p ∈ Split s sep → contains_byte sep p = false.
Proof.
  revert p. induction s as [|c s IH]; intros p Hp.
  - cbn [Split] in Hp. apply list_elem_of_singleton in Hp as ->. reflexivity.
  - cbn [Split] in Hp. destruct (Ascii.eqb c sep) eqn:Hc.
    + apply elem_of_cons in Hp as [->|Hp]; [reflexivity | by apply IH].
    + pose proof (Split_nonempty s sep).
      destruct (Split s sep) as [|q qs] eqn:Hs; [done|].
      apply elem_of_cons in Hp as [->|Hp].
      * cbn [contains_byte]. rewrite Hc. apply IH. by left.
      * apply IH. by right.
Qed.

(** A piece free of the separator, then the separator: the piece comes
    out first. *)
Lemma Split_app a b sep :
  contains_byte sep a = false →
  Split (a +:+ String sep b) sep = a :: Split b sep.
Proof.
  intros Ha. induction a as [|c a IH].
  - change (EmptyString +:+ String sep b) with (String sep b).
    cbn [Split]. by rewrite Ascii.eqb_refl.
  - cbn [contains_byte] in Ha. apply orb_false_iff in Ha as [Hc Ha].
    change (String c a +:+ String sep b) with (String c (a +:+ String sep b)).
    cbn [Split]. rewrite Hc, IH by assumption. reflexivity.
Qed.

Lemma Split_whole a sep : contains_byte sep a = false → Split a sep = [a].
Proof.
  intros Ha. induction a as [|c a IH]; [reflexivity|].
  cbn [contains_byte] in Ha. apply orb_false_iff in Ha as [Hc Ha].
  cbn [Split]. rewrite Hc, IH by assumption. reflexivity.
Qed.

Lemma len_pos_iff s : (0 <? len s) = negb (String.eqb s EmptyString).
Proof. destruct s; [reflexivity|]. rewrite len_String. pose proof (len_nonneg s).
  cbn [String.eqb negb]. apply Z.ltb_lt. lia. Qed.

(** The device id in terms of the pieces of the USN. *)
Lemma notify_deviceId_parts usn :
  notify_deviceId usn =
  match Split usn colon with
  | p0 :: p1 :: _ :: _ => if String.eqb p0 "uuid" then p1 else EmptyString
  | _ => EmptyString
  end.
Proof.
  unfold notify_deviceId. destruct usn as [|c usn]; [reflexivity|].
  rewrite len_pos_iff. cbn [String.eqb negb]. cbv zeta.
  destruct (Split (String c usn) colon) as [|p0 [|p1 [|p2 ps]]]; reflexivity.
Qed.

Lemma parseResponse_deviceId_eq usn : parseResponse_deviceId usn = notify_deviceId usn.
Proof. reflexivity. Qed.

Lemma HasPrefix_app p s : HasPrefix (p +:+ s) p = true.
Proof.
  induction p as [|c p IH]; [reflexivity|].
  change (String c p +:+ s) with (String c (p +:+ s)).
  cbn [HasPrefix]. by rewrite Ascii.eqb_refl, IH.
Qed.

(** C5.  The device id is the second of the colon-separated parts of the
    USN when there are at least three parts and the first is [uuid], and
    the empty string otherwise (fewer than three parts, another first
    part, an empty USN, a USN that does not begin with [uuid:]); the parts
    are those of [strings.Split]: joined by colons they give back the USN
    and none contains a colon.  So [uuid:X::Y] yields [X] and the two-part
    [uuid:X] yields the empty string, [X] being a part, that is, free of
    colons.  The response parser extracts the same id. *)
Theorem deviceId_extraction (usn X Y : string) :
  contains_byte colon X = false →
  let parts := Split usn colon in
  Join parts colon = usn ∧
  (∀ p, p ∈ parts → contains_byte colon p = false) ∧
  notify_deviceId usn =
    (if bool_decide (3 ≤ length parts)%nat && String.eqb (default EmptyString (parts !! 0%nat)) "uuid"
     then default EmptyString (parts !! 1%nat) else EmptyString) ∧
  (HasPrefix usn "uuid:" = false → notify_deviceId usn = EmptyString) ∧
  notify_deviceId EmptyString = EmptyString ∧
  notify_deviceId ("uuid:" +:+ X +:+ "::" +:+ Y) = X ∧
  notify_deviceId ("uuid:" +:+ X) = EmptyString ∧
  parseResponse_deviceId usn = notify_deviceId usn.
Proof.
  intros HX parts. subst parts. split; [apply Join_Split|].
  split; [intros p; apply Split_pieces|].
  split.
  { rewrite notify_deviceId_parts.
    destruct (Split usn colon) as [|p0 [|p1 [|p2 ps]]]; reflexivity. }
  split.
  { intros Hpre. rewrite notify_deviceId_parts.
    pose proof (Join_Split usn colon) as Hj.
    destruct (Split usn colon) as [|p0 [|p1 [|p2 ps]]]; try reflexivity.
    destruct (String.eqb_spec p0 "uuid") as [->|]; [|reflexivity].
    exfalso. rewrite <- Hj in Hpre.
    change (Join ("uuid" :: p1 :: p2 :: ps) colon)
      with ("uuid:" +:+ Join (p1 :: p2 :: ps) colon) in Hpre.
    by rewrite HasPrefix_app in Hpre. }
  split; [reflexivity|].
  split.
  { rewrite notify_deviceId_parts.
    change ("uuid:" +:+ X +:+ "::" +:+ Y) with ("uuid" +:+ String colon (X +:+ "::" +:+ Y)).
    rewrite Split_app by reflexivity.
    change (X +:+ "::" +:+ Y) with (X +:+ String colon (String colon Y)).
    rewrite Split_app by assumption.
    cbn [Split]. rewrite Ascii.eqb_refl.
    pose proof (Split_nonempty Y colon). by destruct (Split Y colon). }
  split; [|reflexivity].
  rewrite notify_deviceId_parts.
  change ("uuid:" +:+ X) with ("uuid" +:+ String colon X).
  rewrite Split_app by reflexivity. by rewrite Split_whole.
Qed.

(** The USN of the first scenario yields the device id [u1]. *)
Lemma deviceId_extraction_witness :
  contains_byte colon "u1" = false ∧
  notify_deviceId "uuid:u1::urn:test:svc:1" = "u1" ∧
  notify_deviceId "uuid:u1" = EmptyString ∧
  parseResponse_deviceId "uuid:u1::urn:test:svc:1" = "u1".
Proof.
  split; [reflexivity|].
  destruct (deviceId_extraction "uuid:u1::urn:test:svc:1" "u1" "urn:test:svc:1" eq_refl)
    as (_ & _ & _ & _ & _ & H1 & H2 & H3).
  split; [exact H1|]. split; [exact H2|]. rewrite H3. exact H1.
Defined.

(** ** The search target and the delay of [inMSearch] (lines 527-540) *)

(** A search target that does not start with a quote, or does not end
    with one, is used as it is. *)
Lemma inMSearch_st_unquoted c st :
  c ≠ quote ∨ last_byte c st ≠ quote → inMSearch_st (String c st) = Some (String c st).
Proof.
  intros H. unfold inMSearch_st. rewrite index_0. cbn [mbind option_bind].
  destruct (Ascii.eqb_spec c quote) as [Hc|Hc]; [|reflexivity].
  rewrite index_last. cbn [mbind option_bind].
  destruct (Ascii.eqb_spec (last_byte c st) quote) as [Hl|Hl]; [|reflexivity].
  by destruct H.
Qed.

(** C3, on the code.  For the search target ["ssdp:all"] written between
    double quotes, [inMSearch] matches against [ssdp:al]: the slice
    [st[1:len(st)-2]] removes the first byte and the last two, not the
    first and the last.  An engine that advertises a service therefore
    sends no response to that search. *)
Theorem inMSearch_st_quoted_ssdp_all :
  inMSearch_st (quoted "ssdp:all") = Some "ssdp:al" ∧
  inMSearch_st (quoted "ssdp:all") ≠ Some "ssdp:all" ∧
  (snd <$> msearch (E := env0) (msearch_request (quoted "ssdp:all") "0") "192.168.1.7:50000"
             (AdvertiseServer ad1 (NewSsdp false)))
  = Some (AdvertiseServer ad1 (NewSsdp false)).
Proof. split; [reflexivity|]. split; [discriminate|]. vm_compute. reflexivity. Qed.

(** C10, as amended.  The unquoting step is not total: on the one-byte
    target made of a double quote both quote tests read that byte and the
    slice [st[1:len(st)-2]] has the upper bound [-1]; on the two-byte
    target made of two double quotes the upper bound is [0], below the
    lower bound [1].  Either slice is out of range, so [inMSearch] panics
    and so does the handling of an M-SEARCH datagram that carries such a
    target; no other non-empty search target makes the step panic. *)
Theorem inMSearch_st_partial :
  index one_quote 0 = Some quote ∧
  index one_quote (len one_quote - 1) = Some quote ∧
  len one_quote - 2 = -1 ∧
  slice one_quote 1 (len one_quote - 2) = None ∧
  len two_quotes - 2 = 0 ∧
  slice two_quotes 1 (len two_quotes - 2) = None ∧
  (∀ req sendTo s,
     inMSearch (E := env0) one_quote req sendTo s = None ∧
     inMSearch (E := env0) two_quotes req sendTo s = None) ∧
  (∀ s,
     parseCommand (E := env0) (msearch_request one_quote "0") "192.168.1.7:50000" s = None ∧
     parseCommand (E := env0) (msearch_request two_quotes "0") "192.168.1.7:50000" s = None) ∧
  (∀ c st, inMSearch_st (String c st) = None ↔
           String c st = one_quote ∨ String c st = two_quotes).
Proof.
  repeat split; try reflexivity.
  - intros H. by apply inMSearch_st_None.
  - intros H. by apply inMSearch_st_None.
Qed.

(** C10 as stated fails in its last clause: for the two-byte target the
    upper bound of the slice is [0], which is not negative. *)
Lemma inMSearch_st_two_quotes_bound :
  len two_quotes - 2 = 0 ∧ ¬ (len two_quotes - 2 < 0).
Proof. split; [reflexivity | vm_compute; discriminate]. Qed.

(** A parsable [MX] is thrown away: the test on [err] is the wrong way
    round. *)
Lemma inMSearch_mx_parsed req n :
  strconv.ParseInt (http.Get (http.ReqHeader req) "MX") 0 = (n, None) →
  inMSearch_mx req = 0.
Proof.
  intros H. unfold inMSearch_mx. cbv zeta.
  destruct (String.eqb _ EmptyString); [reflexivity|]. by rewrite H.
Qed.

(** Whatever the [MX] header, the pause of [inMSearch] has length zero:
    the values [ParseInt] returns with an error are [0] and the two ends
    of the [int] range, and a whole number of seconds made of either end
    wraps around to a duration that is not positive. *)
Lemma inMSearch_never_sleeps req :
  Sleep_time (wrap64 (inMSearch_mx req * Second)) = 0.
Proof.
  unfold inMSearch_mx. cbv zeta.
  destruct (String.eqb _ EmptyString); [reflexivity|].
  destruct (strconv.ParseInt _ 0) as [v [e|]] eqn:Hp; [|reflexivity].
  apply ParseInt_error_value in Hp as [->|[->| ->]]; reflexivity.
Qed.

(** C2, on the code.  [MX: 3] parses as the integer [3], yet [inMSearch]
    computes [mx = 0] and sleeps for zero seconds. *)
Theorem inMSearch_mx_3 :
  strconv.ParseInt "3" 0 = (3, None) ∧
  inMSearch_mx (msearch_request "ssdp:all" "3") = 0 ∧
  (fst <$> msearch (E := env0) (msearch_request "ssdp:all" "3") "192.168.1.7:50000"
             (NewSsdp false)) = Some 0.
Proof. split; [reflexivity|]. split; [reflexivity|]. vm_compute. reflexivity. Qed.

(** ** Dispatch to the listener (lines 399-462) *)

(** [notify] never reads [listenSearchTargets]. *)
Lemma notify_filter_unread {E : Env} req m s :
  listener (notify req (set_listenSearchTargets m s)) = listener (notify req s).
Proof.
  unfold notify. cbn [listener set_listenSearchTargets].
  destruct (listener s) as [calls|] eqn:Hl; [|by rewrite ?Hl].
  repeat match goal with |- context [if ?b then _ else _] => destruct b end;
    unfold deliver; cbn [listener set_listenSearchTargets set_listener];
    by rewrite ?Hl.
Qed.

(** Every NOTIFY [ssdp:alive] that names a notification type reaches a
    registered listener as one alive event, in the filter or not. *)
Lemma notify_alive_once {E : Env} req s calls :
  listener s = Some calls →
  http.Get (http.ReqHeader req) "NT" ≠ EmptyString →
  ToLower (http.Get (http.ReqHeader req) "NTS") = "ssdp:alive" →
  listener (notify req s)
  = Some (calls ++
            [NotifyAlive
               (mkAlive (http.Get (http.ReqHeader req) "NT")
                  (notify_deviceId (http.Get (http.ReqHeader req) "USN"))
                  (http.Get (http.ReqHeader req) "USN")
                  (http.Get (http.ReqHeader req) "LOCATION")
                  (notify_maxAge req)
                  (http.Get (http.ReqHeader req) "SERVER") req)])%list.
Proof.
  intros Hl Hnt Hnts. unfold notify. rewrite Hl.
  destruct (String.eqb_spec (http.Get (http.ReqHeader req) "NTS") EmptyString) as [He|_].
  { rewrite He in Hnts. discriminate Hnts. }
  destruct (String.eqb_spec (http.Get (http.ReqHeader req) "NT") EmptyString) as [|_];
    [done|].
  cbv zeta. rewrite Hnts. cbn [String.eqb Ascii.eqb Bool.eqb andb].
  unfold deliver. by rewrite Hl.
Qed.

(** C1, on the code.  After [ListenFor("urn:a")] the listen filter holds
    [urn:a] and not [urn:b]; a NOTIFY [ssdp:alive] with [NT: urn:b] is
    reported to the observer all the same, and so is an [ssdp:byebye]. *)
Theorem notify_ignores_listen_filter :
  listenSearchTargets listening_a !! "urn:a" = Some true ∧
  listenSearchTargets listening_a !! "urn:b" = None ∧
  listener (notify (E := env0) (notify_request "urn:b" "ssdp:alive" "uuid:X::urn:b")
              listening_a)
  = Some [NotifyAlive
            (mkAlive "urn:b" "X" "uuid:X::urn:b" EmptyString 1800 EmptyString
               (notify_request "urn:b" "ssdp:alive" "uuid:X::urn:b"))] ∧
  listener (notify (E := env0) (notify_request "urn:b" "ssdp:byebye" "uuid:X::urn:b")
              listening_a)
  = Some [NotifyBye
            (mkBye "urn:b" "X" "uuid:X::urn:b"
               (notify_request "urn:b" "ssdp:byebye" "uuid:X::urn:b"))].
Proof. repeat split; vm_compute; reflexivity. Qed.

(** ** The engine *)

(** The loop of [createSsdpHeader] writes the header lines one after the
    other. *)
Lemma foldl_header_lines (l : list (string * string)) : ∀ buf,
  foldl (λ buf kv, buf +:+ fst kv +:+ ": " +:+ snd kv +:+ CRLF) buf l
  = buf +:+ header_lines l.
Proof.
  induction l as [|kv l IH]; intros buf.
  - cbn [foldl header_lines]. by rewrite append_nil_r.
  - cbn [foldl header_lines]. rewrite IH. by rewrite !append_assoc.
Qed.

Section Properties.
Context {E : Env}.

Lemma set_writeChannel_id s : set_writeChannel (writeChannel s) s = s.
Proof. by destruct s. Qed.

Lemma set_writeChannel_twice w1 w2 s :
  set_writeChannel w2 (set_writeChannel w1 s) = set_writeChannel w2 s.
Proof. reflexivity. Qed.

Lemma deref_set_writeChannel w s p : deref (set_writeChannel w s) p = deref s p.
Proof. reflexivity. Qed.

Lemma respondToMSearch_resolved ads sendTo addr s :
  ResolveUDPAddr sendTo = Some addr →
  respondToMSearch ads sendTo s = send (msearch_response (deref s ads) addr) s.
Proof. intros H. unfold respondToMSearch. cbv zeta. by rewrite H. Qed.

(** The responses to a bucket: one per entry, in order; nothing but the
    write channel changes. *)
Lemma respond_bucket sendTo addr (v : list ptr) : ∀ s,
  ResolveUDPAddr sendTo = Some addr →
  foldl (λ s d, respondToMSearch d sendTo s) s v
  = set_writeChannel
      (writeChannel s ++ ((λ d, msearch_response (deref s d) addr) <$> v)) s.
Proof.
  induction v as [|d v IH]; intros s Hr.
  - cbn [foldl fmap list_fmap]. by rewrite app_nil_r, set_writeChannel_id.
  - cbn [foldl]. rewrite IH by assumption.
    rewrite (respondToMSearch_resolved _ _ addr) by assumption.
    unfold send. rewrite set_writeChannel_twice.
    cbn [writeChannel set_writeChannel]. rewrite fmap_cons, <- app_assoc. reflexivity.
Qed.

Lemma respond_buckets sendTo addr (l : list (string * list ptr)) : ∀ s,
  ResolveUDPAddr sendTo = Some addr →
  foldl (λ s kv, foldl (λ s d, respondToMSearch d sendTo s) s (snd kv)) s l
  = set_writeChannel
      (writeChannel s ++ ((λ d, msearch_response (deref s d) addr) <$> (l ≫= snd))) s.
Proof.
  induction l as [|kv l IH]; intros s Hr.
  - cbn. by rewrite app_nil_r, set_writeChannel_id.
  - cbn [foldl]. rewrite (respond_bucket _ addr) by assumption.
    rewrite IH by assumption. rewrite set_writeChannel_twice.
    cbn [writeChannel set_writeChannel]. rewrite bind_cons, fmap_app, <- app_assoc.
    reflexivity.
Qed.

(** C6.  Where [range] visits every map entry once ([env_ok]), for a
    search target [st], already unquoted, and a sender whose address
    resolves, [inMSearch] sends exactly one response for each
    advertisement of a list [matched] and changes nothing else: for
    [ssdp:all] the list holds every entry of every bucket, each once, in
    the order [range] visits the buckets; otherwise, if [st] is a key of
    the device-UUID index, it holds that one advertisement; otherwise, if
    [st] is a key of the service-type index, it is that bucket; otherwise
    it is empty. *)
Theorem inMSearch_matching (s : Ssdp) (st sendTo : string) (addr : UDPAddr) :
  env_ok E →
  ResolveUDPAddr sendTo = Some addr →
  ∃ matched : list ptr,
    inMSearch_respond st sendTo s
    = set_writeChannel
        (writeChannel s ++ ((λ d, msearch_response (deref s d) addr) <$> matched)) s ∧
    (st = "ssdp:all" → matched ≡ₚ bucket_entries s) ∧
    (st ≠ "ssdp:all" → ∀ d, deviceIdToServer s !! st = Some d → matched = [d]) ∧
    (st ≠ "ssdp:all" → deviceIdToServer s !! st = None →
       ∀ v, advertisableServers s !! st = Some v → matched = v) ∧
    (st ≠ "ssdp:all" → deviceIdToServer s !! st = None →
       advertisableServers s !! st = None → matched = []).
Proof.
  intros [Hperm _] Hr. unfold inMSearch_respond.
  destruct (String.eqb_spec st "ssdp:all") as [->|Hst].
  - exists (range_map (advertisableServers s) ≫= snd).
    split; [by apply respond_buckets|].
    split; [|by repeat split].
    intros _. unfold bucket_entries, range_map. by rewrite Hperm.
  - destruct (deviceIdToServer s !! st) as [d|] eqn:Hd.
    + exists [d]. split; [by rewrite (respondToMSearch_resolved _ _ addr)|].
      split; [done|]. split; [by intros _ d' [= ->]|]. by repeat split.
    + destruct (advertisableServers s !! st) as [v|] eqn:Hv.
      * exists v. split; [by apply respond_bucket|].
        split; [done|]. split; [done|]. split; [by intros _ _ v' [= ->]|]. done.
      * exists []. split; [cbn; by rewrite app_nil_r, set_writeChannel_id|].
        by repeat split.
Qed.

(** *** [Stop] *)

Lemma stop_list_lookup rs : ∀ ts r,
  stop_list rs ts !! r
  = (if bool_decide (r ∈ rs) then timer_stopped else id) <$> ts !! r.
Proof.
  induction rs as [|r0 rs IH]; intros ts r.
  - cbn. rewrite bool_decide_eq_false_2 by apply not_elem_of_nil.
    by destruct (ts !! r).
  - change (stop_list (r0 :: rs) ts) with (stop_list rs (alter timer_stopped r0 ts)).
    rewrite IH. destruct (decide (r0 = r)) as [->|Hne].
    + rewrite list_lookup_alter_eq.
      rewrite (bool_decide_eq_true_2 (r ∈ r :: rs)) by (by left).
      destruct (ts !! r) as [tm|]; [|reflexivity].
      cbn. by destruct (bool_decide (r ∈ rs)).
    + rewrite list_lookup_alter_ne by assumption.
      destruct (decide (r ∈ rs)) as [Hin|Hin].
      * rewrite !bool_decide_eq_true_2; [reflexivity | by right | assumption].
      * rewrite !bool_decide_eq_false_2; [reflexivity | | assumption].
        intros [?|?]%elem_of_cons; [congruence | contradiction].
Qed.

Lemma stop_list_app rs1 rs2 ts :
  stop_list (rs1 ++ rs2) ts = stop_list rs2 (stop_list rs1 ts).
Proof. apply foldl_app. Qed.

Lemma Timer_Stop_both s a :
  Timer_Stop (last3sTimer a) (Timer_Stop (lastTimer a) s)
  = set_timers (stop_list (ad_timers a) (timers s)) s.
Proof.
  unfold ad_timers, Timer_Stop.
  destruct (lastTimer a), (last3sTimer a); cbn; by destruct s.
Qed.

Lemma advertiseServer_byebye ad mcast s :
  ResolveUDPAddr multicastHostPort = Some mcast →
  advertiseServer ad false s = send (byebye (deref s ad) mcast) s.
Proof. intros H. unfold advertiseServer. cbv zeta. by rewrite H. Qed.

(** [advertiseClosed], entry by entry: the timers of each advertisement
    are stopped and its byebye is sent. *)
Lemma advertiseClosed_fold mcast (l : list (string * ptr)) : ∀ s,
  ResolveUDPAddr multicastHostPort = Some mcast →
  foldl (λ s kv,
           let ad := snd kv in
           let s := Timer_Stop (lastTimer (deref s ad)) s in
           let s := Timer_Stop (last3sTimer (deref s ad)) s in
           advertiseServer ad false s) s l
  = set_writeChannel
      (writeChannel s ++ ((λ kv, byebye (deref s (snd kv)) mcast) <$> l))
      (set_timers (stop_list (l ≫= λ kv, ad_timers (deref s (snd kv))) (timers s)) s).
Proof.
  induction l as [|kv l IH]; intros s Hr.
  - cbn. rewrite app_nil_r. by destruct s.
  - cbn [foldl]. cbv zeta.
    change (Timer_Stop (lastTimer (deref s (snd kv))) s)
      with (Timer_Stop (lastTimer (deref s (snd kv))) s).
    replace (deref (Timer_Stop (lastTimer (deref s (snd kv))) s) (snd kv))
      with (deref s (snd kv)) by (by destruct (lastTimer (deref s (snd kv)))).
    rewrite Timer_Stop_both, (advertiseServer_byebye _ mcast) by assumption.
    rewrite IH by assumption.
    rewrite bind_cons, stop_list_app, fmap_cons.
    unfold send. cbn [writeChannel set_writeChannel set_timers timers deref heap].
    rewrite <- app_assoc. reflexivity.
Qed.

Lemma advertiseClosed_isRunning (l : list (string * ptr)) : ∀ s,
  isRunning
    (foldl (λ s kv,
              let ad := snd kv in
              let s := Timer_Stop (lastTimer (deref s ad)) s in
              let s := Timer_Stop (last3sTimer (deref s ad)) s in
              advertiseServer ad false s) s l)
  = isRunning s.
Proof.
  induction l as [|kv l IH]; intros s; [reflexivity|].
  cbn [foldl]. rewrite IH. cbv zeta. unfold advertiseServer. cbv zeta.
  destruct (ResolveUDPAddr multicastHostPort); unfold Timer_Stop;
    repeat match goal with |- context [match ?x with Some _ => _ | None => _ end] =>
             destruct x end; reflexivity.
Qed.

Lemma Stop_not_running s : isRunning (Stop s) = false.
Proof.
  unfold Stop. cbv zeta. cbn [socket set_isRunning].
  destruct (socket s); [|reflexivity].
  destruct (0 <? size _)%nat; [|reflexivity].
  unfold advertiseClosed. cbn [isRunning set_socket send set_writeChannel].
  by rewrite advertiseClosed_isRunning.
Qed.

(** C8.  Once [Stop] has run the engine is not running; from then on
    [AdvertiseServer] and [RemoveServer] return without touching the
    state, so both indexes and the listen filter stay as they were, and
    [ListenFor] returns the not-running error, again with the state, its
    listen filter and its write channel untouched. *)
Theorem api_after_stop (s : Ssdp) (ads : AdvertisableServer) (deviceUuid target : string) :
  isRunning (Stop s) = false ∧
  AdvertiseServer ads (Stop s) = Stop s ∧
  RemoveServer deviceUuid (Stop s) = Stop s ∧
  ListenFor target (Stop s) = (Some (errors_New "Not running. Can't listen"), Stop s).
Proof.
  pose proof (Stop_not_running s) as H.
  unfold AdvertiseServer, RemoveServer, ListenFor. rewrite H. by repeat split.
Qed.

Lemma deref_lookup s p a : heap s !! p = Some a → deref s p = a.
Proof. intros H. unfold deref. by rewrite H. Qed.

Lemma deref_live s p : (p < length (heap s))%nat → heap s !! p = Some (deref s p).
Proof.
  intros H. destruct (lookup_lt_is_Some_2 _ _ H) as [a Ha].
  by rewrite (deref_lookup _ _ _ Ha).
Qed.

(** With a well-formed registry the test [len(s.advertisableServers) > 0]
    of [Stop] lets through every engine that has a device registered. *)
Lemma Stop_guard s :
  (∀ A (l : list A), range_order A l ≡ₚ l) → engine_wf s →
  (if (0 <? size (advertisableServers s))%nat
   then advertiseClosed (set_isRunning false s) else set_isRunning false s)
  = advertiseClosed (set_isRunning false s).
Proof.
  intros Hperm Hwf. destruct (Nat.ltb_spec 0 (size (advertisableServers s))) as [|Hz];
    [reflexivity|].
  assert (advertisableServers s = ∅) as Hadv by (apply map_size_empty_iff; lia).
  assert (deviceIdToServer s = ∅) as Hdev.
  { apply map_empty. intros u. destruct (deviceIdToServer s !! u) as [p|] eqn:Hu; [|done].
    destruct (wf_bucket s Hwf u p Hu) as (g & Hg & _).
    rewrite Hadv, lookup_empty in Hg. discriminate. }
  unfold advertiseClosed, range_map. cbn [deviceIdToServer set_isRunning].
  rewrite Hdev, map_to_list_empty.
  by rewrite (proj1 (Permutation_nil_r _) (Hperm _ [])).
Qed.

(** [Stop] and the device-UUID index: where the literal multicast address
    resolves and [range] visits every map entry once ([env_ok]), on an
    engine whose socket is open and whose registry is well formed, [Stop]
    sends one NOTIFY byebye for each advertisement recorded in the
    device-UUID index when it began, each advertisement once, followed by
    the sentinel and by nothing else, and both timers of each of these
    advertisements are stopped when [Stop] returns. *)
Lemma Stop_index_byebye (s : Ssdp) :
  env_ok E → engine_wf s → socket s = true →
  ∃ (ads : list ptr) (mcast : UDPAddr),
    ResolveUDPAddr multicastHostPort = Some mcast ∧
    ads ≡ₚ (snd <$> map_to_list (deviceIdToServer s)) ∧
    NoDup ads ∧
    writeChannel (Stop s)
    = (writeChannel s ++ ((λ p, byebye (deref s p) mcast) <$> ads) ++ [sentinel])%list ∧
    (∀ p, p ∈ ads →
          deref (Stop s) p = deref s p ∧ timers_stopped (Stop s) (deref s p)).
Proof.
  intros [Hperm [mcast Hr]] Hwf Hsock.
  exists (snd <$> range_map (deviceIdToServer s)), mcast.
  assert (snd <$> range_map (deviceIdToServer s) ≡ₚ snd <$> map_to_list (deviceIdToServer s))
    as Hads by (unfold range_map; by rewrite Hperm).
  assert (Stop s = set_socket false (send sentinel (advertiseClosed (set_isRunning false s))))
    as HStop.
  { unfold Stop. cbv zeta. cbn [socket set_isRunning]. rewrite Hsock.
    change (mkSsdp (advertisableServers s) (deviceIdToServer s) (heap s) (timers s) true
              (listener s) (listenSearchTargets s) (writeChannel s) false)
      with (set_isRunning false (set_socket true s)).
    replace (set_socket true s) with s by (destruct s; cbn in *; by subst).
    cbn [advertisableServers set_isRunning].
    change (mkSsdp (advertisableServers s) (deviceIdToServer s) (heap s) (timers s)
              (socket s) (listener s) (listenSearchTargets s) (writeChannel s) false)
      with (set_isRunning false s).
    by rewrite Stop_guard. }
  assert (advertiseClosed (set_isRunning false s)
          = set_writeChannel
              (writeChannel s ++
                 ((λ kv, byebye (deref s (snd kv)) mcast) <$> range_map (deviceIdToServer s)))
              (set_timers
                 (stop_list (range_map (deviceIdToServer s) ≫= λ kv, ad_timers (deref s (snd kv)))
                    (timers s))
                 (set_isRunning false s))) as Hclosed.
  { unfold advertiseClosed. by rewrite (advertiseClosed_fold mcast). }
  split; [exact Hr|]. split; [exact Hads|]. split.
  { rewrite Hads. apply NoDup_fmap_2_strong; [|apply NoDup_map_to_list].
    intros [u1 p1] [u2 p2] H1%elem_of_map_to_list H2%elem_of_map_to_list Heq.
    cbn in Heq. subst p2.
    by rewrite <- (wf_key s Hwf u1 p1 H1), <- (wf_key s Hwf u2 p1 H2). }
  split.
  { rewrite HStop, Hclosed. cbn [writeChannel set_socket send set_writeChannel].
    rewrite <- list_fmap_compose, <- app_assoc. reflexivity. }
  intros p Hp. rewrite HStop, Hclosed. split; [reflexivity|].
  apply list_elem_of_fmap in Hp as ([u p'] & -> & Hin). cbn [snd].
  assert ((u, p') ∈ map_to_list (deviceIdToServer s)) as Hin'
    by (unfold range_map in Hin; by rewrite Hperm in Hin).
  apply elem_of_map_to_list in Hin'.
  pose proof (deref_live s p' (wf_live s Hwf u p' Hin')) as Ha.
  destruct (wf_timers s Hwf p' _ Ha) as (t1 & t3 & Ht1 & Ht3 & Hl1 & Hl3).
  destruct (lookup_lt_is_Some_2 _ _ Hl1) as [tm1 Htm1].
  destruct (lookup_lt_is_Some_2 _ _ Hl3) as [tm3 Htm3].
  assert (∀ t, t ∈ ad_timers (deref s p') →
            t ∈ range_map (deviceIdToServer s) ≫= λ kv, ad_timers (deref s (snd kv)))
    as Hmem.
  { intros t Ht. apply list_elem_of_bind. exists (u, p'). by split. }
  exists t1, t3, (timer_stopped tm1), (timer_stopped tm3).
  split; [exact Ht1|]. split; [exact Ht3|].
  cbn [timers set_socket send set_writeChannel set_timers].
  rewrite !stop_list_lookup, Htm1, Htm3.
  rewrite !bool_decide_eq_true_2.
  - by repeat split.
  - apply Hmem. unfold ad_timers. rewrite Ht1, Ht3. cbn. set_solver.
  - apply Hmem. unfold ad_timers. rewrite Ht1, Ht3. cbn. set_solver.
Qed.

(** *** The registry *)

Lemma alter_snoc {A} (f : A → A) (l : list A) (x : A) :
  alter f (length l) (l ++ [x])%list = (l ++ [f x])%list.
Proof.
  replace (length l) with (length l + 0)%nat by lia. by rewrite alter_app_r.
Qed.

Lemma lookup_snoc {A} (l : list A) (x : A) : (l ++ [x])%list !! length l = Some x.
Proof. by rewrite list_lookup_middle. Qed.

Lemma AdvertiseServer_running ads s :
  isRunning s = true → AdvertiseServer ads s = advertised ads s.
Proof.
  intros Hrun. unfold AdvertiseServer, advertised. rewrite Hrun. cbn [negb].
  destruct s as [adv dev h ts sock lis lst wc run]. cbn in Hrun. subst run.
  cbv zeta. unfold store, deref, advertiseTimer. simpl.
  rewrite !alter_snoc, !lookup_snoc. simpl.
  destruct (adv !! ServiceType ads) as [v|] eqn:Hv; simpl;
    rewrite ?alter_snoc, ?lookup_snoc; simpl;
    rewrite ?alter_snoc, ?lookup_snoc, ?length_app, <- ?app_assoc; simpl;
    rewrite ?Nat.add_1_r; reflexivity.
Qed.

Lemma deref_advertised_old ads s p :
  (p < length (heap s))%nat → deref (advertised ads s) p = deref s p.
Proof.
  intros H. unfold deref, advertised. cbn [heap]. by rewrite lookup_app_l.
Qed.

Lemma deref_advertised_new ads s :
  deref (advertised ads s) (length (heap s))
  = mkAds (ServiceType ads) (DeviceUuid ads) (Location ads) (MaxAge ads)
      ("uuid:" +:+ DeviceUuid ads +:+ "::" +:+ ServiceType ads)
      (Some (length (timers s))) (Some (S (length (timers s)))).
Proof. unfold deref, advertised. cbn [heap]. by rewrite lookup_snoc. Qed.

(** The buckets after [AdvertiseServer]: the bucket of the new service
    type gains the new pointer at its end, the others are untouched. *)
Lemma advertised_bucket ads s svc g :
  advertisableServers (advertised ads s) !! svc = Some g →
  (svc = ServiceType ads ∧
   g = (default [] (advertisableServers s !! svc) ++ [length (heap s)])%list) ∨
  (svc ≠ ServiceType ads ∧ advertisableServers s !! svc = Some g).
Proof.
  unfold advertised. cbn [advertisableServers].
  destruct (decide (svc = ServiceType ads)) as [->|Hne].
  - rewrite lookup_insert_eq. intros [= <-]. by left.
  - rewrite lookup_insert_ne by done. intros H. by right.
Qed.

Lemma bucket_default_elem (m : gmap string (list ptr)) svc p :
  p ∈ default [] (m !! svc) → ∃ g, m !! svc = Some g ∧ p ∈ g.
Proof.
  destruct (m !! svc) as [g|]; cbn; [eauto|]. by intros ?%elem_of_nil.
Qed.

Lemma advertised_wf ads s : engine_wf s → engine_wf (advertised ads s).
Proof.
  intros Hwf. split.
  - intros u p. unfold advertised. cbn [deviceIdToServer heap]. rewrite length_app.
    destruct (decide (u = DeviceUuid ads)) as [->|Hne].
    + rewrite lookup_insert_eq. intros [= <-]. cbn. lia.
    + rewrite lookup_insert_ne by done. intros H%(wf_live s Hwf). lia.
  - intros u p. unfold advertised at 1. cbn [deviceIdToServer].
    destruct (decide (u = DeviceUuid ads)) as [->|Hne].
    + rewrite lookup_insert_eq. intros [= <-]. by rewrite deref_advertised_new.
    + rewrite lookup_insert_ne by done. intros H.
      rewrite deref_advertised_old by (by eapply wf_live).
      by apply (wf_key s Hwf).
  - intros u p. unfold advertised at 1. cbn [deviceIdToServer].
    destruct (decide (u = DeviceUuid ads)) as [->|Hne].
    + rewrite lookup_insert_eq. intros [= <-]. unfold in_service_bucket.
      rewrite deref_advertised_new. cbn [ServiceType].
      eexists. split; [unfold advertised; cbn [advertisableServers];
                       apply lookup_insert_eq|].
      apply elem_of_app. right. by left.
    + rewrite lookup_insert_ne by done. intros H.
      destruct (wf_bucket s Hwf u p H) as (g & Hg & Hp).
      unfold in_service_bucket.
      rewrite deref_advertised_old by (by eapply wf_live).
      unfold advertised. cbn [advertisableServers].
      destruct (decide (ServiceType (deref s p) = ServiceType ads)) as [Heq|Hsv].
      * eexists. split; [rewrite Heq; apply lookup_insert_eq|].
        rewrite <- Heq, Hg. apply elem_of_app. by left.
      * rewrite lookup_insert_ne by done. eauto.
  - intros svc g p Hg Hp. unfold advertised. cbn [heap]. rewrite length_app. cbn.
    apply advertised_bucket in Hg as [[-> ->]|[_ Hg]].
    + apply elem_of_app in Hp as [Hp|Hp].
      * apply bucket_default_elem in Hp as (g' & Hg' & Hp).
        pose proof (wf_bucket_live s Hwf _ _ _ Hg' Hp). lia.
      * apply list_elem_of_singleton in Hp as ->. lia.
    + pose proof (wf_bucket_live s Hwf _ _ _ Hg Hp). lia.
  - intros p a. unfold advertised. cbn [heap timers]. rewrite length_app. cbn [length].
    intros [H|[_ H]]%lookup_app_Some.
    + destruct (wf_timers s Hwf p a H) as (t1 & t3 & ? & ? & ? & ?).
      exists t1, t3. repeat split; [done | done | lia | lia].
    + destruct (p - length (heap s))%nat; [|by destruct n].
      injection H as <-. eexists _, _. cbn. repeat split; lia.
  - intros p a. unfold advertised. cbn [heap].
    intros [H|[_ H]]%lookup_app_Some; [by apply (wf_usn s Hwf p)|].
    destruct (p - length (heap s))%nat; [|by destruct n].
    by injection H as <-.
Qed.

Lemma advertised_consistent ads s :
  deviceIdToServer s !! DeviceUuid ads = None →
  registry_consistent s → registry_consistent (advertised ads s).
Proof.
  intros Hfresh [Hwf Hkey Hdev Hnd]. split.
  - by apply advertised_wf.
  - intros svc g p Hg Hp.
    apply advertised_bucket in Hg as [[-> ->]|[_ Hg]].
    + apply elem_of_app in Hp as [Hp|Hp].
      * apply bucket_default_elem in Hp as (g' & Hg' & Hp).
        rewrite deref_advertised_old by (by eapply wf_bucket_live).
        by eapply Hkey.
      * apply list_elem_of_singleton in Hp as ->. by rewrite deref_advertised_new.
    + rewrite deref_advertised_old by (by eapply wf_bucket_live). by eapply Hkey.
  - assert (∀ svc g p, advertisableServers s !! svc = Some g → p ∈ g →
              deviceIdToServer (advertised ads s) !! DeviceUuid (deref (advertised ads s) p)
              = Some p) as Hold.
    { intros svc g p Hg Hp.
      rewrite deref_advertised_old by (by eapply wf_bucket_live).
      pose proof (Hdev _ _ _ Hg Hp) as Hd.
      unfold advertised. cbn [deviceIdToServer].
      rewrite lookup_insert_ne; [done|]. intros Heq. rewrite <- Heq in Hd. congruence. }
    intros svc g p Hg Hp.
    apply advertised_bucket in Hg as [[-> ->]|[_ Hg]]; [|by eapply Hold].
    apply elem_of_app in Hp as [Hp|Hp].
    + apply bucket_default_elem in Hp as (g' & Hg' & Hp). by eapply Hold.
    + apply list_elem_of_singleton in Hp as ->. rewrite deref_advertised_new.
      unfold advertised. cbn [deviceIdToServer DeviceUuid]. apply lookup_insert_eq.
  - intros svc g Hg.
    apply advertised_bucket in Hg as [[-> ->]|[_ Hg]]; [|by eapply Hnd].
    apply NoDup_app. split; [|split; [|apply NoDup_singleton]].
    + destruct (advertisableServers s !! ServiceType ads) as [g'|] eqn:Hg';
        [by eapply Hnd | apply NoDup_nil_2].
    + intros p Hp Hin. apply list_elem_of_singleton in Hin as ->.
      apply bucket_default_elem in Hp as (g' & Hg' & Hp).
      pose proof (wf_bucket_live s Hwf _ _ _ Hg' Hp). lia.
Qed.

Lemma group_index_heap s s' u g :
  heap s = heap s' → group_index s u g = group_index s' u g.
Proof.
  intros H. induction g as [|q g IH]; [reflexivity|].
  cbn [group_index]. unfold deref. by rewrite H, IH.
Qed.

Lemma RemoveServer_running deviceUuid p s :
  isRunning s = true → deviceIdToServer s !! deviceUuid = Some p →
  RemoveServer deviceUuid s = removed deviceUuid p s.
Proof.
  intros Hrun Hp. unfold RemoveServer, removed, removed_buckets.
  rewrite Hrun, Hp. cbn [negb]. cbv zeta.
  replace (deref (Timer_Stop (lastTimer (deref s p)) s) p) with (deref s p)
    by (by destruct (lastTimer (deref s p))).
  rewrite Timer_Stop_both.
  set (a := deref s p).
  set (s1 := set_deviceIdToServer _ _).
  assert (deref s1 p = a) as -> by reflexivity.
  change (advertisableServers s1) with (advertisableServers s).
  destruct (advertisableServers s !! ServiceType a) as [group|] eqn:Hg.
  - destruct (length group =? 1)%nat.
    + subst s1. destruct s. cbn in Hrun. by subst.
    + rewrite (group_index_heap s1 s) by reflexivity.
      destruct (group_index s (DeviceUuid a) group) as [i|]; subst s1;
        destruct s; cbn in Hrun; by subst.
  - subst s1. destruct s. cbn in Hrun. by subst.
Qed.

Lemma group_index_Some s u g i :
  group_index s u g = Some i →
  ∃ q, g !! i = Some q ∧ DeviceUuid (deref s q) = u ∧
       ∀ j q', (j < i)%nat → g !! j = Some q' → DeviceUuid (deref s q') ≠ u.
Proof.
  revert i. induction g as [|q g IH]; intros i; [discriminate|].
  cbn [group_index]. destruct (String.eqb_spec (DeviceUuid (deref s q)) u) as [Heq|Hne].
  - intros [= <-]. exists q. repeat split; [done|]. intros j q' Hj. lia.
  - destruct (group_index s u g) as [i'|] eqn:Hi; [|discriminate].
    intros [= <-]. destruct (IH i' eq_refl) as (q0 & Hq0 & Hu & Hbefore).
    exists q0. repeat split; [done | done |].
    intros [|j] q' Hj; cbn; [by intros [= <-]|].
    apply Hbefore. lia.
Qed.

Lemma group_index_None s u g :
  group_index s u g = None → ∀ q, q ∈ g → DeviceUuid (deref s q) ≠ u.
Proof.
  induction g as [|q g IH]; intros H q' Hq'; [by apply elem_of_nil in Hq'|].
  cbn [group_index] in H.
  destruct (String.eqb_spec (DeviceUuid (deref s q)) u) as [Heq|Hne]; [discriminate|].
  destruct (group_index s u g); [discriminate|].
  apply elem_of_cons in Hq' as [->|Hq']; [done | by apply IH].
Qed.

Lemma elem_of_remove_nth {A} (l : list A) i q x :
  l !! i = Some q → x ∈ l → x ≠ q → x ∈ (take i l ++ drop (S i) l)%list.
Proof.
  intros Hi Hx Hne. rewrite <- (take_drop_middle l i q Hi) in Hx.
  apply elem_of_app in Hx as [Hx|Hx]; apply elem_of_app; [by left|].
  apply elem_of_cons in Hx as [->|Hx]; [done | by right].
Qed.

Lemma remove_nth_subseteq {A} (l : list A) i x :
  x ∈ (take i l ++ drop (S i) l)%list → x ∈ l.
Proof.
  intros [H|H]%elem_of_app; [by eapply subseteq_take | by eapply subseteq_drop].
Qed.

Lemma remove_nth_NoDup {A} (l : list A) i q :
  NoDup l → l !! i = Some q →
  NoDup (take i l ++ drop (S i) l)%list ∧ q ∉ (take i l ++ drop (S i) l)%list.
Proof.
  intros Hnd Hi. rewrite <- (take_drop_middle l i q Hi) in Hnd.
  apply NoDup_app in Hnd as (Hnd1 & Hdisj & Hnd2).
  apply NoDup_cons in Hnd2 as [Hq Hnd2]. split.
  - apply NoDup_app. split; [done|]. split; [|done].
    intros x Hx1 Hx2. apply (Hdisj x Hx1). by right.
  - intros [H|H]%elem_of_app; [|done]. apply (Hdisj q H). by left.
Qed.

(** The buckets after [RemoveServer]: every bucket that is left is part
    of the bucket that was there. *)
Lemma removed_bucket_sub s a svc g p :
  removed_buckets s a !! svc = Some g → p ∈ g →
  ∃ g0, advertisableServers s !! svc = Some g0 ∧ p ∈ g0.
Proof.
  unfold removed_buckets.
  destruct (advertisableServers s !! ServiceType a) as [group|] eqn:Hgroup; [|eauto].
  destruct (length group =? 1)%nat.
  { destruct (decide (svc = ServiceType a)) as [->|Hne].
    - by rewrite lookup_delete_eq.
    - rewrite lookup_delete_ne by done. eauto. }
  destruct (group_index s (DeviceUuid a) group) as [i|]; [|eauto].
  destruct (decide (svc = ServiceType a)) as [->|Hne].
  - rewrite lookup_insert_eq. intros [= <-] Hp. exists group. split; [done|].
    by eapply remove_nth_subseteq.
  - rewrite lookup_insert_ne by done. eauto.
Qed.

Lemma stop_list_length rs : ∀ ts, length (stop_list rs ts) = length ts.
Proof.
  induction rs as [|r rs IH]; intros ts; [reflexivity|].
  change (stop_list (r :: rs) ts) with (stop_list rs (alter timer_stopped r ts)).
  by rewrite IH, length_alter.
Qed.

Lemma length_one_elem {A} (g : list A) x y :
  (length g =? 1)%nat = true → x ∈ g → y ∈ g → x = y.
Proof.
  destruct g as [|z [|z' g]]; cbn; try discriminate.
  by intros _ ->%list_elem_of_singleton ->%list_elem_of_singleton.
Qed.

Lemma removed_wf deviceUuid p s :
  engine_wf s → deviceIdToServer s !! deviceUuid = Some p →
  engine_wf (removed deviceUuid p s).
Proof.
  intros Hwf Hp.
  pose proof (wf_key s Hwf _ _ Hp) as Hu.
  destruct (wf_bucket s Hwf _ _ Hp) as (gp & Hgp & Hpgp).
  split.
  - intros u' p'. unfold removed. cbn [deviceIdToServer heap].
    intros [_ H]%lookup_delete_Some. by eapply wf_live.
  - intros u' p'. unfold removed at 1. cbn [deviceIdToServer].
    intros [_ H]%lookup_delete_Some. by apply (wf_key s Hwf).
  - intros u' p'. unfold removed at 1. cbn [deviceIdToServer].
    intros [Hne H]%lookup_delete_Some.
    destruct (wf_bucket s Hwf _ _ H) as (g & Hg & Hp'g).
    pose proof (wf_key s Hwf _ _ H) as Hu'.
    unfold in_service_bucket.
    change (deref (removed deviceUuid p s) p') with (deref s p').
    unfold removed. cbn [advertisableServers]. unfold removed_buckets. rewrite Hgp.
    destruct (decide (ServiceType (deref s p') = ServiceType (deref s p))) as [Heq|Hsv].
    + rewrite Heq in *. assert (g = gp) as -> by congruence.
      destruct (length gp =? 1)%nat eqn:Hlen.
      { exfalso. apply Hne. rewrite <- Hu, <- Hu'.
        by rewrite (length_one_elem gp p p' Hlen). }
      destruct (group_index s (DeviceUuid (deref s p)) gp) as [i|] eqn:Hi; [|eauto].
      apply group_index_Some in Hi as (q & Hq & Hqu & _).
      rewrite lookup_insert_eq. eexists. split; [reflexivity|].
      eapply elem_of_remove_nth; [done | done |]. intros ->. congruence.
    + destruct (length gp =? 1)%nat; [rewrite lookup_delete_ne by done; eauto|].
      destruct (group_index s (DeviceUuid (deref s p)) gp) as [i|]; [|eauto].
      rewrite lookup_insert_ne by done. eauto.
  - intros svc g p'. unfold removed. cbn [advertisableServers heap].
    intros Hg Hp'. destruct (removed_bucket_sub _ _ _ _ _ Hg Hp') as (g0 & Hg0 & Hin).
    by eapply wf_bucket_live.
  - intros p' a. unfold removed. cbn [heap timers]. rewrite stop_list_length.
    by apply (wf_timers s Hwf).
  - intros p' a. unfold removed. cbn [heap]. by apply (wf_usn s Hwf).
Qed.

(** With the two indexes in agreement, the advertisement that
    [RemoveServer] looked up is in no bucket afterwards. *)
Lemma removed_not_in_bucket deviceUuid p s svc g :
  registry_consistent s → deviceIdToServer s !! deviceUuid = Some p →
  removed_buckets s (deref s p) !! svc = Some g → p ∉ g.
Proof.
  intros [Hwf Hkey Hdev Hnd] Hp Hg Hin.
  pose proof (wf_key s Hwf _ _ Hp) as Hu.
  destruct (wf_bucket s Hwf _ _ Hp) as (gp & Hgp & Hpgp).
  destruct (removed_bucket_sub _ _ _ _ _ Hg Hin) as (g0 & Hg0 & Hin0).
  pose proof (Hkey _ _ _ Hg0 Hin0) as Hsvc. subst svc.
  unfold removed_buckets in Hg. rewrite Hgp in Hg.
  destruct (length gp =? 1)%nat; [by rewrite lookup_delete_eq in Hg|].
  destruct (group_index s (DeviceUuid (deref s p)) gp) as [i|] eqn:Hi.
  - apply group_index_Some in Hi as (q & Hq & Hqu & _).
    rewrite lookup_insert_eq in Hg. injection Hg as <-.
    assert (q = p) as ->.
    { pose proof (Hdev _ _ _ Hgp (list_elem_of_lookup_2 _ _ _ Hq)) as Hd.
      rewrite Hqu, Hu in Hd. congruence. }
    by destruct (remove_nth_NoDup gp i p (Hnd _ _ Hgp) Hq) as [_ Hnot].
  - by apply (group_index_None _ _ _ Hi p Hpgp).
Qed.

Lemma removed_consistent deviceUuid p s :
  registry_consistent s → deviceIdToServer s !! deviceUuid = Some p →
  registry_consistent (removed deviceUuid p s).
Proof.
  intros Hrc Hp. pose proof Hrc as [Hwf Hkey Hdev Hnd].
  pose proof (wf_key s Hwf _ _ Hp) as Hu.
  split.
  - by apply removed_wf.
  - intros svc g q. unfold removed at 1. cbn [advertisableServers].
    intros Hg Hq. destruct (removed_bucket_sub _ _ _ _ _ Hg Hq) as (g0 & Hg0 & Hin).
    by apply (Hkey _ _ _ Hg0).
  - intros svc g q. change (deref (removed deviceUuid p s) q) with (deref s q).
    unfold removed. cbn [advertisableServers deviceIdToServer].
    intros Hg Hq. destruct (removed_bucket_sub _ _ _ _ _ Hg Hq) as (g0 & Hg0 & Hin).
    pose proof (Hdev _ _ _ Hg0 Hin) as Hd.
    rewrite lookup_delete_ne; [done|].
    intros Heq. rewrite <- Heq in Hd. assert (q = p) as -> by congruence.
    by apply (removed_not_in_bucket _ _ _ _ _ Hrc Hp Hg).
  - intros svc g. unfold removed. cbn [advertisableServers]. unfold removed_buckets.
    destruct (advertisableServers s !! ServiceType (deref s p)) as [gp|] eqn:Hgp;
      [|by apply Hnd].
    destruct (length gp =? 1)%nat.
    { intros [_ H]%lookup_delete_Some. by eapply Hnd. }
    destruct (group_index s (DeviceUuid (deref s p)) gp) as [i|] eqn:Hi; [|by apply Hnd].
    apply group_index_Some in Hi as (q & Hq & _).
    destruct (decide (svc = ServiceType (deref s p))) as [->|Hne].
    + rewrite lookup_insert_eq. intros [= <-].
      by destruct (remove_nth_NoDup gp i q (Hnd _ _ Hgp) Hq).
    + rewrite lookup_insert_ne by done. by apply Hnd.
Qed.

Lemma NewSsdp_consistent l : registry_consistent (NewSsdp l).
Proof.
  split; [split|..]; unfold NewSsdp; cbn [advertisableServers deviceIdToServer heap timers];
    intros; by rewrite ?lookup_empty, ?lookup_nil in *.
Qed.

Lemma apply_op_wf s o : engine_wf s → engine_wf (apply_op s o).
Proof.
  intros Hwf. destruct o as [ads|u]; cbn [apply_op].
  - destruct (isRunning s) eqn:Hrun.
    + rewrite AdvertiseServer_running by done. by apply advertised_wf.
    + unfold AdvertiseServer. by rewrite Hrun.
  - destruct (isRunning s) eqn:Hrun; [|unfold RemoveServer; by rewrite Hrun].
    destruct (deviceIdToServer s !! u) as [p|] eqn:Hp.
    + rewrite (RemoveServer_running u p) by done. by apply removed_wf.
    + unfold RemoveServer. by rewrite Hrun, Hp.
Qed.

Lemma run_wf ops : ∀ s, engine_wf s → engine_wf (run ops s).
Proof.
  induction ops as [|o ops IH]; intros s Hwf; [exact Hwf|].
  apply IH. by apply apply_op_wf.
Qed.

(** Whatever calls the client makes on a new engine, its registry is well
    formed. *)
Lemma run_engine_wf l ops : engine_wf (run ops (NewSsdp l)).
Proof. apply run_wf, NewSsdp_consistent. Qed.

Lemma run_consistent ops : ∀ s,
  registry_consistent s → once_per_server ops s = true →
  registry_consistent (run ops s).
Proof.
  induction ops as [|o ops IH]; intros s Hrc Honce; [exact Hrc|].
  cbn [once_per_server] in Honce. apply andb_true_iff in Honce as [Ho Honce].
  apply IH; [|exact Honce].
  destruct o as [ads|u]; cbn [apply_op].
  - apply bool_decide_eq_true in Ho.
    destruct (isRunning s) eqn:Hrun.
    + rewrite AdvertiseServer_running by done. by apply advertised_consistent.
    + unfold AdvertiseServer. by rewrite Hrun.
  - destruct (isRunning s) eqn:Hrun; [|unfold RemoveServer; by rewrite Hrun].
    destruct (deviceIdToServer s !! u) as [p|] eqn:Hp.
    + rewrite (RemoveServer_running u p) by done. by apply removed_consistent.
    + unfold RemoveServer. by rewrite Hrun, Hp.
Qed.

Lemma elem_of_bucket_entries s p :
  p ∈ bucket_entries s ↔ ∃ svc g, advertisableServers s !! svc = Some g ∧ p ∈ g.
Proof.
  unfold bucket_entries. rewrite list_elem_of_bind. split.
  - intros ([svc g] & Hp & Hin%elem_of_map_to_list). eauto.
  - intros (svc & g & Hg & Hp). exists (svc, g). split; [done|].
    by apply elem_of_map_to_list.
Qed.

Lemma consistent_entries_NoDup s : registry_consistent s → NoDup (bucket_entries s).
Proof.
  intros [Hwf Hkey Hdev Hnd]. unfold bucket_entries. apply NoDup_bind.
  - intros [svc1 g1] [svc2 g2] p H1%elem_of_map_to_list H2%elem_of_map_to_list Hp1 Hp2.
    cbn in Hp1, Hp2.
    pose proof (Hkey _ _ _ H1 Hp1). pose proof (Hkey _ _ _ H2 Hp2). subst.
    f_equal. congruence.
  - intros [svc g] H%elem_of_map_to_list. by eapply Hnd.
  - apply NoDup_map_to_list.
Qed.

Lemma NoDup_only {A} (l : list A) (p : A) :
  NoDup l → (∀ x, x ∈ l ↔ x = p) → l = [p].
Proof.
  intros Hnd Hl. destruct l as [|a [|b l]].
  - exfalso. by apply (not_elem_of_nil p), Hl.
  - f_equal. apply Hl. by left.
  - exfalso. assert (a = p) as -> by (apply Hl; by left).
    assert (b = p) as -> by (apply Hl; right; by left).
    apply NoDup_cons in Hnd as [Hnot _]. apply Hnot. by left.
Qed.

(** In a consistent registry the bucket entries made for a device are
    the one advertisement recorded for it, or none. *)
Lemma consistent_entries s u :
  registry_consistent s →
  entries_of_device s u = option_list (deviceIdToServer s !! u).
Proof.
  intros Hrc. pose proof Hrc as [Hwf Hkey Hdev Hnd]. unfold entries_of_device.
  destruct (deviceIdToServer s !! u) as [p|] eqn:Hp; cbn [option_list].
  - apply NoDup_only; [by apply NoDup_filter, consistent_entries_NoDup|].
    intros x. rewrite list_elem_of_filter, elem_of_bucket_entries. split.
    + intros [Hx (svc & g & Hg & Hin)].
      pose proof (Hdev _ _ _ Hg Hin) as Hd. rewrite Hx in Hd. congruence.
    + intros ->. split; [by apply (wf_key s Hwf)|].
      destruct (wf_bucket s Hwf _ _ Hp) as (g & Hg & Hin). eauto.
  - apply elem_of_nil_inv. intros x.
    rewrite list_elem_of_filter, elem_of_bucket_entries.
    intros [Hx (svc & g & Hg & Hin)].
    pose proof (Hdev _ _ _ Hg Hin) as Hd. rewrite Hx in Hd. congruence.
Qed.

(** C9, as amended.  After any sequence of [AdvertiseServer] and
    [RemoveServer] calls on a new engine in which no [AdvertiseServer]
    names a device UUID that is registered at that moment: for every
    device UUID the buckets hold exactly one entry if the UUID is
    registered, that of the advertisement recorded for it, and none
    otherwise; an advertisement is in the bucket of its service type if
    and only if it is in the device-UUID index; and the USN of every
    advertisement is ["uuid:" + deviceUuid + "::" + serviceType]. *)
Theorem registry_invariant (l : bool) (ops : list Op) :
  once_per_server ops (NewSsdp l) = true →
  let s := run ops (NewSsdp l) in
  (∀ u, entries_of_device s u = option_list (deviceIdToServer s !! u)) ∧
  (∀ p, in_service_bucket s p ↔ in_device_index s p) ∧
  (∀ p a, heap s !! p = Some a →
          usn a = "uuid:" +:+ DeviceUuid a +:+ "::" +:+ ServiceType a).
Proof.
  intros Honce s.
  assert (registry_consistent s) as Hrc
    by (by apply run_consistent; [apply NewSsdp_consistent|]).
  pose proof Hrc as [Hwf Hkey Hdev Hnd].
  split; [intros u; by apply consistent_entries|]. split.
  - intros p. split.
    + intros (g & Hg & Hp). eexists. by eapply Hdev.
    + intros (u & Hu). by eapply wf_bucket.
  - by apply (wf_usn s Hwf).
Qed.

(** *** [Stop] and the registered advertisements *)

Lemma run_socket ops : ∀ s, socket (run ops s) = socket s.
Proof.
  induction ops as [|o ops IH]; intros s; [reflexivity|].
  change (run (o :: ops) s) with (run ops (apply_op s o)). rewrite IH.
  destruct o as [ads|u]; cbn [apply_op].
  - destruct (isRunning s) eqn:Hrun.
    + by rewrite AdvertiseServer_running.
    + unfold AdvertiseServer. by rewrite Hrun.
  - destruct (isRunning s) eqn:Hrun; [|unfold RemoveServer; by rewrite Hrun].
    destruct (deviceIdToServer s !! u) as [p|] eqn:Hp.
    + by rewrite (RemoveServer_running u p).
    + unfold RemoveServer. by rewrite Hrun, Hp.
Qed.

(** When the two indexes agree, the bucket entries are the advertisements
    of the device-UUID index, each once. *)
Lemma consistent_entries_index s :
  registry_consistent s →
  bucket_entries s ≡ₚ snd <$> map_to_list (deviceIdToServer s).
Proof.
  intros Hrc. pose proof Hrc as [Hwf Hkey Hdev Hnd].
  apply NoDup_Permutation.
  - by apply consistent_entries_NoDup.
  - apply NoDup_fmap_2_strong; [|apply NoDup_map_to_list].
    intros [u1 p1] [u2 p2] H1%elem_of_map_to_list H2%elem_of_map_to_list Heq.
    cbn in Heq. subst p2.
    by rewrite <- (wf_key s Hwf u1 p1 H1), <- (wf_key s Hwf u2 p1 H2).
  - intros p. rewrite elem_of_bucket_entries, list_elem_of_fmap. split.
    + intros (svc & g & Hg & Hin). exists (DeviceUuid (deref s p), p).
      split; [reflexivity|]. apply elem_of_map_to_list. by eapply Hdev.
    + intros ([u q] & -> & Hin%elem_of_map_to_list). cbn [snd].
      destruct (wf_bucket s Hwf u q Hin) as (g & Hg & Hq). eauto.
Qed.

(** The header map of a byebye has four entries. *)
Lemma byebye_heads_entries (a : AdvertisableServer) :
  map_to_list (<["HOST" := multicastHostPort]>
               (<["NT" := ServiceType a]>
               (<["NTS" := "ssdp:byebye"]>
               (<["USN" := usn a]> (∅ : gmap string string)))))
  ≡ₚ [("HOST", multicastHostPort); ("NT", ServiceType a);
      ("NTS", "ssdp:byebye"); ("USN", usn a)].
Proof.
  rewrite map_to_list_insert
    by (rewrite !lookup_insert_ne by done; apply lookup_empty).
  rewrite map_to_list_insert
    by (rewrite !lookup_insert_ne by done; apply lookup_empty).
  rewrite map_to_list_insert
    by (rewrite !lookup_insert_ne by done; apply lookup_empty).
  rewrite map_to_list_insert by apply lookup_empty.
  by rewrite map_to_list_empty.
Qed.

(** The text of a byebye: the start line, the four header lines in the
    order [range] visits them, and an empty line. *)
Lemma byebye_datagram (a : AdvertisableServer) (mcast : UDPAddr) :
  (∀ A (l : list A), range_order A l ≡ₚ l) →
  ∃ entries : list (string * string),
    entries ≡ₚ [("HOST", multicastHostPort); ("NT", ServiceType a);
                ("NTS", "ssdp:byebye"); ("USN", usn a)] ∧
    byebye a mcast
    = mkWrite (Some ("NOTIFY * HTTP/1.1" +:+ CRLF +:+ header_lines entries +:+ CRLF))
        (Some mcast) false.
Proof.
  intros Hperm. eexists. split; [|unfold byebye, createSsdpHeader; cbv zeta;
    rewrite foldl_header_lines; by rewrite !append_assoc].
  unfold range_map. rewrite Hperm. apply byebye_heads_entries.
Qed.

Lemma Stop_consistent_byebye (s : Ssdp) :
  env_ok E → registry_consistent s → socket s = true →
  ∃ (ads : list ptr) (mcast : UDPAddr),
    ResolveUDPAddr multicastHostPort = Some mcast ∧
    ads ≡ₚ bucket_entries s ∧
    ads ≡ₚ (snd <$> map_to_list (deviceIdToServer s)) ∧
    NoDup ads ∧
    writeChannel (Stop s)
    = (writeChannel s ++ ((λ p, byebye (deref s p) mcast) <$> ads) ++ [sentinel])%list ∧
    (∀ p, p ∈ ads →
          deref (Stop s) p = deref s p ∧
          timers_stopped (Stop s) (deref s p) ∧
          usn (deref s p)
          = "uuid:" +:+ DeviceUuid (deref s p) +:+ "::" +:+ ServiceType (deref s p) ∧
          ∃ entries : list (string * string),
            entries ≡ₚ [("HOST", multicastHostPort); ("NT", ServiceType (deref s p));
                        ("NTS", "ssdp:byebye"); ("USN", usn (deref s p))] ∧
            byebye (deref s p) mcast
            = mkWrite
                (Some ("NOTIFY * HTTP/1.1" +:+ CRLF +:+ header_lines entries +:+ CRLF))
                (Some mcast) false).
Proof.
  intros HE Hrc Hsock. pose proof Hrc as [Hwf _ _ _].
  destruct (Stop_index_byebye s HE Hwf Hsock) as (ads & mcast & Hr & Hads & Hnd & Hwc & Hall).
  exists ads, mcast. split; [exact Hr|].
  split; [by rewrite Hads, consistent_entries_index|].
  split; [exact Hads|]. split; [exact Hnd|]. split; [exact Hwc|].
  intros p Hp. destruct (Hall p Hp) as [Hderef Htimers].
  split; [exact Hderef|]. split; [exact Htimers|].
  split; [|apply byebye_datagram, HE].
  rewrite Hads in Hp. apply list_elem_of_fmap in Hp as ([u q] & -> & Hin%elem_of_map_to_list).
  cbn [snd]. apply (wf_usn s Hwf q). apply deref_live. by eapply wf_live.
Qed.

(** C7, as amended.  Where the literal multicast address resolves and
    [range] visits every map entry once ([env_ok]), on an engine reached
    from a new one by [AdvertiseServer] and [RemoveServer] calls of which
    no [AdvertiseServer] names a device UUID that is registered at that
    moment, [Stop] sends on the write channel one NOTIFY byebye for each
    registered advertisement, each advertisement once, followed by the
    sentinel and by nothing else: the registered advertisements are the
    entries of the buckets, which are those of the device-UUID index; the
    byebye of an advertisement is the line [NOTIFY * HTTP/1.1], the four
    header lines [HOST: 239.255.255.250:1900], [NT: <service type>],
    [NTS: ssdp:byebye] and [USN: uuid:<UUID>::<service type>] in the order
    [range] gives them, and an empty line, sent to the multicast address;
    and both timers of each of these advertisements are stopped when
    [Stop] returns. *)
Theorem Stop_byebye (l : bool) (ops : list Op) :
  env_ok E →
  once_per_server ops (NewSsdp l) = true →
  let s := run ops (NewSsdp l) in
  ∃ (ads : list ptr) (mcast : UDPAddr),
    ResolveUDPAddr multicastHostPort = Some mcast ∧
    ads ≡ₚ bucket_entries s ∧
    ads ≡ₚ (snd <$> map_to_list (deviceIdToServer s)) ∧
    NoDup ads ∧
    writeChannel (Stop s)
    = (writeChannel s ++ ((λ p, byebye (deref s p) mcast) <$> ads) ++ [sentinel])%list ∧
    (∀ p, p ∈ ads →
          deref (Stop s) p = deref s p ∧
          timers_stopped (Stop s) (deref s p) ∧
          usn (deref s p)
          = "uuid:" +:+ DeviceUuid (deref s p) +:+ "::" +:+ ServiceType (deref s p) ∧
          ∃ entries : list (string * string),
            entries ≡ₚ [("HOST", multicastHostPort); ("NT", ServiceType (deref s p));
                        ("NTS", "ssdp:byebye"); ("USN", usn (deref s p))] ∧
            byebye (deref s p) mcast
            = mkWrite
                (Some ("NOTIFY * HTTP/1.1" +:+ CRLF +:+ header_lines entries +:+ CRLF))
                (Some mcast) false).
Proof.
  intros HE Honce s. apply Stop_consistent_byebye; [exact HE | |].
  - by apply run_consistent; [apply NewSsdp_consistent|].
  - unfold s. by rewrite run_socket.
Qed.

End Properties.

(** ** The properties on the concrete scenarios *)

Lemma env0_ok : env_ok env0.
Proof. split; [reflexivity | by eexists]. Qed.

(** [ssdp:all] on an engine with two devices: a response for every
    bucket entry. *)
Lemma inMSearch_matching_witness :
  env_ok env0 ∧
  ResolveUDPAddr (Env := env0) searcher = Some searcher ∧
  ∃ matched : list nat,
    inMSearch_respond (E := env0) "ssdp:all" searcher two_devices
    = set_writeChannel
        (writeChannel two_devices ++
           ((λ d, msearch_response (E := env0) (deref two_devices d) searcher) <$> matched))
        two_devices ∧
    matched ≡ₚ bucket_entries two_devices.
Proof.
  split; [exact env0_ok|]. split; [reflexivity|].
  destruct (inMSearch_matching (E := env0) two_devices "ssdp:all" searcher searcher
              env0_ok eq_refl) as (matched & Heq & Hall & _).
  exists matched. split; [exact Heq | exact (Hall eq_refl)].
Defined.

(** [Stop] on an engine with two devices. *)
Lemma Stop_byebye_witness :
  env_ok env0 ∧
  once_per_server [OpAdvertise ad1; OpAdvertise ad2] (NewSsdp false) = true ∧
  ∃ (ads : list nat) (mcast : string),
    ads ≡ₚ bucket_entries (run [OpAdvertise ad1; OpAdvertise ad2] (NewSsdp false)) ∧
    writeChannel (Stop (E := env0) (run [OpAdvertise ad1; OpAdvertise ad2] (NewSsdp false)))
    = (writeChannel (run [OpAdvertise ad1; OpAdvertise ad2] (NewSsdp false)) ++
         ((λ p, byebye (E := env0)
                  (deref (run [OpAdvertise ad1; OpAdvertise ad2] (NewSsdp false)) p) mcast)
            <$> ads) ++
         [sentinel])%list ∧
    (∀ p, p ∈ ads →
          timers_stopped
            (Stop (E := env0) (run [OpAdvertise ad1; OpAdvertise ad2] (NewSsdp false)))
            (deref (run [OpAdvertise ad1; OpAdvertise ad2] (NewSsdp false)) p)).
Proof.
  assert (once_per_server [OpAdvertise ad1; OpAdvertise ad2] (NewSsdp false) = true) as Honce
    by (vm_compute; reflexivity).
  split; [exact env0_ok|]. split; [exact Honce|].
  destruct (Stop_byebye (E := env0) false [OpAdvertise ad1; OpAdvertise ad2] env0_ok Honce)
    as (ads & mcast & _ & Hperm & _ & _ & Hwc & Hall).
  exists ads, mcast. split; [exact Hperm|]. split; [exact Hwc|].
  intros p Hp. exact (proj1 (proj2 (Hall p Hp))).
Defined.

(** C7 as stated fails: after [AdvertiseServer] was called twice for the
    device [u1], the first advertisement is still registered under its
    service type and answers a search for [ssdp:all], yet [Stop] sends
    the byebye of the second advertisement only, and leaves the two
    timers of the first one running. *)
Lemma Stop_byebye_counterexample :
  engine_wf advertised_twice ∧ socket advertised_twice = true ∧
  advertisableServers advertised_twice !! "urn:test:svc:1" = Some [0%nat] ∧
  usn (deref advertised_twice 0) = "uuid:u1::urn:test:svc:1" ∧
  usn (deref advertised_twice 1) = "uuid:u1::urn:test:svc:2" ∧
  msearch_response (E := env0) (deref advertised_twice 0) searcher
    ∈ writeChannel (inMSearch_respond (E := env0) "ssdp:all" searcher advertised_twice) ∧
  writeChannel (Stop (E := env0) advertised_twice)
  = [byebye (E := env0) (deref advertised_twice 1) multicastHostPort; sentinel] ∧
  (t_active <$> timers (Stop (E := env0) advertised_twice)) = [true; true; false; false].
Proof.
  split; [apply run_engine_wf|]. split; [reflexivity|].
  split; [vm_compute; reflexivity|]. split; [vm_compute; reflexivity|].
  split; [vm_compute; reflexivity|]. split.
  { assert (writeChannel (inMSearch_respond (E := env0) "ssdp:all" searcher advertised_twice)
            = [msearch_response (E := env0) (deref advertised_twice 0) searcher;
               msearch_response (E := env0) (deref advertised_twice 1) searcher]) as ->
      by (vm_compute; reflexivity).
    by left. }
  split; vm_compute; reflexivity.
Qed.

(** Two devices advertised, one removed: the indexes agree. *)
Lemma registry_invariant_witness :
  once_per_server [OpAdvertise ad1; OpAdvertise ad2; OpRemove "u1"] (NewSsdp true) = true ∧
  ∀ u, entries_of_device
         (run [OpAdvertise ad1; OpAdvertise ad2; OpRemove "u1"] (NewSsdp true)) u
       = option_list
           (deviceIdToServer
              (run [OpAdvertise ad1; OpAdvertise ad2; OpRemove "u1"] (NewSsdp true)) !! u).
Proof.
  split; [vm_compute; reflexivity|].
  exact (proj1 (registry_invariant true
                  [OpAdvertise ad1; OpAdvertise ad2; OpRemove "u1"] eq_refl)).
Defined.

(** C9 as stated fails: after [AdvertiseServer] was called twice for the
    device [u1], under two service types, the buckets hold two entries
    for [u1], and the first advertisement is in the bucket of its service
    type but not in the device-UUID index. *)
Lemma registry_invariant_counterexample :
  length (entries_of_device advertised_twice "u1") = 2%nat ∧
  in_service_bucket advertised_twice 0 ∧
  ¬ in_device_index advertised_twice 0.
Proof.
  split; [vm_compute; reflexivity|]. split.
  - exists [0%nat]. split; [vm_compute; reflexivity | by left].
  - intros [u Hu]. apply elem_of_map_to_list in Hu.
    assert (map_to_list (deviceIdToServer advertised_twice) = [("u1", 1%nat)]) as Heq
      by (vm_compute; reflexivity).
    rewrite Heq in Hu. apply list_elem_of_singleton in Hu. discriminate Hu.
Qed.

(** * Further properties of the engine *)

Section RegistryProperties.

(** ** [AdvertiseServer] and [RemoveServer] *)

Lemma apply_op_quiet (o : Op) (s : Ssdp) :
  writeChannel (apply_op s o) = writeChannel s ∧
  listener (apply_op s o) = listener s ∧
  listenSearchTargets (apply_op s o) = listenSearchTargets s ∧
  socket (apply_op s o) = socket s ∧
  isRunning (apply_op s o) = isRunning s.
Proof.
  destruct o as [ads|u]; cbn [apply_op].
  - destruct (isRunning s) eqn:Hrun.
    + rewrite AdvertiseServer_running by done. by rewrite <- Hrun.
    + unfold AdvertiseServer. by rewrite Hrun.
  - destruct (isRunning s) eqn:Hrun; [|unfold RemoveServer; by rewrite Hrun].
    destruct (deviceIdToServer s !! u) as [p|] eqn:Hp.
    + rewrite (RemoveServer_running u p) by done. by rewrite <- Hrun.
    + unfold RemoveServer. by rewrite Hrun, Hp.
Qed.

(** X1.  No series of [AdvertiseServer] and [RemoveServer] calls sends a
    datagram, calls the listener, or touches the listen filter, the
    socket or the running flag: an advertisement is announced by its
    timers only, and a removal is announced by nothing. *)
Theorem registry_calls_silent (ops : list Op) :
  ∀ s,
    writeChannel (run ops s) = writeChannel s ∧
    listener (run ops s) = listener s ∧
    listenSearchTargets (run ops s) = listenSearchTargets s ∧
    socket (run ops s) = socket s ∧
    isRunning (run ops s) = isRunning s.
Proof.
  induction ops as [|o ops IH]; intros s; [by repeat split|].
  change (run (o :: ops) s) with (run ops (apply_op s o)).
  destruct (IH (apply_op s o)) as (-> & -> & -> & -> & ->). apply apply_op_quiet.
Qed.

Lemma run_isRunning ops : ∀ s, isRunning (run ops s) = isRunning s.
Proof.
  induction ops as [|o ops IH]; intros s; [reflexivity|].
  cbn [run foldl]. change (foldl apply_op (apply_op s o) ops) with (run ops (apply_op s o)).
  rewrite IH. by destruct (apply_op_quiet o s) as (_ & _ & _ & _ & ->).
Qed.

Lemma RemoveServer_unknown u s :
  deviceIdToServer s !! u = None → RemoveServer u s = s.
Proof. intros H. unfold RemoveServer. rewrite H. by destruct (isRunning s). Qed.

(** X2.  Removing a device a second time changes nothing, whatever the state
    of the engine: after the first call the UUID is unknown. *)
Theorem RemoveServer_idempotent (u : string) (s : Ssdp) :
  deviceIdToServer (RemoveServer u s) !! u = (if isRunning s then None else deviceIdToServer s !! u) ∧
  RemoveServer u (RemoveServer u s) = RemoveServer u s.
Proof.
  destruct (isRunning s) eqn:Hrun.
  - destruct (deviceIdToServer s !! u) as [p|] eqn:Hp.
    + rewrite (RemoveServer_running u p) by done.
      assert (deviceIdToServer (removed u p s) !! u = None) as Hgone
        by (unfold removed; cbn [deviceIdToServer]; apply lookup_delete_eq).
      split; [exact Hgone | by apply RemoveServer_unknown].
    + rewrite (RemoveServer_unknown u s Hp). split; [exact Hp | by apply RemoveServer_unknown].
  - assert (RemoveServer u s = s) as -> by (unfold RemoveServer; by rewrite Hrun).
    split; [reflexivity|]. unfold RemoveServer. by rewrite Hrun.
Qed.

Lemma once_per_server_app ops1 : ∀ ops2 s,
  once_per_server (ops1 ++ ops2) s
  = once_per_server ops1 s && once_per_server ops2 (run ops1 s).
Proof.
  induction ops1 as [|o ops1 IH]; intros ops2 s; [reflexivity|].
  cbn [app once_per_server]. rewrite IH, andb_assoc. reflexivity.
Qed.

Lemma advertised_nonempty ads s : buckets_nonempty s → buckets_nonempty (advertised ads s).
Proof.
  intros Hne svc g Hg. apply advertised_bucket in Hg as [[_ ->]|[_ Hg]]; [|by eapply Hne].
  intros H. apply app_eq_nil in H as [_ H]. discriminate H.
Qed.

Lemma removed_nonempty u p s : buckets_nonempty s → buckets_nonempty (removed u p s).
Proof.
  intros Hne svc g. unfold removed. cbn [advertisableServers]. unfold removed_buckets.
  destruct (advertisableServers s !! ServiceType (deref s p)) as [gp|] eqn:Hgp;
    [|by apply Hne].
  destruct (length gp =? 1)%nat eqn:Hlen.
  { intros [_ H]%lookup_delete_Some. by eapply Hne. }
  destruct (group_index s (DeviceUuid (deref s p)) gp) as [i|] eqn:Hi; [|by apply Hne].
  apply group_index_Some in Hi as (q & Hq & _).
  destruct (decide (svc = ServiceType (deref s p))) as [->|Hsv].
  - rewrite lookup_insert_eq. intros [= <-] Hnil.
    apply (f_equal length) in Hnil. rewrite length_app, length_take, length_drop in Hnil.
    apply lookup_lt_Some in Hq. apply Nat.eqb_neq in Hlen. cbn in Hnil. lia.
  - rewrite lookup_insert_ne by done. by apply Hne.
Qed.

Lemma run_nonempty ops : ∀ s, buckets_nonempty s → buckets_nonempty (run ops s).
Proof.
  induction ops as [|o ops IH]; intros s Hne; [exact Hne|].
  apply IH. destruct o as [ads|u]; cbn [apply_op].
  - destruct (isRunning s) eqn:Hrun.
    + rewrite AdvertiseServer_running by done. by apply advertised_nonempty.
    + unfold AdvertiseServer. by rewrite Hrun.
  - destruct (isRunning s) eqn:Hrun; [|unfold RemoveServer; by rewrite Hrun].
    destruct (deviceIdToServer s !! u) as [p|] eqn:Hp.
    + rewrite (RemoveServer_running u p) by done. by apply removed_nonempty.
    + by rewrite RemoveServer_unknown.
Qed.

Lemma group_index_snoc s u v p :
  (∀ q, q ∈ v → DeviceUuid (deref s q) ≠ u) → DeviceUuid (deref s p) = u →
  group_index s u (v ++ [p])%list = Some (length v).
Proof.
  intros Hv Hp. induction v as [|q v IH].
  - cbn [app group_index length]. by rewrite (proj2 (String.eqb_eq _ _) Hp).
  - cbn [app group_index length].
    rewrite (proj2 (String.eqb_neq _ _) (Hv q ltac:(by left))).
    rewrite IH; [reflexivity|]. intros q' Hq'. apply Hv. by right.
Qed.

(** X3.  [RemoveServer] undoes [AdvertiseServer]: on an engine reached by calls
    that advertise no device twice, advertising a device that is not
    registered and removing it again gives back both indexes as they
    were. *)
Theorem advertise_remove_roundtrip (l : bool) (ops : list Op) (ads : AdvertisableServer) :
  once_per_server (ops ++ [OpAdvertise ads]) (NewSsdp l) = true →
  let s := run ops (NewSsdp l) in
  advertisableServers (RemoveServer (DeviceUuid ads) (AdvertiseServer ads s))
  = advertisableServers s ∧
  deviceIdToServer (RemoveServer (DeviceUuid ads) (AdvertiseServer ads s))
  = deviceIdToServer s.
Proof.
  rewrite once_per_server_app. intros [Honce Hfresh]%andb_true_iff s.
  cbn [once_per_server] in Hfresh. rewrite andb_true_r in Hfresh.
  apply bool_decide_eq_true in Hfresh. fold s in Hfresh.
  assert (registry_consistent s) as Hrc
    by (by apply run_consistent; [apply NewSsdp_consistent|]).
  pose proof Hrc as [Hwf Hkey Hdev Hnd].
  assert (buckets_nonempty s) as Hne.
  { apply run_nonempty. intros svc g. unfold NewSsdp. cbn [advertisableServers].
    by rewrite lookup_empty. }
  assert (isRunning s = true) as Hrun by (unfold s; by rewrite run_isRunning).
  rewrite AdvertiseServer_running by done.
  assert (deviceIdToServer (advertised ads s) !! DeviceUuid ads = Some (length (heap s)))
    as Hp by (unfold advertised; cbn [deviceIdToServer]; apply lookup_insert_eq).
  rewrite (RemoveServer_running _ _ (advertised ads s) Hrun Hp). unfold removed.
  cbn [advertisableServers deviceIdToServer]. split.
  - unfold removed_buckets. rewrite deref_advertised_new. cbn [ServiceType DeviceUuid].
    assert (advertisableServers (advertised ads s)
            = <[ServiceType ads :=
                  (default [] (advertisableServers s !! ServiceType ads) ++
                     [length (heap s)])%list]> (advertisableServers s)) as Hadv
      by reflexivity.
    rewrite !Hadv, lookup_insert_eq.
    destruct (advertisableServers s !! ServiceType ads) as [v|] eqn:Hv;
      cbn [from_option]; unfold id.
    + destruct v as [|q v]; [by destruct (Hne _ _ Hv)|].
      cbn [app length Nat.eqb].
      replace (length (v ++ [length (heap s)]) =? 0)%nat with false
        by (symmetry; apply Nat.eqb_neq; rewrite length_app; cbn; lia).
      change (q :: (v ++ [length (heap s)])%list) with ((q :: v) ++ [length (heap s)])%list.
      rewrite group_index_snoc.
      * rewrite take_app_length.
        replace (S (length (q :: v))) with (length ((q :: v) ++ [length (heap s)])%list)
          by (rewrite length_app; cbn; lia).
        rewrite drop_all, app_nil_r, insert_insert_eq. by apply insert_id.
      * intros q' Hq'. rewrite deref_advertised_old by (by eapply wf_bucket_live).
        intros Heq. pose proof (Hdev _ _ _ Hv Hq') as Hd. rewrite Heq in Hd. congruence.
      * by rewrite deref_advertised_new.
    + cbn [app length Nat.eqb]. rewrite delete_insert_eq. by apply delete_id.
  - unfold advertised. cbn [deviceIdToServer]. rewrite delete_insert_eq. by apply delete_id.
Qed.

Lemma removed_bucket_keeps u p s svc g q :
  registry_consistent s → deviceIdToServer s !! u = Some p →
  advertisableServers s !! svc = Some g → q ∈ g → q ≠ p →
  ∃ g', removed_buckets s (deref s p) !! svc = Some g' ∧ q ∈ g'.
Proof.
  intros [Hwf Hkey Hdev Hnd] Hp Hg Hq Hne.
  pose proof (wf_key s Hwf _ _ Hp) as Hu.
  destruct (wf_bucket s Hwf _ _ Hp) as (gp & Hgp & Hpgp).
  unfold removed_buckets. rewrite Hgp.
  destruct (decide (svc = ServiceType (deref s p))) as [->|Hsv].
  - assert (g = gp) as -> by congruence.
    destruct (length gp =? 1)%nat eqn:Hlen.
    { destruct Hne. by apply (length_one_elem gp). }
    destruct (group_index s (DeviceUuid (deref s p)) gp) as [i|] eqn:Hi; [|eauto].
    apply group_index_Some in Hi as (q0 & Hq0 & Hq0u & _).
    assert (q0 = p) as ->.
    { pose proof (Hdev _ _ _ Hgp (list_elem_of_lookup_2 _ _ _ Hq0)) as Hd.
      rewrite Hq0u, Hu in Hd. congruence. }
    rewrite lookup_insert_eq. eexists. split; [reflexivity|].
    by eapply elem_of_remove_nth.
  - destruct (length gp =? 1)%nat; [rewrite lookup_delete_ne by done; eauto|].
    destruct (group_index s (DeviceUuid (deref s p)) gp) as [i|]; [|eauto].
    rewrite lookup_insert_ne by done. eauto.
Qed.

(** X4.  What [RemoveServer] does to a registered device when the two indexes
    agree: the device leaves the device-UUID index, its advertisement
    leaves the buckets, its two timers are stopped, and every other
    device keeps its place in both indexes. *)
Theorem RemoveServer_removes (u : string) (p : nat) (s : Ssdp) :
  registry_consistent s → isRunning s = true → deviceIdToServer s !! u = Some p →
  deviceIdToServer (RemoveServer u s) !! u = None ∧
  (p ∉ bucket_entries (RemoveServer u s)) ∧
  (∀ u', u' ≠ u → deviceIdToServer (RemoveServer u s) !! u' = deviceIdToServer s !! u') ∧
  (∀ q, q ≠ p → (q ∈ bucket_entries (RemoveServer u s) ↔ q ∈ bucket_entries s)) ∧
  timers_stopped (RemoveServer u s) (deref s p) ∧
  heap (RemoveServer u s) = heap s.
Proof.
  intros Hrc Hrun Hp. pose proof Hrc as [Hwf Hkey Hdev Hnd].
  rewrite (RemoveServer_running u p) by done.
  split; [unfold removed; cbn [deviceIdToServer]; apply lookup_delete_eq|].
  split.
  { intros (svc & g & Hg & Hin)%elem_of_bucket_entries.
    by apply (removed_not_in_bucket u p s svc g Hrc Hp Hg). }
  split.
  { intros u' Hne. unfold removed. cbn [deviceIdToServer]. by apply lookup_delete_ne. }
  split.
  { intros q Hne. rewrite !elem_of_bucket_entries. split.
    - intros (svc & g & Hg & Hin). exists svc.
      exact (removed_bucket_sub s (deref s p) svc g q Hg Hin).
    - intros (svc & g & Hg & Hin). exists svc.
      exact (removed_bucket_keeps u p s svc g q Hrc Hp Hg Hin Hne). }
  split; [|reflexivity].
  pose proof (deref_live s p (wf_live s Hwf u p Hp)) as Ha.
  destruct (wf_timers s Hwf p _ Ha) as (t1 & t3 & Ht1 & Ht3 & Hl1 & Hl3).
  destruct (lookup_lt_is_Some_2 _ _ Hl1) as [tm1 Htm1].
  destruct (lookup_lt_is_Some_2 _ _ Hl3) as [tm3 Htm3].
  exists t1, t3, (timer_stopped tm1), (timer_stopped tm3).
  split; [exact Ht1|]. split; [exact Ht3|].
  unfold removed. cbn [timers]. rewrite !stop_list_lookup, Htm1, Htm3.
  unfold ad_timers. rewrite Ht1, Ht3. cbn [option_list app].
  rewrite !bool_decide_eq_true_2 by set_solver. by repeat split.
Qed.

End RegistryProperties.

(** Two devices advertised, a third one advertised and removed again. *)
Lemma advertise_remove_roundtrip_witness :
  once_per_server ([OpAdvertise ad1; OpAdvertise ad2] ++
                   [OpAdvertise (mkAds "urn:test:svc:1" "u3" "http://h/4" 30 EmptyString
                                   None None)]) (NewSsdp false) = true ∧
  advertisableServers
    (RemoveServer "u3"
       (AdvertiseServer (mkAds "urn:test:svc:1" "u3" "http://h/4" 30 EmptyString None None)
          two_devices))
  = advertisableServers two_devices.
Proof.
  split; [vm_compute; reflexivity|].
  exact (proj1 (advertise_remove_roundtrip false [OpAdvertise ad1; OpAdvertise ad2]
                  (mkAds "urn:test:svc:1" "u3" "http://h/4" 30 EmptyString None None)
                  eq_refl)).
Defined.

(** The first of two devices is removed. *)
Lemma RemoveServer_removes_witness :
  registry_consistent two_devices ∧ isRunning two_devices = true ∧
  deviceIdToServer two_devices !! "u1" = Some 0%nat ∧
  deviceIdToServer (RemoveServer "u1" two_devices) !! "u1" = None ∧
  timers_stopped (RemoveServer "u1" two_devices) (deref two_devices 0).
Proof.
  assert (registry_consistent two_devices) as Hrc
    by (apply run_consistent; [apply NewSsdp_consistent | vm_compute; reflexivity]).
  assert (deviceIdToServer two_devices !! "u1" = Some 0%nat) as Hp
    by (vm_compute; reflexivity).
  split; [exact Hrc|]. split; [reflexivity|]. split; [exact Hp|].
  destruct (RemoveServer_removes "u1" 0 two_devices Hrc eq_refl Hp)
    as (H1 & _ & _ & _ & H5 & _).
  split; [exact H1 | exact H5].
Defined.

Section WireProperties.
Context {E : Env}.

(** ** [createSsdpHeader] *)

Lemma header_lines_end (l : list (string * string)) : ∀ x,
  ∃ body, x +:+ CRLF +:+ header_lines l = body +:+ CRLF.
Proof.
  induction l as [|kv l IH]; intros x.
  - exists x. cbn [header_lines]. by rewrite append_nil_r.
  - cbn [header_lines].
    destruct (IH (x +:+ CRLF +:+ fst kv +:+ ": " +:+ snd kv)) as [body Hbody].
    exists body. rewrite <- Hbody. by rewrite !append_assoc.
Qed.

(** X5.  The datagram [createSsdpHeader] builds is the start line, then one
    line [key: value] for every entry of the header map, each entry once,
    in the order [range] visits them, then an empty line; so every
    datagram ends with two line ends. *)
Theorem createSsdpHeader_format (head : string) (vars : gmap string string)
    (isResponse : bool) :
  env_ok E →
  ∃ entries : list (string * string),
    entries ≡ₚ map_to_list vars ∧
    NoDup (fst <$> entries) ∧
    createSsdpHeader head vars isResponse
    = (if isResponse then "HTTP/1.1 " +:+ head else head +:+ " * HTTP/1.1")
        +:+ CRLF +:+ header_lines entries +:+ CRLF ∧
    ∃ body, createSsdpHeader head vars isResponse = body +:+ CRLF +:+ CRLF.
Proof.
  intros [Hperm _]. exists (range_map vars).
  assert (range_map vars ≡ₚ map_to_list vars) as Hp by apply Hperm.
  split; [exact Hp|]. split.
  { rewrite Hp. apply NoDup_fst_map_to_list. }
  assert (createSsdpHeader head vars isResponse
          = (if isResponse then "HTTP/1.1 " +:+ head else head +:+ " * HTTP/1.1")
              +:+ CRLF +:+ header_lines (range_map vars) +:+ CRLF) as Heq.
  { unfold createSsdpHeader. cbv zeta. rewrite foldl_header_lines.
    destruct isResponse; by rewrite !append_assoc. }
  split; [exact Heq|].
  rewrite Heq.
  set (first := if isResponse then "HTTP/1.1 " +:+ head else head +:+ " * HTTP/1.1").
  destruct (header_lines_end (range_map vars) first) as [body Hbody].
  exists body.
  transitivity ((first +:+ CRLF +:+ header_lines (range_map vars)) +:+ CRLF);
    [by rewrite !append_assoc|].
  rewrite Hbody. by rewrite append_assoc.
Qed.

(** ** Incoming datagrams *)

Lemma same_registry_refl s : same_registry s s.
Proof. by repeat split. Qed.

Lemma only_grows_refl s : only_grows s s.
Proof.
  split.
  - exists []. split; [by rewrite app_nil_r | constructor].
  - destruct (listener s) as [calls|]; [|done]. exists []. by rewrite app_nil_r.
Qed.

Lemma same_registry_trans s1 s2 s3 :
  same_registry s1 s2 → same_registry s2 s3 → same_registry s1 s3.
Proof.
  intros (?&?&?&?&?&?&?) (?&?&?&?&?&?&?). repeat split; congruence.
Qed.

Lemma only_grows_trans s1 s2 s3 :
  only_grows s1 s2 → only_grows s2 s3 → only_grows s1 s3.
Proof.
  intros [(sent1 & Hw1 & Hf1) Hl1] [(sent2 & Hw2 & Hf2) Hl2]. split.
  - exists (sent1 ++ sent2)%list. rewrite Hw2, Hw1, app_assoc.
    split; [reflexivity | by apply Forall_app].
  - destruct (listener s1) as [calls|].
    + destruct Hl1 as [ev1 Hl1]. rewrite Hl1 in Hl2. destruct Hl2 as [ev2 Hl2].
      exists (ev1 ++ ev2)%list. by rewrite Hl2, app_assoc.
    + by rewrite Hl1 in Hl2.
Qed.

Lemma send_step m s :
  shouldExit m = false → same_registry s (send m s) ∧ only_grows s (send m s).
Proof.
  intros Hm. split; [by repeat split|]. split.
  - exists [m]. split; [reflexivity | by constructor].
  - cbn [send listener set_writeChannel]. destruct (listener s) as [calls|]; [|done].
    exists []. by rewrite app_nil_r.
Qed.

Lemma deliver_step e s : same_registry s (deliver e s) ∧ only_grows s (deliver e s).
Proof.
  unfold deliver. destruct (listener s) as [calls|] eqn:Hl.
  - split; [by repeat split|]. split.
    + exists []. split; [by rewrite app_nil_r | constructor].
    + rewrite Hl. by exists [e].
  - split; [apply same_registry_refl | apply only_grows_refl].
Qed.

Lemma respondToMSearch_step d sendTo s :
  same_registry s (respondToMSearch d sendTo s) ∧
  only_grows s (respondToMSearch d sendTo s).
Proof.
  unfold respondToMSearch. cbv zeta. destruct (ResolveUDPAddr sendTo).
  - by apply send_step.
  - split; [apply same_registry_refl | apply only_grows_refl].
Qed.

Lemma respond_bucket_step sendTo (v : list nat) : ∀ s,
  same_registry s (foldl (λ s d, respondToMSearch d sendTo s) s v) ∧
  only_grows s (foldl (λ s d, respondToMSearch d sendTo s) s v).
Proof.
  induction v as [|d v IH]; intros s.
  - split; [apply same_registry_refl | apply only_grows_refl].
  - cbn [foldl]. destruct (respondToMSearch_step d sendTo s) as [H1 H2].
    destruct (IH (respondToMSearch d sendTo s)) as [H3 H4].
    split; [by eapply same_registry_trans | by eapply only_grows_trans].
Qed.

Lemma inMSearch_respond_step st sendTo s :
  same_registry s (inMSearch_respond st sendTo s) ∧
  only_grows s (inMSearch_respond st sendTo s).
Proof.
  unfold inMSearch_respond. destruct (String.eqb st "ssdp:all").
  - generalize (range_map (advertisableServers s)). intros l. revert s.
    induction l as [|kv l IH]; intros s.
    + split; [apply same_registry_refl | apply only_grows_refl].
    + cbn [foldl]. destruct (respond_bucket_step sendTo (snd kv) s) as [H1 H2].
      destruct (IH (foldl (λ s d, respondToMSearch d sendTo s) s (snd kv))) as [H3 H4].
      split; [by eapply same_registry_trans | by eapply only_grows_trans].
  - destruct (deviceIdToServer s !! st); [apply respondToMSearch_step|].
    destruct (advertisableServers s !! st); [apply respond_bucket_step|].
    split; [apply same_registry_refl | apply only_grows_refl].
Qed.

Lemma notify_step req s : same_registry s (notify req s) ∧ only_grows s (notify req s).
Proof.
  unfold notify.
  destruct (listener s);
    repeat match goal with |- context [if ?b then _ else _] => destruct b end;
    try apply deliver_step; split; (apply same_registry_refl || apply only_grows_refl).
Qed.

Lemma parseResponse_step msg hostPort s :
  same_registry s (parseResponse msg hostPort s) ∧
  only_grows s (parseResponse msg hostPort s).
Proof.
  unfold parseResponse.
  destruct (listener s); [destruct (ReadResponse msg)|];
    try apply deliver_step; split; (apply same_registry_refl || apply only_grows_refl).
Qed.

Lemma parseMessage_step msg hostPort s d s' :
  parseMessage msg hostPort s = Some (d, s') → same_registry s s' ∧ only_grows s s'.
Proof.
  assert (same_registry s s ∧ only_grows s s) as Hrefl
    by (split; [apply same_registry_refl | apply only_grows_refl]).
  unfold parseMessage. destruct (HasPrefix msg "HTTP").
  { intros [= _ <-]. apply parseResponse_step. }
  destruct (ReadRequest msg) as [req|]; [|by intros [= _ <-]].
  destruct (String.eqb (http.URLPath req) "*"); [|by intros [= _ <-]].
  unfold parseCommand. destruct (String.eqb (http.Method req) "NOTIFY").
  { intros [= _ <-]. apply notify_step. }
  destruct (String.eqb (http.Method req) "M-SEARCH"); [|by intros [= _ <-]].
  unfold msearch.
  destruct (String.eqb (http.Get (http.ReqHeader req) "MAN") EmptyString);
    [by intros [= _ <-]|].
  destruct (String.eqb (http.Get (http.ReqHeader req) "MX") EmptyString);
    [by intros [= _ <-]|].
  destruct (String.eqb (http.Get (http.ReqHeader req) "ST") EmptyString);
    [by intros [= _ <-]|].
  unfold inMSearch. destruct (inMSearch_st _) as [st|]; [|discriminate].
  cbn [mbind option_bind]. intros [= _ <-]. apply inMSearch_respond_step.
Qed.

(** X6.  Whatever datagrams arrive, the reader leaves both indexes, the
    advertisements, the timers, the listen filter, the socket and the
    running flag as they were; it only adds responses, never the
    sentinel, to the write channel, and events to the calls already made
    on the listener. *)
Theorem socketReader_keeps_registry (datagrams : list (string * string)) :
  ∀ s s', socketReader datagrams s = Some s' → same_registry s s' ∧ only_grows s s'.
Proof.
  induction datagrams as [|[bytes src] rest IH]; intros s s'.
  - intros [= <-]. split; [apply same_registry_refl | apply only_grows_refl].
  - cbn [socketReader]. cbv zeta. destruct (0 <? String.length _)%nat; [|by apply IH].
    destruct (parseMessage _ src s) as [[d s1]|] eqn:Hp; [|discriminate].
    intros Hrest. destruct (parseMessage_step _ _ _ _ _ Hp) as [H1 H2].
    destruct (IH _ _ Hrest) as [H3 H4].
    split; [by eapply same_registry_trans | by eapply only_grows_trans].
Qed.

(** X7.  The handling of a datagram panics in one case only: an M-SEARCH for
    [*] that has [MAN] and [MX] headers and whose search target is one
    double quote or two.  No response, no NOTIFY, no malformed or unknown
    request and no M-SEARCH that lacks a header makes it panic. *)
Theorem parseMessage_panics_iff (msg hostPort : string) (s : Ssdp) :
  parseMessage msg hostPort s = None ↔
  HasPrefix msg "HTTP" = false ∧
  ∃ req, ReadRequest msg = Some req ∧
         http.URLPath req = "*" ∧
         http.Method req = "M-SEARCH" ∧
         http.Get (http.ReqHeader req) "MAN" ≠ EmptyString ∧
         http.Get (http.ReqHeader req) "MX" ≠ EmptyString ∧
         (http.Get (http.ReqHeader req) "ST" = one_quote ∨
          http.Get (http.ReqHeader req) "ST" = two_quotes).
Proof.
  unfold parseMessage. destruct (HasPrefix msg "HTTP").
  { split; [discriminate | by intros [? _]]. }
  destruct (ReadRequest msg) as [req|]; [|split; [discriminate | by intros (_ & ? & ? & _)]].
  destruct (String.eqb_spec (http.URLPath req) "*") as [Hpath|Hpath].
  2: { split; [discriminate|]. intros (_ & r & [= <-] & ? & _). done. }
  unfold parseCommand.
  destruct (String.eqb_spec (http.Method req) "NOTIFY") as [Hn|Hn].
  { split; [discriminate|]. intros (_ & r & [= <-] & _ & Hm & _). congruence. }
  destruct (String.eqb_spec (http.Method req) "M-SEARCH") as [Hm|Hm].
  2: { split; [discriminate|]. intros (_ & r & [= <-] & _ & ? & _). done. }
  unfold msearch.
  destruct (String.eqb_spec (http.Get (http.ReqHeader req) "MAN") EmptyString) as [Hman|Hman].
  { split; [discriminate|]. intros (_ & r & [= <-] & _ & _ & ? & _). done. }
  destruct (String.eqb_spec (http.Get (http.ReqHeader req) "MX") EmptyString) as [Hmx|Hmx].
  { split; [discriminate|]. intros (_ & r & [= <-] & _ & _ & _ & ? & _). done. }
  destruct (String.eqb_spec (http.Get (http.ReqHeader req) "ST") EmptyString) as [Hst|Hst].
  { split; [discriminate|]. intros (_ & r & [= <-] & _ & _ & _ & _ & [H|H]);
      rewrite Hst in H; discriminate H. }
  destruct (http.Get (http.ReqHeader req) "ST") as [|c st] eqn:HST; [done|].
  unfold inMSearch.
  destruct (inMSearch_st (String c st)) as [st'|] eqn:Hun; cbn [mbind option_bind].
  - split; [discriminate|]. intros (_ & r & [= <-] & _ & _ & _ & _ & Hq).
    rewrite HST in Hq. apply inMSearch_st_None in Hq. congruence.
  - split; [|done]. intros _. split; [reflexivity|]. exists req.
    rewrite HST. repeat split; try done. by apply inMSearch_st_None.
Qed.

End WireProperties.

Section DispatchProperties.
Context {E : Env}.

(** ** [notify] *)

(** X8.  With a listener, a NOTIFY makes at most one call on it, and makes one
    exactly when it has an [NT] header and its [NTS] header, lowered by
    [strings.ToLower], reads [ssdp:alive] or [ssdp:byebye]; any other
    NOTIFY leaves the engine as it was, and so does every NOTIFY when
    there is no listener.  For an [NTS] value of ASCII bytes the lowering
    is that of the letters [A] to [Z]; for any other value it is the
    mapping of the Unicode case tables, under which for instance a
    capital I with a dot above (U+0130) becomes [i]. *)
Theorem notify_event_iff (req : http.Request) (s : Ssdp) :
  match listener s with
  | None => notify req s = s
  | Some calls =>
      ((∃ e, listener (notify req s) = Some (calls ++ [e])%list) ↔
       http.Get (http.ReqHeader req) "NT" ≠ EmptyString ∧
       (ToLower (http.Get (http.ReqHeader req) "NTS") = "ssdp:alive" ∨
        ToLower (http.Get (http.ReqHeader req) "NTS") = "ssdp:byebye")) ∧
      ((∃ e, listener (notify req s) = Some (calls ++ [e])%list) ∨ notify req s = s)
  end.
Proof.
  unfold notify. destruct (listener s) as [calls|] eqn:Hl; [|reflexivity].
  assert (∀ e : Event, Some (calls ++ [e])%list ≠ Some calls) as Hneq.
  { intros e [= H]. apply (f_equal length) in H. rewrite length_app in H. cbn in H. lia. }
  destruct (String.eqb_spec (http.Get (http.ReqHeader req) "NTS") EmptyString) as [Hnts|Hnts].
  { rewrite Hnts. split; [|by right]. split.
    - intros [e He]. rewrite Hl in He. by destruct (Hneq e).
    - intros [_ [H|H]]; discriminate H. }
  destruct (String.eqb_spec (http.Get (http.ReqHeader req) "NT") EmptyString) as [Hnt|Hnt].
  { split; [|by right]. split.
    - intros [e He]. rewrite Hl in He. by destruct (Hneq e).
    - by intros [? _]. }
  cbv zeta.
  destruct (String.eqb_spec (ToLower (http.Get (http.ReqHeader req) "NTS")) "ssdp:alive")
    as [Ha|Ha].
  { unfold deliver. rewrite Hl. cbn [listener set_listener].
    split; [|left; eauto]. split; [by auto | eauto]. }
  destruct (String.eqb_spec (ToLower (http.Get (http.ReqHeader req) "NTS")) "ssdp:byebye")
    as [Hb|Hb].
  { unfold deliver. rewrite Hl. cbn [listener set_listener].
    split; [|left; eauto]. split; [by auto | eauto]. }
  split; [|by right]. split.
  - intros [e He]. rewrite Hl in He. by destruct (Hneq e).
  - intros [_ [H|H]]; congruence.
Qed.

(** An [NTS] value that holds a byte above 127 is lowered by the Unicode
    case tables: where these give [ssdp:alive], as they do for
    [ssdp:al] + U+0130 + [ve], the NOTIFY is reported as an alive one. *)
Lemma notify_nts_unicode (req : http.Request) (s : Ssdp) (calls : list Event) :
  listener s = Some calls →
  http.Get (http.ReqHeader req) "NT" ≠ EmptyString →
  isASCII (http.Get (http.ReqHeader req) "NTS") = false →
  unicode_ToLower (http.Get (http.ReqHeader req) "NTS") = "ssdp:alive" →
  ∃ m, listener (notify req s) = Some (calls ++ [NotifyAlive m])%list.
Proof.
  intros Hl Hnt Hascii Hlow. eexists. apply notify_alive_once; [done..|].
  unfold ToLower. by rewrite Hascii.
Qed.

(** ** [AdvertiseServer], then an M-SEARCH for the device *)

(** X9.  Once a device is advertised on a running engine, an M-SEARCH that
    carries [MAN] and [MX] headers and names the device UUID as its
    search target (a UUID that does not start with a double quote and is
    not ["ssdp:all"]) is answered without any pause by exactly one
    response, sent to the searcher, for the advertisement just made, with
    the USN [uuid:<UUID>::<service type>]. *)
Theorem advertise_then_search (ads : AdvertisableServer) (req : http.Request)
    (hostPort addr : string) (c : ascii) (rest : string) (s : Ssdp) :
  isRunning s = true →
  ResolveUDPAddr hostPort = Some addr →
  DeviceUuid ads = String c rest → c ≠ quote → DeviceUuid ads ≠ "ssdp:all" →
  http.Get (http.ReqHeader req) "MAN" ≠ EmptyString →
  http.Get (http.ReqHeader req) "MX" ≠ EmptyString →
  http.Get (http.ReqHeader req) "ST" = DeviceUuid ads →
  ∃ d a,
    Sleep_time d = 0 ∧
    ServiceType a = ServiceType ads ∧ Location a = Location ads ∧
    MaxAge a = MaxAge ads ∧
    usn a = "uuid:" +:+ DeviceUuid ads +:+ "::" +:+ ServiceType ads ∧
    msearch req hostPort (AdvertiseServer ads s)
    = Some (d, send (msearch_response a addr) (AdvertiseServer ads s)).
Proof.
  intros Hrun Hres Huuid Hc Hall Hman Hmx Hst.
  exists (wrap64 (inMSearch_mx req * Second)), (deref (advertised ads s) (length (heap s))).
  split; [apply inMSearch_never_sleeps|].
  rewrite deref_advertised_new. cbn [ServiceType Location MaxAge usn].
  do 4 (split; [reflexivity|]).
  rewrite AdvertiseServer_running by done. unfold msearch.
  rewrite (proj2 (String.eqb_neq _ _) Hman), (proj2 (String.eqb_neq _ _) Hmx), Hst, Huuid.
  cbn [String.eqb]. unfold inMSearch.
  rewrite inMSearch_st_unquoted by (by left). cbn [mbind option_bind].
  rewrite <- Huuid. unfold inMSearch_respond.
  rewrite (proj2 (String.eqb_neq _ _) Hall).
  assert (deviceIdToServer (advertised ads s) !! DeviceUuid ads = Some (length (heap s)))
    as -> by (unfold advertised; cbn [deviceIdToServer]; apply lookup_insert_eq).
  rewrite (respondToMSearch_resolved _ _ addr) by done.
  by rewrite deref_advertised_new.
Qed.

(** ** The pause before the responses *)

(** X10.  On a build whose [int] has 64 bits, the one modelled here
    ([strconv.IntSize = 64]), no datagram holds the reader up: whatever
    arrives, and whatever the [MX] header of an M-SEARCH says, the pause
    made before the responses are sent has length zero.  The width
    matters: with a 32-bit [int] an [MX] above the range leaves
    [2^31 - 1] seconds to sleep (example [ParseInt_32_bit_range]). *)
Theorem datagram_never_pauses (msg hostPort : string) (s : Ssdp) (d : Z) (s' : Ssdp) :
  strconv.IntSize = 64 →
  parseMessage msg hostPort s = Some (d, s') → Sleep_time d = 0.
Proof.
  intros _. unfold parseMessage. destruct (HasPrefix msg "HTTP"); [by intros [= <- _]|].
  destruct (ReadRequest msg) as [req|]; [|by intros [= <- _]].
  destruct (String.eqb (http.URLPath req) "*"); [|by intros [= <- _]].
  unfold parseCommand.
  destruct (String.eqb (http.Method req) "NOTIFY"); [by intros [= <- _]|].
  destruct (String.eqb (http.Method req) "M-SEARCH"); [|by intros [= <- _]].
  unfold msearch.
  destruct (String.eqb (http.Get (http.ReqHeader req) "MAN") EmptyString);
    [by intros [= <- _]|].
  destruct (String.eqb (http.Get (http.ReqHeader req) "MX") EmptyString);
    [by intros [= <- _]|].
  destruct (String.eqb (http.Get (http.ReqHeader req) "ST") EmptyString);
    [by intros [= <- _]|].
  unfold inMSearch. destruct (inMSearch_st _) as [st|]; [|discriminate].
  cbn [mbind option_bind]. intros [= <- _]. apply inMSearch_never_sleeps.
Qed.

(** ** [ListenFor] *)

Lemma ListenFor_running t mcast s :
  isRunning s = true → ResolveUDPAddr multicastHostPort = Some mcast →
  ListenFor t s
  = (None, send (listen_message mcast t)
             (set_listenSearchTargets (<[t := true]> (listenSearchTargets s)) s)).
Proof. intros Hrun Hres. unfold ListenFor. rewrite Hrun. cbn [negb]. cbv zeta. by rewrite Hres. Qed.

(** X11.  On a running engine, a series of [ListenFor] calls puts every target
    of the series in the listen filter and keeps what the filter held,
    sends one M-SEARCH per call, each with [HOST], [ST], [MAN] and
    [MX: 3] headers and the target of its call, to the multicast address
    (each send is made by a goroutine of its own, so the M-SEARCHes are
    given up to their order), and leaves the registry, the timers and the
    calls on the listener alone. *)
Theorem listen_all_spec (targets : list string) :
  ∀ s, env_ok E → isRunning s = true →
  ∃ mcast,
    ResolveUDPAddr multicastHostPort = Some mcast ∧
    (∀ t, listenSearchTargets (listen_all targets s) !! t
          = if bool_decide (t ∈ targets) then Some true else listenSearchTargets s !! t) ∧
    (∃ sent, writeChannel (listen_all targets s) = (writeChannel s ++ sent)%list ∧
             sent ≡ₚ (listen_message mcast <$> targets)) ∧
    advertisableServers (listen_all targets s) = advertisableServers s ∧
    deviceIdToServer (listen_all targets s) = deviceIdToServer s ∧
    heap (listen_all targets s) = heap s ∧
    timers (listen_all targets s) = timers s ∧
    listener (listen_all targets s) = listener s ∧
    isRunning (listen_all targets s) = true.
Proof.
  induction targets as [|t0 targets IH]; intros s HE Hrun.
  - destruct HE as [_ [mcast Hres]]. exists mcast. split; [exact Hres|].
    cbn [listen_all foldl fmap list_fmap].
    split; [|split; [exists []; by rewrite app_nil_r | by repeat split]].
    intros t. by rewrite bool_decide_eq_false_2 by apply not_elem_of_nil.
  - pose proof HE as [_ [mcast0 Hres0]].
    change (listen_all (t0 :: targets) s) with (listen_all targets (snd (ListenFor t0 s))).
    rewrite (ListenFor_running t0 mcast0) by done. cbn [snd].
    set (s1 := send _ _).
    destruct (IH s1 HE Hrun)
      as (mcast & Hres & Hf & (sent & Hw & Hsent) & Ha & Hd & Hh & Ht & Hl & Hr).
    assert (mcast = mcast0) as -> by congruence.
    exists mcast0. split; [exact Hres|]. split.
    { intros t. rewrite Hf. subst s1. cbn [listenSearchTargets send set_writeChannel
                                            set_listenSearchTargets].
      destruct (decide (t ∈ targets)) as [Hin|Hin].
      - rewrite !bool_decide_eq_true_2; [reflexivity | by right | done].
      - rewrite (bool_decide_eq_false_2 (t ∈ targets)) by done.
        destruct (decide (t = t0)) as [->|Hne].
        + rewrite lookup_insert_eq. by rewrite bool_decide_eq_true_2 by (by left).
        + rewrite lookup_insert_ne by done.
          rewrite bool_decide_eq_false_2; [reflexivity|].
          intros [?|?]%elem_of_cons; [congruence | contradiction]. }
    split.
    { exists (listen_message mcast0 t0 :: sent). split.
      - rewrite Hw. subst s1.
        cbn [writeChannel send set_writeChannel set_listenSearchTargets].
        by rewrite <- app_assoc.
      - by rewrite fmap_cons, Hsent. }
    by rewrite Ha, Hd, Hh, Ht, Hl, Hr.
Qed.

End DispatchProperties.

Section LifecycleProperties.
Context {E : Env}.

(** ** [Stop] and the writer *)

Lemma Stop_socket s : socket (Stop s) = false.
Proof.
  unfold Stop. cbv zeta. cbn [socket set_isRunning].
  destruct (socket s) eqn:Hs; [reflexivity | exact Hs].
Qed.

Lemma set_isRunning_id b s : isRunning s = b → set_isRunning b s = s.
Proof. intros <-. by destruct s. Qed.

(** X12.  [Stop] is idempotent: a second call finds the socket gone and changes
    nothing, so it sends neither a byebye nor a second sentinel. *)
Theorem Stop_idempotent (s : Ssdp) :
  socket (Stop s) = false ∧ Stop (Stop s) = Stop s.
Proof.
  split; [apply Stop_socket|].
  unfold Stop at 1. cbv zeta. cbn [socket set_isRunning].
  rewrite Stop_socket. fold (set_isRunning false (Stop s)).
  apply set_isRunning_id, Stop_not_running.
Qed.

(** The write channel after [Stop] on an engine whose socket is open. *)
Lemma Stop_writeChannel s mcast :
  (∀ A (l : list A), range_order A l ≡ₚ l) → engine_wf s → socket s = true →
  ResolveUDPAddr multicastHostPort = Some mcast →
  writeChannel (Stop s)
  = (writeChannel s ++
       ((λ p, byebye (deref s p) mcast) <$> (snd <$> range_map (deviceIdToServer s))) ++
       [sentinel])%list.
Proof.
  intros Hperm Hwf Hsock Hr.
  assert (Stop s = set_socket false (send sentinel (advertiseClosed (set_isRunning false s))))
    as ->.
  { unfold Stop. cbv zeta. cbn [socket set_isRunning advertisableServers]. rewrite Hsock.
    fold (set_isRunning false s).
    replace (mkSsdp (advertisableServers s) (deviceIdToServer s) (heap s) (timers s) true
               (listener s) (listenSearchTargets s) (writeChannel s) false)
      with (set_isRunning false s)
      by (destruct s; cbn in *; by subst).
    by rewrite Stop_guard. }
  unfold advertiseClosed. rewrite (advertiseClosed_fold mcast) by done.
  cbn [writeChannel set_socket send set_writeChannel set_isRunning deviceIdToServer].
  by rewrite <- list_fmap_compose, <- app_assoc.
Qed.

Lemma socketWriter_app l1 l2 :
  Forall (λ m, shouldExit m = false) l1 →
  socketWriter (l1 ++ l2) = (socketWriter l1 ++ socketWriter l2)%list.
Proof.
  induction 1 as [|m l1 Hm _ IH]; [reflexivity|].
  cbn [app socketWriter]. by rewrite Hm, IH.
Qed.

Lemma socketWriter_all l :
  Forall (λ m, shouldExit m = false) l →
  socketWriter l = (λ m, (message m, to m)) <$> l.
Proof.
  induction 1 as [|m l Hm _ IH]; [reflexivity|].
  cbn [socketWriter]. by rewrite Hm, IH.
Qed.

(** X13.  [Stop] drains the writer: with no sentinel sent before, the writer
    writes all that was sent before [Stop], then one byebye for each
    registered device, and then exits, so that nothing sent after [Stop]
    is ever written to the socket. *)
Theorem Stop_drains_writer (s : Ssdp) :
  env_ok E → engine_wf s → socket s = true →
  Forall (λ m, shouldExit m = false) (writeChannel s) →
  ∃ (ads : list nat) (mcast : string),
    ads ≡ₚ (snd <$> map_to_list (deviceIdToServer s)) ∧
    ∀ later : list writeMessage,
      socketWriter (writeChannel (Stop s) ++ later)
      = (((λ m, (message m, to m)) <$> writeChannel s) ++
         ((λ p, (message (byebye (deref s p) mcast), Some mcast)) <$> ads))%list.
Proof.
  intros [Hperm [mcast Hr]] Hwf Hsock Hclean.
  exists (snd <$> range_map (deviceIdToServer s)), mcast.
  split; [unfold range_map; by rewrite Hperm|].
  intros later. rewrite (Stop_writeChannel s mcast) by done.
  rewrite <- !app_assoc. rewrite socketWriter_app by done.
  rewrite socketWriter_all by done. f_equal.
  rewrite socketWriter_app by (apply Forall_fmap, Forall_true; by intros).
  rewrite socketWriter_all by (apply Forall_fmap, Forall_true; by intros).
  cbn [app socketWriter sentinel shouldExit]. rewrite app_nil_r.
  by rewrite <- list_fmap_compose.
Qed.

(** ** The timers of an advertisement *)

Lemma wrap64_small z : - 2 ^ 63 <= z < 2 ^ 63 → wrap64 z = z.
Proof. intros H. unfold wrap64. rewrite Z.mod_small; lia. Qed.

Lemma advertiseServer_alive ad mcast s :
  ResolveUDPAddr multicastHostPort = Some mcast →
  advertiseServer ad true s = send (alive (deref s ad) mcast) s.
Proof. intros H. unfold advertiseServer. cbv zeta. by rewrite H. Qed.

(** X14.  The two timers [AdvertiseServer] starts: for a max-age between [0]
    and [9223372033] seconds, each, when it goes off, sends one alive
    NOTIFY for the advertisement and is reset to go off again after its
    first delay (1 s, 3 s) plus max-age seconds, that is, after the
    advertisement has expired; and once [RemoveServer] has run for the
    device, both are stopped (a timer function already running when
    [RemoveServer] is called is not part of this sequential account). *)
Theorem advertise_timers (ads : AdvertisableServer) (s : Ssdp) :
  env_ok E → isRunning s = true → 0 <= MaxAge ads <= 9223372033 →
  ∃ mcast a,
    usn a = "uuid:" +:+ DeviceUuid ads +:+ "::" +:+ ServiceType ads ∧
    ServiceType a = ServiceType ads ∧ Location a = Location ads ∧
    MaxAge a = MaxAge ads ∧
    timer_fire (length (timers s)) (AdvertiseServer ads s)
    = Some ((1 + MaxAge ads) * Second, send (alive a mcast) (AdvertiseServer ads s)) ∧
    timer_fire (S (length (timers s))) (AdvertiseServer ads s)
    = Some ((3 + MaxAge ads) * Second, send (alive a mcast) (AdvertiseServer ads s)) ∧
    timer_fire (length (timers s)) (RemoveServer (DeviceUuid ads) (AdvertiseServer ads s))
    = None ∧
    timer_fire (S (length (timers s))) (RemoveServer (DeviceUuid ads) (AdvertiseServer ads s))
    = None.
Proof.
  intros [_ [mcast Hr]] Hrun Hage.
  exists mcast, (deref (advertised ads s) (length (heap s))).
  rewrite deref_advertised_new. cbn [usn ServiceType Location MaxAge].
  do 4 (split; [reflexivity|]).
  rewrite AdvertiseServer_running by done.
  assert (timers (advertised ads s) !! length (timers s)
          = Some (mkTimer (length (heap s)) (1 * Second) (MaxAge ads) true)) as Ht1.
  { unfold advertised. cbn [timers]. by rewrite list_lookup_middle. }
  assert (timers (advertised ads s) !! S (length (timers s))
          = Some (mkTimer (length (heap s)) (3 * Second) (MaxAge ads) true)) as Ht3.
  { unfold advertised. cbn [timers].
    rewrite lookup_app_r by lia. by replace (S (length (timers s)) - length (timers s))%nat
      with 1%nat by lia. }
  assert (deviceIdToServer (advertised ads s) !! DeviceUuid ads = Some (length (heap s)))
    as Hp by (unfold advertised; cbn [deviceIdToServer]; apply lookup_insert_eq).
  split; [|split; [|split]].
  - unfold timer_fire. rewrite Ht1. cbn [t_active t_d t_age t_ads].
    rewrite (advertiseServer_alive _ mcast) by done. rewrite deref_advertised_new.
    unfold Second in *. rewrite (wrap64_small (MaxAge ads * 1000000000)) by lia.
    rewrite wrap64_small by lia. do 2 f_equal. lia.
  - unfold timer_fire. rewrite Ht3. cbn [t_active t_d t_age t_ads].
    rewrite (advertiseServer_alive _ mcast) by done. rewrite deref_advertised_new.
    unfold Second in *. rewrite (wrap64_small (MaxAge ads * 1000000000)) by lia.
    rewrite wrap64_small by lia. do 2 f_equal. lia.
  - rewrite (RemoveServer_running _ _ (advertised ads s) Hrun Hp).
    unfold timer_fire, removed. cbn [timers]. rewrite deref_advertised_new.
    rewrite stop_list_lookup, Ht1. unfold ad_timers. cbn [lastTimer last3sTimer option_list app].
    by rewrite bool_decide_eq_true_2 by (by left).
  - rewrite (RemoveServer_running _ _ (advertised ads s) Hrun Hp).
    unfold timer_fire, removed. cbn [timers]. rewrite deref_advertised_new.
    rewrite stop_list_lookup, Ht3. unfold ad_timers. cbn [lastTimer last3sTimer option_list app].
    by rewrite bool_decide_eq_true_2 by (right; by left).
Qed.

End LifecycleProperties.

Section RoundTrips.
Context {E : Env}.

(** ** What a peer makes of the datagrams the engine sends *)

Lemma occurs_negative ds :
  all_digits ds = true → regexp.occurs ("max-age=" +:+ String "-" ds) = false.
Proof.
  intros Hds.
  assert (regexp.occurs ("ax-age=" +:+ String "-" ds) = false) as Htail.
  { do 7 (match goal with
          | |- regexp.occurs (String ?c ?r +:+ ?t) = false =>
              change (String c r +:+ t) with (String c (r +:+ t));
              cbn [regexp.occurs]; rewrite literal_at_not_m by reflexivity
          end).
    change (EmptyString +:+ String "-" ds) with (String "-" ds).
    cbn [regexp.occurs]. rewrite literal_at_not_m by reflexivity.
    rewrite <- (append_nil_r ds). by rewrite occurs_digits. }
  change ("max-age=" +:+ String "-" ds) with (String "m" ("ax-age=" +:+ String "-" ds)).
  cbn [regexp.occurs].
  change (String "m" ("ax-age=" +:+ String "-" ds)) with ("max-age=" +:+ String "-" ds).
  unfold regexp.literal_at.
  change (HasPrefix ("max-age=" +:+ String "-" ds) "max-age=") with true.
  change (skip 8 ("max-age=" +:+ String "-" ds)) with (String "-" ds).
  cbn [regexp.span_digits]. change (is_digit "-") with false. cbv iota beta.
  exact Htail.
Qed.

(** The max-age a peer reads from [max-age=%d]: the number itself, or
    [-1] when it is negative. *)
Lemma maxAge_body_Itoa n :
  n < 2 ^ 63 →
  (if String.eqb ("max-age=" +:+ strconv.Itoa n) EmptyString then -1
   else match regexp.FindStringSubmatch ("max-age=" +:+ strconv.Itoa n) with
        | [_; g] => match strconv.ParseInt g 0 with
                    | (v, None) => v
                    | (_, Some _) => -1
                    end
        | _ => -1
        end) = (if 0 <=? n then n else -1).
Proof.
  intros Hn. destruct (Z.leb_spec 0 n) as [H0|H0].
  - pose proof (maxAge_body_roundtrip EmptyString EmptyString n (conj H0 Hn)
                  eq_refl eq_refl eq_refl) as H.
    cbv zeta in H. rewrite append_nil_r in H. exact H.
  - apply maxAge_body_absent. right. unfold strconv.Itoa.
    replace (n <? 0) with true by (symmetry; apply Z.ltb_lt; lia).
    apply occurs_negative, utoa_digits. lia.
Qed.

Lemma deviceId_of_usn X Y :
  contains_byte colon X = false → notify_deviceId ("uuid:" +:+ X +:+ "::" +:+ Y) = X.
Proof.
  intros HX. rewrite notify_deviceId_parts.
  change ("uuid:" +:+ X +:+ "::" +:+ Y) with ("uuid" +:+ String colon (X +:+ "::" +:+ Y)).
  rewrite Split_app by reflexivity.
  change (X +:+ "::" +:+ Y) with (X +:+ String colon (String colon Y)).
  rewrite Split_app by assumption.
  cbn [Split]. rewrite Ascii.eqb_refl.
  pose proof (Split_nonempty Y colon). by destruct (Split Y colon).
Qed.

(** X15.  Advertise, then observe: a NOTIFY request that carries the header
    values of the alive datagram of an advertisement, but for [HOST],
    which [http.ReadRequest] takes out of the header map, when the
    advertisement has a service type, a UUID free of colons, the USN
    [AdvertiseServer] gives and a max-age below [2^63], reaches the
    listener of the receiving engine as one alive event with the service
    type, the UUID, the USN, the location and the server name of the
    advertisement, and with its max-age, or [-1] if that is negative. *)
Theorem alive_observed (a : AdvertisableServer) (req : http.Request) (s : Ssdp)
    (calls : list Event) :
  listener s = Some calls →
  ServiceType a ≠ EmptyString →
  contains_byte colon (DeviceUuid a) = false →
  usn a = "uuid:" +:+ DeviceUuid a +:+ "::" +:+ ServiceType a →
  MaxAge a < 2 ^ 63 →
  (∀ k v, k ≠ "HOST" → advertiseServer_heads a true !! k = Some v →
          http.Get (http.ReqHeader req) k = v) →
  listener (notify req s)
  = Some (calls ++
            [NotifyAlive
               (mkAlive (ServiceType a) (DeviceUuid a) (usn a) (Location a)
                  (if 0 <=? MaxAge a then MaxAge a else -1) serverName req)])%list.
Proof.
  intros Hl Hsvc Huuid Husn Hage Hreq.
  assert (http.Get (http.ReqHeader req) "NT" = ServiceType a) as Hnt
    by (apply Hreq; [done | vm_compute; reflexivity]).
  assert (http.Get (http.ReqHeader req) "NTS" = "ssdp:alive") as Hnts
    by (apply Hreq; [done | vm_compute; reflexivity]).
  assert (http.Get (http.ReqHeader req) "USN" = usn a) as Hu
    by (apply Hreq; [done | vm_compute; reflexivity]).
  assert (http.Get (http.ReqHeader req) "LOCATION" = Location a) as Hloc
    by (apply Hreq; [done | vm_compute; reflexivity]).
  assert (http.Get (http.ReqHeader req) "SERVER" = serverName) as Hsrv
    by (apply Hreq; [done | unfold advertiseServer_heads; apply lookup_insert_eq]).
  assert (http.Get (http.ReqHeader req) "CACHE-CONTROL"
          = "max-age=" +:+ strconv.Itoa (MaxAge a)) as Hcc.
  { apply Hreq; [done|]. unfold advertiseServer_heads. cbv zeta.
    rewrite lookup_insert_ne by done. apply lookup_insert_eq. }
  rewrite (notify_alive_once req s calls Hl) by (rewrite ?Hnt, ?Hnts; done).
  rewrite Hnt, Hu, Hloc, Hsrv, notify_maxAge_unfold. cbv zeta. rewrite Hcc.
  rewrite maxAge_body_Itoa by done.
  by rewrite Husn at 1; rewrite deviceId_of_usn by done.
Qed.

(** X16.  Search, then observe: a response that carries the header values of
    the response [respondToMSearch] builds for an advertisement, under
    the same conditions on the UUID, the USN and the max-age, reaches the
    listener as one response event with the data of the advertisement,
    whether or not its search target is in the listen filter. *)
Theorem response_observed (a : AdvertisableServer) (msg hostPort : string)
    (resp : http.Response) (s : Ssdp) (calls : list Event) :
  listener s = Some calls →
  ReadResponse msg = Some resp →
  contains_byte colon (DeviceUuid a) = false →
  usn a = "uuid:" +:+ DeviceUuid a +:+ "::" +:+ ServiceType a →
  MaxAge a < 2 ^ 63 →
  (∀ k v, response_heads a !! k = Some v → http.Get (http.RespHeader resp) k = v) →
  listener (parseResponse msg hostPort s)
  = Some (calls ++
            [Response
               (mkResponseMessage (if 0 <=? MaxAge a then MaxAge a else -1)
                  (ServiceType a) (DeviceUuid a) (usn a) (Location a) serverName resp)])%list.
Proof.
  intros Hl Hread Huuid Husn Hage Hresp.
  assert (http.Get (http.RespHeader resp) "ST" = ServiceType a) as Hst
    by (apply Hresp; unfold response_heads; apply lookup_insert_eq).
  assert (http.Get (http.RespHeader resp) "USN" = usn a) as Hu.
  { apply Hresp. unfold response_heads.
    rewrite lookup_insert_ne by done. apply lookup_insert_eq. }
  assert (http.Get (http.RespHeader resp) "LOCATION" = Location a) as Hloc.
  { apply Hresp. unfold response_heads.
    do 2 rewrite lookup_insert_ne by done. apply lookup_insert_eq. }
  assert (http.Get (http.RespHeader resp) "CACHE-CONTROL"
          = "max-age=" +:+ strconv.Itoa (MaxAge a)) as Hcc.
  { apply Hresp. unfold response_heads.
    do 3 rewrite lookup_insert_ne by done. apply lookup_insert_eq. }
  assert (http.Get (http.RespHeader resp) "SERVER" = serverName) as Hsrv.
  { apply Hresp. unfold response_heads.
    do 5 rewrite lookup_insert_ne by done. apply lookup_insert_eq. }
  unfold parseResponse. rewrite Hl, Hread. cbv zeta. unfold deliver. rewrite Hl.
  cbn [listener set_listener].
  rewrite Hst, Hu, Hloc, Hsrv, parseResponse_maxAge_unfold. cbv zeta. rewrite Hcc.
  rewrite maxAge_body_Itoa by done. rewrite parseResponse_deviceId_eq.
  by rewrite Husn at 1; rewrite deviceId_of_usn by done.
Qed.

Lemma msearch_response_heads a addr :
  msearch_response a addr
  = mkWrite (Some (createSsdpHeader "200 OK" (response_heads a) true)) (Some addr) false.
Proof. reflexivity. Qed.

End RoundTrips.

(** ** [createSocket] and [NewSsdpWithLogger] *)

Lemma hasRealAddress_existsb unspecified ef :
  hasRealAddress unspecified ef = existsb (λ a, negb (unspecified a)) ef.
Proof.
  induction ef as [|a ef IH]; [reflexivity|].
  cbn [hasRealAddress existsb]. rewrite IH. by destruct (unspecified a).
Qed.

Lemma createSocket_visit_joinable n acc iv :
  createSocket_visit n acc iv
  = if joinable n (snd iv) then (true, (snd acc ++ [fst iv])%list) else acc.
Proof.
  unfold createSocket_visit, joinable. destruct (if_Addrs (snd iv)) as [ef|]; [|reflexivity].
  rewrite hasRealAddress_existsb.
  destruct (existsb _ ef); [|reflexivity]. by destruct (if_JoinGroup (snd iv)).
Qed.

Lemma createSocket_loop n (l : list (nat * Interface)) : ∀ b j,
  foldl (createSocket_visit n) (b, j) l
  = (b || existsb (λ iv, joinable n (snd iv)) l,
     (j ++ (fst <$> filter (λ iv, joinable n (snd iv)) l))%list).
Proof.
  induction l as [|iv l IH]; intros b j.
  - cbn. by rewrite orb_false_r, app_nil_r.
  - cbn [foldl existsb]. rewrite createSocket_visit_joinable. cbn [snd].
    destruct (joinable n (snd iv)) eqn:Hj.
    + rewrite IH. rewrite filter_cons_True by (apply Is_true_true; exact Hj).
      rewrite fmap_cons, <- app_assoc. cbn [orb app]. by rewrite orb_true_r.
    + rewrite IH. rewrite filter_cons_False; [reflexivity|].
      intros H. apply Is_true_true in H. cbn [snd] in H. congruence.
Qed.

(** X17.  On a machine where [net.Interfaces] and [net.ListenPacket] succeed,
    [createSocket] joins the multicast group on exactly the interfaces
    whose addresses can be read, that have an address which is not
    unspecified, and on which [JoinGroup] succeeds; it fails with the
    no-compatible-interface error exactly when there is none, and
    [NewSsdpWithLogger] then returns no engine; otherwise the engine
    returned is running, with an empty registry and an empty filter. *)
Theorem createSocket_joins (n : Net) (ifs : list Interface) (l : bool) :
  net_Interfaces n = Some ifs → net_ListenPacket n = true →
  match createSocket n with
  | inr joined =>
      (∀ i, i ∈ joined ↔ ∃ v, ifs !! i = Some v ∧ joinable n v = true) ∧
      NoDup joined ∧ joined ≠ [] ∧
      NewSsdpWithLogger n l = inr (NewSsdp l)
  | inl err =>
      err = NoCompatibleInterface ∧
      (∀ v, v ∈ ifs → joinable n v = false) ∧
      NewSsdpWithLogger n l = inl NoCompatibleInterface
  end.
Proof.
  intros Hifs Hlisten.
  assert (createSocket n
          = if existsb (λ iv, joinable n (snd iv)) (imap pair ifs)
            then inr (fst <$> filter (λ iv, joinable n (snd iv)) (imap pair ifs))
            else inl NoCompatibleInterface) as Hcs.
  { unfold createSocket. rewrite Hifs, Hlisten. cbn [negb]. cbv zeta.
    rewrite createSocket_loop. cbn [fst snd orb app].
    by destruct (existsb _ _). }
  unfold NewSsdpWithLogger. rewrite Hcs.
  destruct (existsb _ (imap pair ifs)) eqn:Hex.
  - assert (∀ i, i ∈ fst <$> filter (λ iv, joinable n (snd iv)) (imap pair ifs) ↔
                 ∃ v, ifs !! i = Some v ∧ joinable n v = true) as Hmem.
    { intros i. rewrite list_elem_of_fmap. split.
      - intros ([i' v] & -> & [Hj Hin]%list_elem_of_filter).
        apply elem_of_lookup_imap in Hin as (k & y & [= -> ->] & Hk).
        exists y. split; [done|]. by apply Is_true_true.
      - intros (v & Hv & Hj). exists (i, v). split; [done|].
        apply list_elem_of_filter. split; [by apply Is_true_true|].
        apply elem_of_lookup_imap. eauto. }
    split; [exact Hmem|]. split.
    { apply NoDup_fmap_2_strong; [|apply NoDup_filter].
      - intros [i1 v1] [i2 v2] [_ H1]%list_elem_of_filter [_ H2]%list_elem_of_filter Heq.
        cbn in Heq. subst i2.
        apply elem_of_lookup_imap in H1 as (k1 & y1 & [= -> ->] & Hk1).
        apply elem_of_lookup_imap in H2 as (k2 & y2 & [= -> ->] & Hk2).
        congruence.
      - apply NoDup_alt. intros i j [k v] Hi Hj.
        rewrite list_lookup_imap in Hi, Hj.
        destruct (ifs !! i); [|discriminate]. destruct (ifs !! j); [|discriminate].
        cbn in Hi, Hj. congruence. }
    split; [|reflexivity].
    apply existsb_exists in Hex as ([i v] & Hin & Hj).
    intros Hnil. apply (not_elem_of_nil i). rewrite <- Hnil. apply Hmem.
    apply list_elem_of_In, elem_of_lookup_imap in Hin as (k & y & [= -> ->] & Hk). eauto.
  - split; [reflexivity|]. split; [|reflexivity].
    intros v [i Hi]%list_elem_of_lookup.
    destruct (joinable n v) eqn:Hj; [|reflexivity].
    assert (existsb (λ iv, joinable n (snd iv)) (imap pair ifs) = true) as Hcontra.
    { apply existsb_exists. exists (i, v). split; [|exact Hj].
      apply list_elem_of_In, elem_of_lookup_imap. eauto. }
    congruence.
Qed.

(** ** The timers of the registered devices *)

Section TimerProperties.
Context {E : Env}.

Lemma NewSsdp_timers_live l : timers_live (NewSsdp l).
Proof.
  split; unfold NewSsdp; cbn [timers heap deviceIdToServer].
  - reflexivity.
  - intros p a H. by rewrite lookup_nil in H.
  - intros p tm [H|H]; by rewrite lookup_nil in H.
  - intros u p tm H. by rewrite lookup_empty in H.
Qed.

Lemma advertised_timers_live ads s :
  engine_wf s → timers_live s → timers_live (advertised ads s).
Proof.
  intros Hwf [Hlen Hrefs Hown Hact].
  assert (timers (advertised ads s) !! (2 * length (heap s))%nat
          = Some (mkTimer (length (heap s)) (1 * Second) (MaxAge ads) true)) as Hnew1.
  { unfold advertised. cbn [timers]. rewrite <- Hlen. by rewrite list_lookup_middle. }
  assert (timers (advertised ads s) !! S (2 * length (heap s))
          = Some (mkTimer (length (heap s)) (3 * Second) (MaxAge ads) true)) as Hnew3.
  { unfold advertised. cbn [timers]. rewrite <- Hlen. rewrite lookup_app_r by lia.
    by replace (S (length (timers s)) - length (timers s))%nat with 1%nat by lia. }
  assert (∀ t, (t < length (timers s))%nat →
               timers (advertised ads s) !! t = timers s !! t) as Hold.
  { intros t Ht. unfold advertised. cbn [timers]. by rewrite lookup_app_l. }
  assert (length (timers (advertised ads s)) = (2 + length (timers s))%nat) as Hlen'.
  { unfold advertised. cbn [timers]. rewrite length_app. cbn [length]. lia. }
  split.
  - rewrite Hlen'. unfold advertised. cbn [heap]. rewrite length_app. cbn [length]. lia.
  - intros p a Ha. unfold advertised in Ha. cbn [heap] in Ha.
    apply lookup_app_Some in Ha as [Ha|[Hge Ha]]; [by apply Hrefs|].
    apply list_lookup_singleton_Some in Ha as [Hp <-]. cbn [lastTimer last3sTimer].
    assert (p = length (heap s)) as -> by lia. by rewrite Hlen.
  - intros p tm Htm.
    destruct (decide (p < length (heap s))%nat) as [Hlt|Hge].
    { rewrite !Hold in Htm by lia. by apply Hown. }
    destruct (decide (p = length (heap s))) as [->|Hne].
    { rewrite Hnew1, Hnew3 in Htm. by destruct Htm as [[= <-]|[= <-]]. }
    exfalso. destruct Htm as [Htm|Htm]; apply lookup_lt_Some in Htm; lia.
  - intros u p tm Hp Htm. unfold advertised in Hp. cbn [deviceIdToServer] in Hp.
    apply lookup_insert_Some in Hp as [[_ <-]|[Hne Hp]].
    { rewrite Hnew1, Hnew3 in Htm. by destruct Htm as [[= <-]|[= <-]]. }
    pose proof (wf_live s Hwf u p Hp) as Hlt.
    rewrite !Hold in Htm by lia. by eapply Hact.
Qed.

Lemma removed_timers_live u p s :
  engine_wf s → timers_live s → deviceIdToServer s !! u = Some p →
  timers_live (removed u p s).
Proof.
  intros Hwf [Hlen Hrefs Hown Hact] Hp.
  pose proof (deref_live s p (wf_live s Hwf u p Hp)) as Ha.
  destruct (Hrefs p _ Ha) as [Ht1 Ht3].
  assert (ad_timers (deref s p) = [(2 * p)%nat; S (2 * p)]) as Hads
    by (unfold ad_timers; by rewrite Ht1, Ht3).
  split.
  - unfold removed. cbn [timers heap]. by rewrite stop_list_length.
  - intros q a. unfold removed. cbn [heap]. apply Hrefs.
  - intros q tm. unfold removed. cbn [timers]. rewrite !stop_list_lookup.
    intros [Htm|Htm].
    + destruct (timers s !! (2 * q)%nat) as [tm0|] eqn:H0; [|discriminate].
      cbn in Htm. injection Htm as <-.
      rewrite <- (Hown q tm0 (or_introl H0)). by destruct (bool_decide _).
    + destruct (timers s !! S (2 * q)) as [tm0|] eqn:H0; [|discriminate].
      cbn in Htm. injection Htm as <-.
      rewrite <- (Hown q tm0 (or_intror H0)). by destruct (bool_decide _).
  - intros u' q tm Hq Htm. unfold removed in Hq, Htm. cbn [deviceIdToServer timers] in Hq, Htm.
    apply lookup_delete_Some in Hq as [Hne Hq].
    assert (q ≠ p) as Hqp.
    { intros ->. pose proof (wf_key s Hwf u p Hp). pose proof (wf_key s Hwf u' p Hq).
      congruence. }
    assert (∀ t, t = (2 * q)%nat ∨ t = S (2 * q) → t ∉ ad_timers (deref s p)) as Hnot.
    { intros t Ht Hin. rewrite Hads in Hin.
      apply elem_of_cons in Hin as [?|Hin]; [lia|].
      apply elem_of_cons in Hin as [?|Hin]; [lia|]. by apply elem_of_nil in Hin. }
    rewrite !stop_list_lookup in Htm.
    rewrite !bool_decide_eq_false_2 in Htm by (apply Hnot; auto).
    destruct Htm as [Htm|Htm].
    + destruct (timers s !! (2 * q)%nat) as [tm0|] eqn:H0; [|discriminate].
      cbn in Htm. injection Htm as <-. by apply (Hact u' q tm0 Hq (or_introl H0)).
    + destruct (timers s !! S (2 * q)) as [tm0|] eqn:H0; [|discriminate].
      cbn in Htm. injection Htm as <-. by apply (Hact u' q tm0 Hq (or_intror H0)).
Qed.

Lemma run_timers_live ops : ∀ s, engine_wf s → timers_live s → timers_live (run ops s).
Proof.
  induction ops as [|o ops IH]; intros s Hwf Htl; [exact Htl|].
  apply IH; [by apply apply_op_wf|].
  destruct o as [ads|u]; cbn [apply_op].
  - destruct (isRunning s) eqn:Hrun.
    + rewrite AdvertiseServer_running by done. by apply advertised_timers_live.
    + unfold AdvertiseServer. by rewrite Hrun.
  - destruct (isRunning s) eqn:Hrun; [|unfold RemoveServer; by rewrite Hrun].
    destruct (deviceIdToServer s !! u) as [p|] eqn:Hp.
    + rewrite (RemoveServer_running u p) by done. by apply removed_timers_live.
    + unfold RemoveServer. by rewrite Hrun, Hp.
Qed.

(** X18.  Whatever [AdvertiseServer] and [RemoveServer] calls were made on a new
    engine, also calls that advertise one device twice, every device of
    the device-UUID index points to an advertisement with that UUID and
    the USN [uuid:<UUID>::<service type>], which is in the bucket of its
    service type and has two different timers, both running: each, when
    it goes off, sends the alive NOTIFY of that very advertisement. *)
Theorem registered_device_announced (l : bool) (ops : list Op) (u : string) (p : nat) :
  env_ok E →
  deviceIdToServer (run ops (NewSsdp l)) !! u = Some p →
  ∃ a t1 t3 mcast d1 d3,
    heap (run ops (NewSsdp l)) !! p = Some a ∧
    DeviceUuid a = u ∧
    usn a = "uuid:" +:+ u +:+ "::" +:+ ServiceType a ∧
    in_service_bucket (run ops (NewSsdp l)) p ∧
    lastTimer a = Some t1 ∧ last3sTimer a = Some t3 ∧ t1 ≠ t3 ∧
    timer_fire t1 (run ops (NewSsdp l))
    = Some (d1, send (alive a mcast) (run ops (NewSsdp l))) ∧
    timer_fire t3 (run ops (NewSsdp l))
    = Some (d3, send (alive a mcast) (run ops (NewSsdp l))).
Proof.
  intros [_ [mcast Hr]] Hp.
  pose proof (run_engine_wf l ops) as Hwf.
  assert (timers_live (run ops (NewSsdp l))) as [Hlen Hrefs Hown Hact]
    by (apply run_timers_live; [apply NewSsdp_consistent | apply NewSsdp_timers_live]).
  set (s := run ops (NewSsdp l)) in *.
  pose proof (wf_live s Hwf u p Hp) as Hlt.
  pose proof (deref_live s p Hlt) as Ha.
  destruct (Hrefs p _ Ha) as [Ht1 Ht3].
  destruct (lookup_lt_is_Some_2 (timers s) (2 * p)) as [tm1 Htm1]; [lia|].
  destruct (lookup_lt_is_Some_2 (timers s) (S (2 * p))) as [tm3 Htm3]; [lia|].
  exists (deref s p), (2 * p)%nat, (S (2 * p)), mcast,
    (wrap64 (t_d tm1 + wrap64 (t_age tm1 * Second))),
    (wrap64 (t_d tm3 + wrap64 (t_age tm3 * Second))).
  split; [exact Ha|]. split; [by apply (wf_key s Hwf)|].
  split; [by rewrite (wf_usn s Hwf p _ Ha), (wf_key s Hwf u p Hp)|].
  split; [by apply (wf_bucket s Hwf u)|].
  split; [exact Ht1|]. split; [exact Ht3|]. split; [lia|].
  split.
  - unfold timer_fire. rewrite Htm1.
    rewrite (Hact u p tm1 Hp (or_introl Htm1)), (Hown p tm1 (or_introl Htm1)).
    by rewrite (advertiseServer_alive _ mcast).
  - unfold timer_fire. rewrite Htm3.
    rewrite (Hact u p tm3 Hp (or_intror Htm3)), (Hown p tm3 (or_intror Htm3)).
    by rewrite (advertiseServer_alive _ mcast).
Qed.

End TimerProperties.

(** ** The further properties on the concrete scenarios *)

(** The M-SEARCH datagram of [ListenFor]. *)
Lemma createSsdpHeader_format_witness :
  env_ok env0 ∧
  ∃ entries : list (string * string),
    entries ≡ₚ map_to_list (listen_heads "urn:a") ∧
    createSsdpHeader (E := env0) "M-SEARCH" (listen_heads "urn:a") false
    = "M-SEARCH" +:+ " * HTTP/1.1" +:+ CRLF +:+ header_lines entries +:+ CRLF.
Proof.
  split; [exact env0_ok|].
  destruct (createSsdpHeader_format (E := env0) "M-SEARCH" (listen_heads "urn:a") false
              env0_ok) as (entries & Hp & _ & Heq & _).
  exists entries. split; [exact Hp | exact Heq].
Defined.

(** A session of four datagrams on an engine with two devices. *)
Lemma socketReader_keeps_registry_witness :
  ∃ s', socketReader (E := env1) session two_devices_listening = Some s' ∧
        same_registry two_devices_listening s' ∧
        only_grows two_devices_listening s' ∧
        length (writeChannel s') = 2%nat ∧
        (length <$> listener s') = Some 2%nat.
Proof.
  destruct (socketReader (E := env1) session two_devices_listening) as [s'|] eqn:Hs;
    [|vm_compute in Hs; discriminate Hs].
  exists s'. split; [reflexivity|].
  destruct (socketReader_keeps_registry (E := env1) session two_devices_listening s' Hs)
    as [H1 H2].
  split; [exact H1|]. split; [exact H2|].
  vm_compute in Hs. injection Hs as <-. split; reflexivity.
Defined.

(** The first device is advertised and searched for by its UUID. *)
Lemma advertise_then_search_witness :
  isRunning (NewSsdp false) = true ∧
  ResolveUDPAddr (Env := env0) searcher = Some searcher ∧
  ∃ d a,
    Sleep_time d = 0 ∧
    usn a = "uuid:" +:+ DeviceUuid ad1 +:+ "::" +:+ ServiceType ad1 ∧
    msearch (E := env0) (msearch_request "u1" "3") searcher
      (AdvertiseServer ad1 (NewSsdp false))
    = Some (d, send (msearch_response (E := env0) a searcher)
                 (AdvertiseServer ad1 (NewSsdp false))).
Proof.
  split; [reflexivity|]. split; [reflexivity|].
  destruct (advertise_then_search (E := env0) ad1 (msearch_request "u1" "3") searcher
              searcher "u" "1" (NewSsdp false) eq_refl eq_refl eq_refl)
    as (d & a & Hd & _ & _ & _ & Hu & Hm);
    [by vm_compute | by vm_compute | by vm_compute | by vm_compute | reflexivity|].
  exists d, a. split; [exact Hd|]. split; [exact Hu | exact Hm].
Defined.

(** Two targets listened for on a new engine. *)
Lemma listen_all_spec_witness :
  env_ok env0 ∧ isRunning (NewSsdp true) = true ∧
  ∃ mcast sent,
    writeChannel (listen_all (E := env0) ["urn:a"; "urn:b"] (NewSsdp true))
    = (writeChannel (NewSsdp true) ++ sent)%list ∧
    sent ≡ₚ (listen_message (E := env0) mcast <$> ["urn:a"; "urn:b"]).
Proof.
  split; [exact env0_ok|]. split; [reflexivity|].
  destruct (listen_all_spec (E := env0) ["urn:a"; "urn:b"] (NewSsdp true) env0_ok eq_refl)
    as (mcast & _ & _ & (sent & Hw & Hsent) & _).
  exists mcast, sent. split; [exact Hw | exact Hsent].
Defined.

(** [Stop] on an engine with two devices, and the writer. *)
Lemma Stop_drains_writer_witness :
  env_ok env0 ∧ engine_wf two_devices ∧ socket two_devices = true ∧
  Forall (λ m, shouldExit m = false) (writeChannel two_devices) ∧
  ∃ (ads : list nat) (mcast : string),
    ads ≡ₚ (snd <$> map_to_list (deviceIdToServer two_devices)) ∧
    socketWriter (writeChannel (Stop (E := env0) two_devices) ++ [sentinel])
    = (((λ m, (message m, to m)) <$> writeChannel two_devices) ++
       ((λ p, (message (byebye (E := env0) (deref two_devices p) mcast), Some mcast))
          <$> ads))%list.
Proof.
  split; [exact env0_ok|]. split; [apply run_engine_wf|]. split; [reflexivity|].
  split; [constructor|].
  destruct (Stop_drains_writer (E := env0) two_devices env0_ok (run_engine_wf false _)
              eq_refl (Forall_nil_2 _)) as (ads & mcast & Hp & Hw).
  exists ads, mcast. split; [exact Hp | exact (Hw [sentinel])].
Defined.

(** The timers of the first advertisement. *)
Lemma advertise_timers_witness :
  env_ok env0 ∧ isRunning (NewSsdp false) = true ∧ 0 <= MaxAge ad1 <= 9223372033 ∧
  ∃ mcast a,
    timer_fire (E := env0) 0 (AdvertiseServer ad1 (NewSsdp false))
    = Some ((1 + MaxAge ad1) * Second,
            send (alive (E := env0) a mcast) (AdvertiseServer ad1 (NewSsdp false))) ∧
    timer_fire (E := env0) 0 (RemoveServer "u1" (AdvertiseServer ad1 (NewSsdp false)))
    = None.
Proof.
  assert (0 <= MaxAge ad1 <= 9223372033) as Hage by (cbn; lia).
  split; [exact env0_ok|]. split; [reflexivity|]. split; [exact Hage|].
  destruct (advertise_timers (E := env0) ad1 (NewSsdp false) env0_ok eq_refl Hage)
    as (mcast & a & _ & _ & _ & _ & H1 & _ & H3 & _).
  exists mcast, a. split; [exact H1 | exact H3].
Defined.

Lemma alive_request_heads k v :
  k ≠ "HOST" →
  advertiseServer_heads (E := env0) ad1_registered true !! k = Some v →
  http.Get (http.ReqHeader alive_request) k = v.
Proof.
  intros Hk H. apply elem_of_map_to_list in H.
  remember (map_to_list (advertiseServer_heads (E := env0) ad1_registered true)) as l eqn:Hl.
  vm_compute in Hl. subst l.
  repeat (apply elem_of_cons in H as [[= -> ->]|H];
          [first [by destruct Hk | vm_compute; reflexivity]|]).
  by apply elem_of_nil in H.
Qed.

(** The alive NOTIFY of the first advertisement, received by a peer. *)
Lemma alive_observed_witness :
  listener (NewSsdp true) = Some [] ∧
  ServiceType ad1_registered ≠ EmptyString ∧
  contains_byte colon (DeviceUuid ad1_registered) = false ∧
  MaxAge ad1_registered < 2 ^ 63 ∧
  listener (notify (E := env0) alive_request (NewSsdp true))
  = Some [NotifyAlive
            (mkAlive "urn:test:svc:1" "u1" "uuid:u1::urn:test:svc:1" "http://h/1" 1800
               "linux/0.0 UPnP/1.0 gossdp/0.1" alive_request)].
Proof.
  assert (MaxAge ad1_registered < 2 ^ 63) as Hage by (cbn; lia).
  split; [reflexivity|]. split; [discriminate|]. split; [reflexivity|].
  split; [exact Hage|].
  exact (alive_observed (E := env0) ad1_registered alive_request (NewSsdp true) []
           eq_refl ltac:(discriminate) eq_refl eq_refl Hage alive_request_heads).
Defined.

Lemma response_of_ad1_heads k v :
  response_heads (E := env1) ad1_registered !! k = Some v →
  http.Get (http.RespHeader response_of_ad1) k = v.
Proof.
  intros H. apply elem_of_map_to_list in H.
  remember (map_to_list (response_heads (E := env1) ad1_registered)) as l eqn:Hl.
  vm_compute in Hl. subst l.
  repeat (apply elem_of_cons in H as [[= -> ->]|H]; [vm_compute; reflexivity|]).
  by apply elem_of_nil in H.
Qed.

(** The response for the first advertisement, received by the searcher. *)
Lemma response_observed_witness :
  listener (NewSsdp true) = Some [] ∧
  ReadResponse (Env := env1) response_text = Some response_of_ad1 ∧
  contains_byte colon (DeviceUuid ad1_registered) = false ∧
  MaxAge ad1_registered < 2 ^ 63 ∧
  listener (parseResponse (E := env1) response_text searcher (NewSsdp true))
  = Some [Response
            (mkResponseMessage 1800 "urn:test:svc:1" "u1" "uuid:u1::urn:test:svc:1"
               "http://h/1" "linux/0.0 UPnP/1.0 gossdp/0.1" response_of_ad1)].
Proof.
  assert (MaxAge ad1_registered < 2 ^ 63) as Hage by (cbn; lia).
  assert (ReadResponse (Env := env1) response_text = Some response_of_ad1) as Hread
    by (vm_compute; reflexivity).
  split; [reflexivity|]. split; [exact Hread|]. split; [reflexivity|].
  split; [exact Hage|].
  exact (response_observed (E := env1) ad1_registered response_text searcher
           response_of_ad1 (NewSsdp true) [] eq_refl Hread eq_refl eq_refl Hage
           response_of_ad1_heads).
Defined.

(** Of four interfaces, the second one is joined. *)
Lemma createSocket_joins_witness :
  net_ListenPacket net0 = true ∧
  createSocket net0 = inr [1%nat] ∧
  NewSsdpWithLogger net0 true = inr (NewSsdp true).
Proof.
  pose proof (createSocket_joins net0 _ true eq_refl eq_refl) as H.
  split; [reflexivity|]. split; [reflexivity|].
  change (createSocket net0) with (@inr socket_error _ [1%nat]) in H.
  exact (proj2 (proj2 (proj2 H))).
Defined.

(** A search with [MX: 3] on an engine with two devices. *)
Lemma datagram_never_pauses_witness :
  strconv.IntSize = 64 ∧
  ∃ d s', parseMessage (E := env1) search_text searcher two_devices_listening = Some (d, s') ∧
          Sleep_time d = 0.
Proof.
  split; [reflexivity|].
  destruct (parseMessage (E := env1) search_text searcher two_devices_listening)
    as [[d s']|] eqn:Hs; [|vm_compute in Hs; discriminate Hs].
  exists d, s'. split; [reflexivity|].
  exact (datagram_never_pauses (E := env1) search_text searcher two_devices_listening d s'
           eq_refl Hs).
Defined.

(** A device advertised twice, under two service types: the second
    advertisement is the registered one, and its timers are the third
    and the fourth. *)
Lemma registered_device_announced_witness :
  env_ok env0 ∧
  deviceIdToServer (run [OpAdvertise ad1; OpAdvertise ad1'] (NewSsdp false)) !! "u1"
  = Some 1%nat ∧
  ∃ a t1 t3 mcast d1 d3,
    heap (run [OpAdvertise ad1; OpAdvertise ad1'] (NewSsdp false)) !! 1%nat = Some a ∧
    DeviceUuid a = "u1" ∧
    usn a = "uuid:" +:+ "u1" +:+ "::" +:+ ServiceType a ∧
    in_service_bucket (run [OpAdvertise ad1; OpAdvertise ad1'] (NewSsdp false)) 1 ∧
    lastTimer a = Some t1 ∧ last3sTimer a = Some t3 ∧ t1 ≠ t3 ∧
    timer_fire (E := env0) t1 (run [OpAdvertise ad1; OpAdvertise ad1'] (NewSsdp false))
    = Some (d1, send (alive (E := env0) a mcast)
                  (run [OpAdvertise ad1; OpAdvertise ad1'] (NewSsdp false))) ∧
    timer_fire (E := env0) t3 (run [OpAdvertise ad1; OpAdvertise ad1'] (NewSsdp false))
    = Some (d3, send (alive (E := env0) a mcast)
                  (run [OpAdvertise ad1; OpAdvertise ad1'] (NewSsdp false))).
Proof.
  assert (deviceIdToServer (run [OpAdvertise ad1; OpAdvertise ad1'] (NewSsdp false)) !! "u1"
          = Some 1%nat) as Hp by (vm_compute; reflexivity).
  split; [exact env0_ok|]. split; [exact Hp|].
  exact (registered_device_announced (E := env0) false [OpAdvertise ad1; OpAdvertise ad1']
           "u1" 1 env0_ok Hp).
Defined.
